(** * Benchmark tables: a shallow embedding of [src/bat/benchmark.py]

    The development follows the Python module top-down:

    - [PyStr]    the [str] methods used by the two name standardisers
                 ([strip], [lower], [replace], [split("/")[-1]]);
    - [Frame]    the part of pandas the class relies on: a [DataFrame] is an
                 ordered list of named columns of cells, with the row filters,
                 group-bys and concatenation the methods call;
    - [Bench]    the class [Benchmark] itself.  Tables are mutable objects that
                 the caller and the class share, so the methods run in a small
                 state-and-exception monad over a store of frames and a store
                 of [Benchmark] objects.

    Scores are Python floats.  They are modelled by rationals kept in lowest
    terms ([VNum]) plus the missing value [VNaN]; overflow and rounding are
    outside the model.  Strings are byte strings: [lower] acts on the ASCII
    letters and [strip] on the ASCII white space. *)

From Stdlib Require Import Ascii String QArith Qminmax Lia Lqa.
From stdpp Require Import base list strings gmap.

Local Open Scope string_scope.
Local Open Scope list_scope.

(** ** Python [str] methods *)

Module PyStr.

Definition is_space (c : ascii) : bool :=
  let n := nat_of_ascii c in
  ((9 <=? n)%nat && (n <=? 13)%nat) || ((28 <=? n)%nat && (n <=? 32)%nat).

Definition lower_char (c : ascii) : ascii :=
  let n := nat_of_ascii c in
  if ((65 <=? n)%nat && (n <=? 90)%nat) then ascii_of_nat (n + 32) else c.

(** [s.lower()] *)
Fixpoint lower (s : string) : string :=
  match s with
  | EmptyString => EmptyString
  | String c s' => String (lower_char c) (lower s')
  end.

Fixpoint lstrip (s : string) : string :=
  match s with
  | EmptyString => EmptyString
  | String c s' => if is_space c then lstrip s' else s
  end.

(** [rstrip] keeps a character when it is not white space or when something
    that is kept follows it. *)
Fixpoint rstrip (s : string) : string :=
  match s with
  | EmptyString => EmptyString
  | String c s' =>
      match rstrip s' with
      | EmptyString => if is_space c then EmptyString else String c EmptyString
      | r => String c r
      end
  end.

(** [s.strip()] *)
Definition strip (s : string) : string := rstrip (lstrip s).

Fixpoint starts_with (p s : string) : bool :=
  match p, s with
  | EmptyString, _ => true
  | String a p', String b s' => if Ascii.eqb a b then starts_with p' s' else false
  | String _ _, EmptyString => false
  end.

(** [p in s] *)
Fixpoint contains (p s : string) : bool :=
  starts_with p s ||
  match s with
  | EmptyString => false
  | String _ s' => contains p s'
  end.

(** The scan of [s.replace(old, new)] for a non-empty [old]: left to right,
    matches do not overlap.  [skip] counts the characters of the current
    match that are still to be consumed. *)
Fixpoint replace_from (old new : string) (skip : nat) (s : string) : string :=
  match s with
  | EmptyString => EmptyString
  | String c s' =>
      match skip with
      | S k => replace_from old new k s'
      | O =>
          if starts_with old s
          then new +:+ replace_from old new (String.length old - 1) s'
          else String c (replace_from old new 0 s')
      end
  end.

Fixpoint intersperse (new s : string) : string :=
  match s with
  | EmptyString => new
  | String c s' => new +:+ String c (intersperse new s')
  end.

(** [s.replace(old, new)]; an empty [old] matches between all characters. *)
Definition replace (old new s : string) : string :=
  match old with
  | EmptyString => intersperse new s
  | _ => replace_from old new 0 s
  end.

(** [s.split(sep)[-1]] for a one-character separator: what follows the last
    separator, the whole string when there is none. *)
Fixpoint split_last (sep : ascii) (s : string) : string :=
  match s with
  | EmptyString => EmptyString
  | String c s' =>
      if Ascii.eqb c sep then split_last sep s'
      else if contains (String sep EmptyString) s' then split_last sep s'
      else s
  end.

End PyStr.

(** ** The assets read by the module

    [assets/prettified_bencmark_names.json] (a JSON object from canonical keys
    to display names) and [assets/lower_is_better_benchmarks.txt] (one source
    name per line) are not part of the source tree; the functions that read
    them take their contents as arguments. *)

Record assets := {
  prettified_names : gmap string string;
  lower_is_better_lines : list string;
}.

(** [get_nice_benchmark_name]: the display name when the table has one, the
    name itself otherwise. *)
Definition get_nice_benchmark_name (a : assets) (bench_name : string) : string :=
  match prettified_names a !! bench_name with
  | Some nice => nice
  | None => bench_name
  end.

Definition newline : string := String (ascii_of_nat 10) EmptyString.

(** [lower_os_better_for_source]: every line of the text file, its line feed
    removed, names a csv file. *)
Definition lower_is_better_sources (a : assets) : list string :=
  map (fun source => PyStr.replace newline "" source +:+ ".csv")
      (lower_is_better_lines a).

Definition lower_os_better_for_source (a : assets) (source_name : option string) : bool :=
  match source_name with
  | Some s => bool_decide (s ∈ lower_is_better_sources a)
  | None => false
  end.

(** ** Name standardisation (static methods of [Benchmark]) *)

Definition beta : string :=
  String (ascii_of_nat 206) (String (ascii_of_nat 178) EmptyString).

Definition scenario_rules (name : string) : string :=
  PyStr.replace "-" "_"
  (PyStr.replace "winog" "winogrande"
  (PyStr.replace "winogrande" "winog"
  (PyStr.replace "obqa" "openbookqa"
  (PyStr.replace "hswag" "hellaswag"
  (PyStr.replace "alpacav2,-len-adj" "alpacaeval2-lc"
  (PyStr.replace "alpacaeval2-wr" "alpacav2"
  (PyStr.replace "agi-eval" "agieval"
  (PyStr.replace "closed-book" "closed"
  (PyStr.replace "open-book" "open"
  (PyStr.replace "gsm-8k" "gsm8k"
  (PyStr.replace ")" ""
  (PyStr.replace "(" ""
  (PyStr.replace " " "-"
  (PyStr.replace "  " "-"
  (PyStr.replace "   " "-"
  (PyStr.lower
  (PyStr.strip name))))))))))))))))).

Definition standardize_scenario_name (a : assets) (name : string) : string :=
  get_nice_benchmark_name a (scenario_rules name).

Definition standardize_model_name (name : string) : string :=
  PyStr.replace "wml/" ""
  (PyStr.replace "v03" "v0_3"
  (PyStr.replace "v02" "v0_2"
  (PyStr.replace "v01" "v0_1"
  (PyStr.replace "." "_"
  (PyStr.replace "meta_" ""
  (PyStr.split_last "/"
  (PyStr.replace "ul2" "flan-ul2"
  (PyStr.replace "llama_3" "llama3"
  (PyStr.replace "-" "_"
  (PyStr.replace "-hf" ""
  (PyStr.replace "dbrx-inst" "dbrx-instruct"
  (PyStr.replace "command-r+" "command-r-plus"
  (PyStr.replace beta "beta"
  (PyStr.replace ")" ""
  (PyStr.replace "(" ""
  (PyStr.replace " " "-"
  (PyStr.replace "  " "-"
  (PyStr.replace "   " "-"
  (PyStr.lower
  (PyStr.strip name)))))))))))))))))))).

(** ** Exceptions *)

Inductive exn :=
| AssertionError (msg : string)
| ValueError (msg : string)
| KeyError (key : string)
| IndexError
| AttributeError
| TypeError (msg : string)
| UnboundLocalError (var : string)
| NameError (var : string)
| IOError (msg : string).

Inductive result (A : Type) :=
| Ok (a : A)
| Raise (e : exn).
Arguments Ok {A} a.
Arguments Raise {A} e.

Definition rbind {A B} (r : result A) (k : A -> result B) : result B :=
  match r with
  | Ok a => k a
  | Raise e => Raise e
  end.

Fixpoint rmapM {A B} (f : A -> result B) (l : list A) : result (list B) :=
  match l with
  | [] => Ok []
  | x :: l' => rbind (f x) (fun y => rbind (rmapM f l') (fun ys => Ok (y :: ys)))
  end.

(** ** The pandas fragment *)

Module Frame.

(** A cell: a string, a float, the missing value, or a Python list (the
    cells of [aggragated_from]). *)
#[warnings="-register-all"]
Inductive value :=
| VStr (s : string)
| VNum (q : Q)
| VNaN
| VList (l : list value).

Definition column : Type := string * list value.

(** Columns in order; all columns of a frame have one length. *)
Definition DataFrame : Type := list column.

Fixpoint value_eqb (a b : value) {struct a} : bool :=
  match a, b with
  | VStr s, VStr t => String.eqb s t
  | VNum p, VNum q => Qeq_bool p q
  | VNaN, VNaN => true
  | VList l1, VList l2 =>
      (fix go (l1 l2 : list value) {struct l1} : bool :=
         match l1, l2 with
         | [], [] => true
         | x :: l1', y :: l2' => value_eqb x y && go l1' l2'
         | _, _ => false
         end) l1 l2
  | _, _ => false
  end.

Definition is_nan (v : value) : bool :=
  match v with VNaN => true | _ => false end.

Definition is_number (v : value) : bool :=
  match v with VNum _ | VNaN => true | _ => false end.

(** [x in l] on cells *)
Definition value_in (x : value) (l : list value) : bool :=
  existsb (value_eqb x) l.

Fixpoint key_eqb (k1 k2 : list value) : bool :=
  match k1, k2 with
  | [], [] => true
  | x :: k1', y :: k2' => value_eqb x y && key_eqb k1' k2'
  | _, _ => false
  end.

(** *** Columns *)

Definition columns (df : DataFrame) : list string := map fst df.

(** [len(df)] *)
Definition nrows (df : DataFrame) : nat :=
  match df with
  | [] => 0
  | c :: _ => length (snd c)
  end.

(** [df[c]] *)
Fixpoint get_col (c : string) (df : DataFrame) : option (list value) :=
  match df with
  | [] => None
  | (n, vs) :: df' => if String.eqb n c then Some vs else get_col c df'
  end.

Definition has_col (c : string) (df : DataFrame) : bool :=
  existsb (String.eqb c) (columns df).

(** [df[c] = vs]: overwrite the column, or append it as the last one. *)
Fixpoint set_col (c : string) (vs : list value) (df : DataFrame) : DataFrame :=
  match df with
  | [] => [(c, vs)]
  | (n, ws) :: df' =>
      if String.eqb n c then (n, vs) :: df' else (n, ws) :: set_col c vs df'
  end.

(** [df[c] = v] for a scalar [v] *)
Definition set_col_scalar (c : string) (v : value) (df : DataFrame) : DataFrame :=
  set_col c (replicate (nrows df) v) df.

(** [df.drop(columns=[c])] *)
Definition drop_col (c : string) (df : DataFrame) : DataFrame :=
  List.filter (fun col => negb (String.eqb (fst col) c)) df.

(** *** Rows *)

Definition cells_at (i : nat) (df : DataFrame) : list value :=
  map (fun col => nth i (snd col) VNaN) df.

Definition rows (df : DataFrame) : list (list value) :=
  map (fun i => cells_at i df) (seq 0 (nrows df)).

Fixpoint filter_mask {A} (mask : list bool) (l : list A) : list A :=
  match mask, l with
  | b :: mask', x :: l' => if b then x :: filter_mask mask' l' else filter_mask mask' l'
  | _, _ => []
  end.

(** [df[mask]] *)
Definition select_rows (mask : list bool) (df : DataFrame) : DataFrame :=
  map (fun col => (fst col, filter_mask mask (snd col))) df.

(** [df.replace(old, new)]: whole cells equal to [old] *)
Definition replace_cells (old new : value) (df : DataFrame) : DataFrame :=
  map (fun col => (fst col, map (fun v => if value_eqb v old then new else v) (snd col))) df.

(** [df.dropna()]: the rows without a missing cell *)
Definition dropna (df : DataFrame) : DataFrame :=
  select_rows (map (fun r => forallb (fun v => negb (is_nan v)) r) (rows df)) df.

(** [pd.melt(df, id_vars=["model"], var_name="scenario", value_name="score")]:
    one row per model and value column, column by column. *)
Definition melt (df : DataFrame) : result DataFrame :=
  if has_col "score" df
  then Raise (ValueError "value_name (score) cannot match an element in the DataFrame columns.")
  else
    let models := default [] (get_col "model" df) in
    let vars := List.filter (fun col => negb (String.eqb (fst col) "model")) df in
    Ok [("model", concat (map (fun _ => models) vars));
        ("scenario", concat (map (fun col => replicate (length models) (VStr (fst col))) vars));
        ("score", concat (map snd vars))].

(** [pd.concat([df1, df2])]: the rows of [df1], then those of [df2]; the
    columns of [df1], then the new ones of [df2]; absent cells are missing. *)
Definition concat_frames (df1 df2 : DataFrame) : DataFrame :=
  map (fun col => (fst col,
                   snd col ++ default (replicate (nrows df2) VNaN) (get_col (fst col) df2))) df1
  ++ map (fun col => (fst col, replicate (nrows df1) VNaN ++ snd col))
         (List.filter (fun col => negb (has_col (fst col) df1)) df2).

(** [series.unique()]: distinct cells by first appearance *)
Fixpoint unique (vs : list value) : list value :=
  match vs with
  | [] => []
  | v :: vs' => v :: List.filter (fun w => negb (value_eqb w v)) (unique vs')
  end.

Fixpoint unique_keys (ks : list (list value)) : list (list value) :=
  match ks with
  | [] => []
  | k :: ks' => k :: List.filter (fun k' => negb (key_eqb k' k)) (unique_keys ks')
  end.

(** The rows of [df] restricted to the columns [cs] (a missing column reads
    as missing cells). *)
Definition keys_of (cs : list string) (df : DataFrame) : list (list value) :=
  map (fun i => map (fun c => nth i (default [] (get_col c df)) VNaN) cs)
      (seq 0 (nrows df)).

(** [df.duplicated(subset=cs, keep=False)] *)
Definition duplicated (cs : list string) (df : DataFrame) : list bool :=
  let ks := keys_of cs df in
  map (fun k => (1 <? length (List.filter (key_eqb k) ks))%nat) ks.

(** *** Group order: group keys come out sorted *)

Definition value_leb (a b : value) : bool :=
  match a, b with
  | VStr s, VStr t => String.leb s t
  | VNum p, VNum q => Qle_bool p q
  | VStr _, _ => false
  | _, VStr _ => true
  | VNum _, _ => true
  | _, VNum _ => false
  | _, _ => true
  end.

Fixpoint key_leb (k1 k2 : list value) : bool :=
  match k1, k2 with
  | [], _ => true
  | _ :: _, [] => false
  | x :: k1', y :: k2' =>
      if value_eqb x y then key_leb k1' k2' else value_leb x y
  end.

Fixpoint insert_sorted {A} (leb : A -> A -> bool) (x : A) (l : list A) : list A :=
  match l with
  | [] => [x]
  | y :: l' => if leb x y then x :: l else y :: insert_sorted leb x l'
  end.

(** [sorted(l)] *)
Definition sorted {A} (leb : A -> A -> bool) (l : list A) : list A :=
  foldr (insert_sorted leb) [] l.

(** A key without a missing cell *)
Definition no_nan (k : list value) : bool := forallb (fun v => negb (is_nan v)) k.

(** The groups of [df.groupby(cs)]: rows with a missing key are left out. *)
Definition group_keys (ks : list (list value)) : list (list value) :=
  sorted key_leb (unique_keys (List.filter no_nan ks)).

(** The cells of [vs] on the rows whose key is [k] *)
Definition group_cells (ks : list (list value)) (vs : list value) (k : list value)
  : list value :=
  filter_mask (map (key_eqb k) ks) vs.

(** *** Float reductions; missing values are skipped *)

Definition numbers (vs : list value) : list Q :=
  omap (fun v => match v with VNum q => Some q | _ => None end) vs.

Definition qmax_list (qs : list Q) : value :=
  match qs with
  | [] => VNaN
  | q :: qs' => VNum (foldl Qmax q qs')
  end.

Definition qmin_list (qs : list Q) : value :=
  match qs with
  | [] => VNaN
  | q :: qs' => VNum (foldl Qmin q qs')
  end.

Definition require_numeric (vs : list value) : result (list Q) :=
  if forallb is_number vs then Ok (numbers vs)
  else Raise (TypeError "unsupported operand type(s)").

(** [series.max()], [series.min()], [series.mean()] *)
Definition series_max (vs : list value) : result value :=
  rbind (require_numeric vs) (fun qs => Ok (qmax_list qs)).

Definition series_min (vs : list value) : result value :=
  rbind (require_numeric vs) (fun qs => Ok (qmin_list qs)).

Definition qsum (qs : list Q) : Q := foldl Qplus 0%Q qs.

Definition series_mean (vs : list value) : result value :=
  rbind (require_numeric vs) (fun qs =>
    match qs with
    | [] => Ok VNaN
    | _ => Ok (VNum (Qred (qsum qs / inject_Z (Z.of_nat (length qs)))%Q))
    end).

(** [series.count()]: the cells that are not missing *)
Definition series_count (vs : list value) : nat :=
  length (List.filter (fun v => negb (is_nan v)) vs).

(** [df.groupby(cs, as_index=False)[c].agg()]: key columns, then [c] *)
Definition groupby_agg (cs : list string) (c : string)
    (agg : list value -> result value) (df : DataFrame) : result DataFrame :=
  let ks := keys_of cs df in
  let gs := group_keys ks in
  match get_col c df with
  | None => Raise (KeyError c)
  | Some vs =>
      rbind (rmapM (fun k => agg (group_cells ks vs k)) gs) (fun out =>
        Ok (imap (fun j cname => (cname, map (fun k => nth j k VNaN) gs)) cs
            ++ [(c, out)]))
  end.

(** The place of row [i] in the group of key [k]: the rows of the group
    before it. *)
Definition rank (k : list value) (i : nat) (ks : list (list value)) : nat :=
  length (List.filter (key_eqb k) (take i ks)).

(** [series.groupby(keys).transform(f)]: [f] maps the cells of each group to
    as many cells; every row gets the cell at its place in its group
    ([rank]: the number of rows of the group before it), rows with a missing
    key get a missing value. *)
Definition groupby_transform (ks : list (list value)) (vs : list value)
    (f : list value -> result (list value)) : result (list value) :=
  let gs := group_keys ks in
  rbind (rmapM (fun k => rbind (f (group_cells ks vs k)) (fun out => Ok (k, out))) gs)
    (fun outs =>
       Ok (imap (fun i k =>
                   match List.find (fun g => key_eqb (fst g) k) outs with
                   | Some g => nth (rank k i ks) (snd g) VNaN
                   | None => VNaN
                   end) ks)).

End Frame.

(** ** The class [Benchmark] *)

Module Bench.
Import Frame.

(** The attributes of a [Benchmark] object; [df] is [None] or a reference
    to a frame. *)
Record Benchmark := { is_empty : bool; df : option nat }.

(** The store: the frames and the [Benchmark] objects allocated so far, and
    what has been printed. *)
Record world := {
  frames : list DataFrame;
  objects : list Benchmark;
  stdout : list string;
}.

Definition M (A : Type) : Type := world -> result A * world.

Definition ret {A} (a : A) : M A := fun w => (Ok a, w).

Definition raise {A} (e : exn) : M A := fun w => (Raise e, w).

Definition bind {A B} (m : M A) (k : A -> M B) : M B :=
  fun w =>
    match m w with
    | (Ok a, w') => k a w'
    | (Raise e, w') => (Raise e, w')
    end.

Declare Scope py_scope.
Delimit Scope py_scope with py.
Notation "x <- m ;; k" := (bind m (fun x => k))
  (at level 100, m at next level, right associativity) : py_scope.
Notation "m ;; k" := (bind m (fun _ => k))
  (at level 100, right associativity) : py_scope.
Local Open Scope py_scope.

Definition lift {A} (r : result A) : M A := fun w => (r, w).

Definition assert (b : bool) (msg : string) : M unit :=
  if b then ret tt else raise (AssertionError msg).

Definition when (b : bool) (m : M unit) : M unit :=
  if b then m else ret tt.

Definition print (line : string) : M unit :=
  fun w => (Ok tt, {| frames := frames w; objects := objects w;
                      stdout := stdout w ++ [line] |}).

(** *** Frames in the store *)

Definition new_frame (f : DataFrame) : M nat :=
  fun w => (Ok (length (frames w)),
            {| frames := frames w ++ [f]; objects := objects w; stdout := stdout w |}).

(** A reference held by Python code is always in the store; reading one that
    is not is reported like an attribute of [None]. *)
Definition read_frame (l : nat) : M DataFrame :=
  fun w =>
    match frames w !! l with
    | Some f => (Ok f, w)
    | None => (Raise AttributeError, w)
    end.

Definition write_frame (l : nat) (f : DataFrame) : M unit :=
  fun w => (Ok tt, {| frames := <[l := f]> (frames w); objects := objects w;
                      stdout := stdout w |}).

(** An operation with [inplace=True] *)
Definition update_frame (l : nat) (g : DataFrame -> DataFrame) : M unit :=
  f <- read_frame l ;; write_frame l (g f).

(** *** Objects in the store *)

Definition new_object (b : Benchmark) : M nat :=
  fun w => (Ok (length (objects w)),
            {| frames := frames w; objects := objects w ++ [b]; stdout := stdout w |}).

Definition read_object (self : nat) : M Benchmark :=
  fun w =>
    match objects w !! self with
    | Some b => (Ok b, w)
    | None => (Raise AttributeError, w)
    end.

Definition write_object (self : nat) (b : Benchmark) : M unit :=
  fun w => (Ok tt, {| frames := frames w; objects := <[self := b]> (objects w);
                      stdout := stdout w |}).

(** [self.df = l] and [self.is_empty = b] *)
Definition set_df (self : nat) (l : option nat) : M unit :=
  b <- read_object self ;; write_object self {| is_empty := is_empty b; df := l |}.

Definition set_is_empty (self : nat) (e : bool) : M unit :=
  b <- read_object self ;; write_object self {| is_empty := e; df := df b |}.

(** [self.df] used as a frame: [None] has no attributes *)
Definition self_df (self : nat) : M nat :=
  b <- read_object self ;;
  match df b with
  | Some l => ret l
  | None => raise AttributeError
  end.

(** Truth value of an optional string argument *)
Definition truthy (s : option string) : bool :=
  match s with
  | Some (String _ _) => true
  | _ => false
  end.

Definition required_columns : list string :=
  ["model"; "scenario"; "score"; "source"; "aggragated_from"].

Definition string_list_eqb (l1 l2 : list string) : bool :=
  bool_decide (l1 = l2).

Section WithHost.

(** The asset files, and Python's [float] on strings ([None] where it
    raises). *)
Variable host_assets : assets.
Variable float_of_str : string -> option Q.

(** *** [validate_df_pre_formatting] *)

Definition validate_df_pre_formatting (l : nat) : M unit :=
  f <- read_frame l ;;
  (if has_col "Unnamed: 0" f
   then raise (ValueError "DataFrame should not contain 'Unnamed: 0' column")
   else ret tt) ;;
  (if negb (has_col "model" f)
   then raise (ValueError "DataFrame must contain a 'model' column")
   else ret tt) ;;
  (if negb (has_col "scenario" f) && (length (columns f) <? 2)%nat
   then raise (ValueError "DataFrame must contain at least 'model' and one scenario column or 'scenario' and 'score' column")
   else ret tt) ;;
  match get_col "score" f with
  | Some vs =>
      if negb (forallb is_number vs)
      then raise (ValueError "score must be numeric")
      else ret tt
  | None => ret tt
  end.

(** *** [validate_dataframe_post_formatting] *)

(** [sorted(relevant_columns) == sorted(required_columns)], where the relevant
    columns are all columns but [tag] *)
Definition columns_ok (f : DataFrame) : bool :=
  let relevant_columns :=
    List.filter (fun col_name => negb (String.eqb col_name "tag")) (columns f) in
  string_list_eqb (sorted String.leb relevant_columns) (sorted String.leb required_columns).

(** [not len(df[df.duplicated(subset=["model", "scenario", "source"], keep=False)]) == 0] *)
Definition has_duplicates (f : DataFrame) : bool :=
  negb (nrows (select_rows (duplicated ["model"; "scenario"; "source"] f) f) =? 0)%nat.

Definition duplicates_warning : string :=
  "Warning: Duplicate entries found. Keeping rows with the best scores.".

(** [pd.api.types.is_numeric_dtype(df["score"])] raising when it is false *)
Definition check_score_numeric (f : DataFrame) : M unit :=
  match get_col "score" f with
  | None => raise (KeyError "score")
  | Some vs =>
      if negb (forallb is_number vs)
      then raise (ValueError "score must be numeric")
      else ret tt
  end.

Definition validate_dataframe_post_formatting (self : nat) : M unit :=
  l <- self_df self ;;
  f <- read_frame l ;;
  when (has_col "Unnamed: 0" f) (update_frame l (drop_col "Unnamed: 0")) ;;
  l <- self_df self ;;
  f <- read_frame l ;;
  (if negb (columns_ok f)
   then raise (ValueError "DataFrame must contain the following columns")
   else ret tt) ;;
  when (has_duplicates f)
    (g <- lift (groupby_agg ["model"; "scenario"; "source"] "score" series_max f) ;;
     l' <- new_frame g ;;
     set_df self (Some l') ;;
     print duplicates_warning) ;;
  l <- self_df self ;;
  f <- read_frame l ;;
  check_score_numeric f.

(** *** [normalize_scores_per_scenario] *)

(** [max_score == min_score] on floats: a missing value equals nothing *)
Definition float_eqb (a b : value) : bool :=
  match a, b with
  | VNum p, VNum q => Qeq_bool p q
  | _, _ => false
  end.

(** [(x - lo) / (hi - lo)] *)
Definition rescale (lo hi x : value) : value :=
  match lo, hi, x with
  | VNum lo, VNum hi, VNum x => VNum (Qred ((x - lo) / (hi - lo)))
  | _, _, _ => VNaN
  end.

(** The inner function [normalize], on the scores of one group *)
Definition normalize (group : list value) : result (list value) :=
  rbind (series_min group) (fun min_score =>
  rbind (series_max group) (fun max_score =>
    if float_eqb max_score min_score
    then Ok (map (fun _ => VNum 1) group)
    else Ok (map (rescale min_score max_score) group))).

(** [1 - x] *)
Definition one_minus (x : value) : value :=
  match x with
  | VNum q => VNum (Qred (1 - q))
  | _ => VNaN
  end.

(** The frame computed by [normalize_scores_per_scenario]: the group-by
    leaves out the rows whose scenario is missing and gives the others
    back in their order. *)
Definition normalized_frame (lower_is_better : bool) (f : DataFrame)
  : result DataFrame :=
  match get_col "score" f with
  | None => Raise (ValueError "DataFrame must contain a 'score' column")
  | Some scores =>
      match get_col "scenario" f with
      | None => Raise (KeyError "scenario")
      | Some scenarios =>
          let ks := map (fun v => [v]) scenarios in
          rbind (groupby_transform ks scores normalize) (fun scores' =>
            let g := select_rows (map (fun v => negb (is_nan v)) scenarios)
                                 (set_col "score" scores' f) in
            if lower_is_better
            then Ok (set_col "score"
                       (map one_minus (default [] (get_col "score" g))) g)
            else Ok g)
      end
  end.

Definition normalize_scores_per_scenario (self : nat) (lower_is_better : bool)
  : M unit :=
  l <- self_df self ;;
  f <- read_frame l ;;
  g <- lift (normalized_frame lower_is_better f) ;;
  l' <- new_frame g ;;
  set_df self (Some l').

(** *** [assign_df] *)

(** [series.astype(float, errors="ignore")]: the converted column, or the
    column as it is when a cell does not convert. *)
Definition to_float (v : value) : option value :=
  match v with
  | VStr s => VNum <$> float_of_str s
  | VNum q => Some (VNum q)
  | VNaN => Some VNaN
  | VList _ => None
  end.

Definition astype_float (vs : list value) : list value :=
  default vs (mapM to_float vs).

(** [series.apply(f)] for a method [f] of [str] *)
Definition apply_str (f : string -> string) (vs : list value) : result (list value) :=
  rmapM (fun v => match v with
                  | VStr s => Ok (VStr (f s))
                  | _ => Raise AttributeError
                  end) vs.

Definition assign_df (self : nat) (df0 : nat) (data_source : option string)
    (normalized_names : bool) : M unit :=
  f <- read_frame df0 ;;
  match columns f with
  | [] => raise IndexError
  | c0 :: _ =>
      assert (String.eqb c0 "model") "the zeroth df column mush be model"
  end ;;
  df1 <- (if negb (has_col "scenario" f)
          then g <- lift (melt f) ;; new_frame g
          else ret df0) ;;
  update_frame df1 (replace_cells (VStr "-") VNaN) ;;
  f <- read_frame df1 ;;
  match get_col "score" f with
  | None => raise (KeyError "score")
  | Some vs => write_frame df1 (set_col "score" (astype_float vs) f)
  end ;;
  when (negb normalized_names)
    (f <- read_frame df1 ;;
     match get_col "model" f with
     | None => raise (KeyError "model")
     | Some vs =>
         vs' <- lift (apply_str standardize_model_name vs) ;;
         write_frame df1 (set_col "model" vs' f)
     end ;;
     f <- read_frame df1 ;;
     match get_col "scenario" f with
     | None => raise (KeyError "scenario")
     | Some vs =>
         vs' <- lift (apply_str (standardize_scenario_name host_assets) vs) ;;
         write_frame df1 (set_col "scenario" vs' f)
     end) ;;
  update_frame df1 (fun f => set_col_scalar "aggragated_from" (VList []) f) ;;
  when (truthy data_source)
    (update_frame df1 (fun f =>
       set_col_scalar "source" (VStr (default "" data_source)) f)) ;;
  set_df self (Some df1) ;;
  validate_dataframe_post_formatting self ;;
  l <- self_df self ;;
  update_frame l dropna ;;
  when (lower_os_better_for_source host_assets data_source)
    (normalize_scores_per_scenario self true) ;;
  set_is_empty self false.

(** *** [__init__]

    [Benchmark(df, data_source, normalized_names)]: the new object, once
    [__init__] has run on it. *)
Definition new_Benchmark (df0 : nat) (data_source : option string)
    (normalized_names : bool) : M nat :=
  self <- new_object {| is_empty := true; df := None |} ;;
  f <- read_frame df0 ;;
  when (0 <? nrows f)%nat
    (assert (truthy data_source || has_col "source" f)
            "A datasource must be inputted with a df" ;;
     validate_df_pre_formatting df0 ;;
     assign_df self df0 data_source normalized_names) ;;
  ret self.

(** *** [extend] *)

Definition extend (self other : nat) : M nat :=
  b <- read_object self ;;
  o <- read_object other ;;
  match df b with
  | Some l =>
      f <- read_frame l ;;
      g <- match df o with
           | Some l2 => f2 <- read_frame l2 ;; ret (concat_frames f f2)
           | None => ret f
           end ;;
      l' <- new_frame g ;;
      set_df self (Some l')
  | None => set_df self (df o)
  end ;;
  ret self.

(** *** [add_aggregate] *)

(** [x > value] on floats: false when one of them is missing *)
Definition float_gtb (x v : value) : bool :=
  match x, v with
  | VNum p, VNum q => negb (Qle_bool p q)
  | _, _ => false
  end.

(** The inner function [win_rate] of [calculate_win_rate] *)
Definition win_rate (series : list value) (x : value) : value :=
  let win_count := length (List.filter (float_gtb x) series) in
  VNum (Qred (inject_Z (Z.of_nat win_count)
              / inject_Z (Z.of_nat (length series - 1)))).

Definition calculate_win_rate (series : list value) : result (list value) :=
  if negb (1 <? length series)%nat
  then Raise (AssertionError "Error: tryting to get the mean win rate with only one column")
  else rbind (require_numeric series) (fun _ => Ok (map (win_rate series) series)).

(** [df.query("scenario not in @l")], [df.query("scenario in @l")] and
    [df.query("model in @l")] *)
Definition query_in (c : string) (keep_in : bool) (l : list value) (f : DataFrame)
  : result DataFrame :=
  match get_col c f with
  | None => Raise (NameError c)
  | Some vs =>
      Ok (select_rows (map (fun v => if keep_in then value_in v l
                                     else negb (value_in v l)) vs) f)
  end.

(** [df_for_agg.groupby(["model"])["scenario"].count()] filtered by
    [scenario >= n]: the models kept, in group order. *)
Definition models_with_count (n : Z) (f : DataFrame) : result (list value) :=
  match get_col "model" f, get_col "scenario" f with
  | None, _ => Raise (KeyError "model")
  | _, None => Raise (KeyError "scenario")
  | Some models, Some scenarios =>
      let ks := map (fun v => [v]) models in
      Ok (omap (fun k =>
                  if (n <=? Z.of_nat (series_count (group_cells ks scenarios k)))%Z
                  then head k else None)
               (group_keys ks))
  end.

(** [df.groupby(["model"]).agg({"score": "mean", "wr": "mean"}).reset_index()] *)
Definition mean_by_model (f : DataFrame) : result DataFrame :=
  rbind (groupby_agg ["model"] "score" series_mean f) (fun by_score =>
  rbind (groupby_agg ["model"] "wr" series_mean f) (fun by_wr =>
    Ok (set_col "wr" (default [] (get_col "wr" by_wr)) by_score))).

Definition add_aggregate (self : nat) (new_col_name : string)
    (scenario_blacklist scenario_whitelist : list value)
    (mean_or_mwr : string) (agg_source_name : option string)
    (min_scenario_for_models_to_appear_in_agg : Z) : M unit :=
  assert (negb (negb (0 =? length scenario_blacklist)%nat
                && negb (0 =? length scenario_whitelist)%nat))
         "either scenario_blacklist or scenario_whitelist can be inputted, but not both" ;;
  (** the local variable [df_for_agg] is bound in two of the three branches *)
  df_for_agg <-
    (if negb (0 =? length scenario_blacklist)%nat
     then l <- self_df self ;; f <- read_frame l ;;
          g <- lift (query_in "scenario" false scenario_blacklist f) ;; ret (Some g)
     else if negb (0 =? length scenario_whitelist)%nat
     then l <- self_df self ;; f <- read_frame l ;;
          g <- lift (query_in "scenario" true scenario_whitelist f) ;; ret (Some g)
     else ret None) ;;
  df_for_agg <- match df_for_agg with
                | Some g => ret g
                | None => raise (UnboundLocalError "df_for_agg")
                end ;;
  scenarios <- match get_col "scenario" df_for_agg with
               | Some vs => ret vs
               | None => raise (KeyError "scenario")
               end ;;
  let n_scenario_for_aggregate := Z.of_nat (length (unique scenarios)) in
  let min_scenario_for_models_to_appear_in_agg :=
    Z.min min_scenario_for_models_to_appear_in_agg n_scenario_for_aggregate in
  models_to_consider <-
    lift (models_with_count min_scenario_for_models_to_appear_in_agg df_for_agg) ;;
  df_for_agg <- lift (query_in "model" true models_to_consider df_for_agg) ;;
  scores <- match get_col "score" df_for_agg with
            | Some vs => ret vs
            | None => raise (KeyError "score")
            end ;;
  wr <- lift (groupby_transform
                (map (fun v => [v]) (default [] (get_col "scenario" df_for_agg)))
                scores calculate_win_rate) ;;
  let df_for_agg := set_col "wr" wr df_for_agg in
  mean_df <- lift (mean_by_model df_for_agg) ;;
  let mean_df :=
    set_col "score"
      (default [] (get_col (if String.eqb mean_or_mwr "mwr" then "wr" else "score")
                           mean_df))
      mean_df in
  let mean_df := set_col_scalar "scenario" (VStr new_col_name) mean_df in
  l <- self_df self ;;
  f <- read_frame l ;;
  all_scenarios <- match get_col "scenario" f with
                   | Some vs => ret vs
                   | None => raise (KeyError "scenario")
                   end ;;
  let mean_df :=
    set_col_scalar "aggragated_from"
      (VList (List.filter (fun scenario => negb (value_in scenario scenario_blacklist))
                          (unique all_scenarios)))
      mean_df in
  mean_df <-
    (if truthy agg_source_name
     then ret (set_col_scalar "source" (VStr (default "" agg_source_name)) mean_df)
     else
       match get_col "source" f with
       | None => raise (KeyError "source")
       | Some srcs =>
           match unique srcs with
           | [src] => ret (set_col_scalar "source" src mean_df)
           | _ => raise (IOError "more that one source for aggrageted column, in this case, you must specify a agg_source_name")
           end
       end) ;;
  l' <- new_frame (concat_frames f (drop_col "wr" mean_df)) ;;
  set_df self (Some l').

(** *** [clear_repeated_scenarios] *)

(** [x + y] on the cells of two string columns: a missing operand gives a
    missing cell, anything else but two strings is a [TypeError]. *)
Definition str_add (x y : value) : result value :=
  match x, y with
  | VNaN, _ => Ok VNaN
  | _, VNaN => Ok VNaN
  | VStr s, VStr t => Ok (VStr (s +:+ t))
  | _, _ => Raise (TypeError "can only concatenate str")
  end.

(** [series + y] for a scalar [y], and [series1 + series2] *)
Definition series_add_scalar (xs : list value) (y : value) : result (list value) :=
  rmapM (fun x => str_add x y) xs.

Definition series_add (xs ys : list value) : result (list value) :=
  rmapM (fun p => str_add (fst p) (snd p)) (zip xs ys).

(** [pd.crosstab(rs, cs)]: the row keys and the column keys, sorted, and for
    each pair the number of rows that carry it; rows with a missing key do not
    count. *)
Definition crosstab_index (rs cs : list value) : list value :=
  map (fun k => nth 0 k VNaN)
      (group_keys (map (fun p => [fst p])
                       (List.filter (fun p => negb (is_nan (snd p))) (zip rs cs)))).

Definition crosstab (rs cs : list value) : list (list Z) :=
  map (fun r =>
         map (fun c =>
                Z.of_nat (length (List.filter
                                    (fun p => value_eqb (fst p) r && value_eqb (snd p) c)
                                    (zip rs cs))))
             (crosstab_index cs rs))
      (crosstab_index rs cs).

(** [m.dot(m.T)] and [m.sum(axis=1)] *)
Definition dot_transpose (m : list (list Z)) : list (list Z) :=
  map (fun r1 => map (fun r2 => foldr Z.add 0%Z (zip_with Z.mul r1 r2)) m) m.

Definition row_sums (m : list (list Z)) : list Z :=
  map (foldr Z.add 0%Z) m.

(** [scenario_combinations.sum(axis=1)[x]] *)
Definition popularity (index : list value) (sums : list Z) (x : value) : result value :=
  match List.find (fun p => value_eqb (fst p) x) (zip index sums) with
  | Some p => Ok (VNum (inject_Z (snd p)))
  | None => Raise (KeyError "scenario__source")
  end.

(** [df.drop_duplicates(cs)]: the first row of every key *)
Definition drop_duplicates (cs : list string) (f : DataFrame) : DataFrame :=
  let ks := keys_of cs f in
  select_rows (imap (fun i k => negb (existsb (key_eqb k) (take i ks))) ks) f.

(** [key in series] tests the row labels of the series, not its cells.  The
    tables of this module carry the integer labels that [read_csv], [melt],
    [reset_index] and the group-bys give them, so a source name is never one
    of them. *)
Definition in_row_labels (key : string) (series : list value) : bool := false.

(** What [scenario_source_to_keep] is bound to: a series in the first branch,
    one cell in the second *)
Inductive kept :=
| KeptSeries (cells : list value)
| KeptCell (cell : value).

(** [scen_source not in scenario_source_to_keep]: a label test on a series, a
    substring test on a string *)
Definition not_in_kept (scen_source : value) (keep : kept) : result bool :=
  match keep with
  | KeptSeries _ => Ok true
  | KeptCell (VStr k) =>
      match scen_source with
      | VStr s => Ok (negb (PyStr.contains s k))
      | _ => Raise (TypeError "'in <string>' requires string as left operand")
      end
  | KeptCell _ => Raise (TypeError "argument of type 'float' is not iterable")
  end.

(** [series.argmax()]: the place of the first greatest number, missing
    cells skipped *)
Fixpoint argmax_from (best : option (Q * nat)) (i : nat) (vs : list value) : option nat :=
  match vs with
  | [] => snd <$> best
  | VNum q :: vs' =>
      match best with
      | Some (top, _) =>
          if Qle_bool q top then argmax_from best (S i) vs'
          else argmax_from (Some (q, i)) (S i) vs'
      | None => argmax_from (Some (q, i)) (S i) vs'
      end
  | _ :: vs' => argmax_from best (S i) vs'
  end.

Definition argmax (vs : list value) : result nat :=
  rbind (require_numeric vs) (fun _ =>
    match argmax_from None 0 vs with
    | Some i => Ok i
    | None => Raise (ValueError "attempt to get argmax of an empty sequence")
    end).

(** The text of a cell and of a list of string cells in an f-string (strings
    without quotes or escapes) *)
Definition show_cell (v : value) : string :=
  match v with
  | VStr s => s
  | _ => "nan"
  end.

Fixpoint show_items (vs : list value) : string :=
  match vs with
  | [] => ""
  | [v] => "'" +:+ show_cell v +:+ "'"
  | v :: vs' => "'" +:+ show_cell v +:+ "', " +:+ show_items vs'
  end.

Definition show_kept (keep : kept) : string :=
  match keep with
  | KeptCell v => show_cell v
  | KeptSeries vs => "Series(" +:+ show_items vs +:+ ")"
  end.

(** The body of the loop for a scenario with more than one source, on the
    rows [scenario_df] of the scenario: what is added to
    [scenarios_source_to_drop]. *)
Definition sources_to_drop (source_to_keep : option string) (scenario_df : DataFrame)
  : M (list value) :=
  let sources := default [] (get_col "source" scenario_df) in
  let scen_sources := default [] (get_col "scenario__source" scenario_df) in
  keep <-
    (if truthy source_to_keep && in_row_labels (default "" source_to_keep) sources
     then
       g <- lift (query_in "source" false [VStr (default "" source_to_keep)] scenario_df) ;;
       ret (KeptSeries (default [] (get_col "scenario__source" g)))
     else
       i <- lift (argmax (default [] (get_col "scenario__source_counts" scenario_df))) ;;
       ret (KeptCell (nth i scen_sources VNaN))) ;;
  flags <- lift (rmapM (fun s => not_in_kept s keep) (unique scen_sources)) ;;
  let cur_scenarios_source_to_drop := filter_mask flags (unique scen_sources) in
  print ("kept: " +:+ show_kept keep +:+ ", dropped: ["
         +:+ show_items cur_scenarios_source_to_drop +:+ "]") ;;
  ret cur_scenarios_source_to_drop.

(** The loop over the groups [(scenario, scenario_df)]; its state is the two
    lists [scenarios_already_delt_with] and [scenarios_source_to_drop]. *)
Fixpoint clear_scenarios (source_to_keep : option string)
    (groups : list (value * DataFrame))
    (scenarios_already_delt_with scenarios_source_to_drop : list value)
  : M (list value) :=
  match groups with
  | [] => ret scenarios_source_to_drop
  | (scenario, scenario_df) :: rest =>
      if value_in scenario scenarios_already_delt_with
      then clear_scenarios source_to_keep rest
             scenarios_already_delt_with scenarios_source_to_drop
      else if (1 <? nrows scenario_df)%nat
      then
        cur <- sources_to_drop source_to_keep scenario_df ;;
        clear_scenarios source_to_keep rest
          (scenarios_already_delt_with ++ [scenario]) (scenarios_source_to_drop ++ cur)
      else clear_scenarios source_to_keep rest
             scenarios_already_delt_with scenarios_source_to_drop
  end.

(** The groups of [df.groupby("scenario")], in group order *)
Definition groups_by_scenario (f : DataFrame) : list (value * DataFrame) :=
  let ks := keys_of ["scenario"] f in
  map (fun k => (nth 0 k VNaN, select_rows (map (key_eqb k) ks) f)) (group_keys ks).

Definition clear_repeated_scenarios (self : nat) (source_to_keep : option string)
  : M unit :=
  l <- self_df self ;;
  f <- read_frame l ;;
  scenarios <- match get_col "scenario" f with
               | Some vs => ret vs
               | None => raise (KeyError "scenario")
               end ;;
  prefixes <- lift (series_add_scalar scenarios (VStr "__")) ;;
  sources <- match get_col "source" f with
             | Some vs => ret vs
             | None => raise (KeyError "source")
             end ;;
  scen_sources <- lift (series_add prefixes sources) ;;
  write_frame l (set_col "scenario__source" scen_sources f) ;;
  f <- read_frame l ;;
  models <- match get_col "model" f with
            | Some vs => ret vs
            | None => raise (KeyError "model")
            end ;;
  let cross_tab := crosstab scen_sources models in
  let scenario_combinations := dot_transpose cross_tab in
  counts <- lift (rmapM (popularity (crosstab_index scen_sources models)
                                    (row_sums scenario_combinations))
                        scen_sources) ;;
  write_frame l (set_col "scenario__source_counts" counts f) ;;
  f <- read_frame l ;;
  scenarios_source_to_drop <-
    clear_scenarios source_to_keep
      (groups_by_scenario (drop_duplicates ["scenario"; "source"] f)) [] [] ;;
  g <- lift (query_in "scenario__source" false scenarios_source_to_drop f) ;;
  l' <- new_frame g ;;
  set_df self (Some l') ;;
  update_frame l' (drop_col "scenario__source") ;;
  update_frame l' (drop_col "scenario__source_counts").

(** *** [load_local_catalog]

    [catalog] is what [os.listdir] and [pd.read_csv] give: the file names of
    the catalog directory, each with the table read from the file. *)
Fixpoint load_local_catalog (self : nat) (catalog : list (string * DataFrame)) : M unit :=
  match catalog with
  | [] => ret tt
  | (file_name, table) :: rest =>
      l <- new_frame table ;;
      other <- new_Benchmark l (Some file_name) false ;;
      extend self other ;;
      load_local_catalog self rest
  end.

End WithHost.

(** *** The getters *)

(** [self.df[c]]: [None] cannot be subscripted *)
Definition self_df_column (self : nat) (c : string) : M (list value) :=
  b <- read_object self ;;
  match df b with
  | None => raise (TypeError "'NoneType' object is not subscriptable")
  | Some l =>
      f <- read_frame l ;;
      match get_col c f with
      | Some vs => ret vs
      | None => raise (KeyError c)
      end
  end.

Definition get_models (self : nat) : M (list value) :=
  vs <- self_df_column self "model" ;; ret (unique vs).

Definition get_scenarios (self : nat) : M (list value) :=
  vs <- self_df_column self "scenario" ;; ret (unique vs).

(** [x] comes before [y] in [sort_values(ascending=False)] *)
Definition count_geb (x y : value * nat) : bool := (snd y <=? snd x)%nat.

(** [df.groupby(key)[counted].count().sort_values(ascending=False).to_dict()]:
    the dict as the list of its items.  pandas does not fix the order of
    equal counts; they are left here in group order. *)
Definition appearences_count (key counted : string) (f : DataFrame)
  : result (list (value * nat)) :=
  match get_col key f with
  | None => Raise (KeyError key)
  | Some keys =>
      match get_col counted f with
      | None => Raise (KeyError counted)
      | Some cells =>
          let ks := map (fun v => [v]) keys in
          Ok (sorted count_geb
                (map (fun k => (nth 0 k VNaN, series_count (group_cells ks cells k)))
                     (group_keys ks)))
      end
  end.

Definition get_model_appearences_count (self : nat) : M (list (value * nat)) :=
  l <- self_df self ;;
  f <- read_frame l ;;
  lift (appearences_count "model" "scenario" f).

Definition get_scenario_appearences_count (self : nat) : M (list (value * nat)) :=
  l <- self_df self ;;
  f <- read_frame l ;;
  lift (appearences_count "scenario" "model" f).

End Bench.

(** * Properties *)

Import Frame Bench.
Local Open Scope py_scope.

(** ** Specification-level definitions and example inputs *)


(** A parser for the examples: unsigned decimal integers. *)
Fixpoint digits (s : string) (acc : Z) : option Z :=
  match s with
  | EmptyString => Some acc
  | String c s' =>
      let n := nat_of_ascii c in
      if ((48 <=? n)%nat && (n <=? 57)%nat)
      then digits s' (10 * acc + Z.of_nat (n - 48))%Z
      else None
  end.

Definition float_of_digits (s : string) : option Q :=
  match s with
  | EmptyString => None
  | _ => inject_Z <$> digits s 0%Z
  end.

Definition no_assets : assets :=
  {| prettified_names := ∅; lower_is_better_lines := [] |}.

Definition world_of (fs : list DataFrame) : world :=
  {| frames := fs; objects := []; stdout := [] |}.

(** The frame behind [self.df], when there is one *)
Definition table_of (w : world) (self : nat) : option DataFrame :=
  b ← objects w !! self; l ← df b; frames w !! l.

Definition three_models : DataFrame :=
  [("model", [VStr "m1"; VStr "m2"; VStr "m3"]);
   ("taskA", [VNum 1; VNum 2; VNum 3]);
   ("taskB", [VNum 5; VNum 5; VNum 7])].

(** Induction on cells that goes through the elements of a list cell *)
Fixpoint value_ind_nested (P : value -> Prop)
    (Hstr : forall s, P (VStr s)) (Hnum : forall q, P (VNum q)) (Hnan : P VNaN)
    (Hlist : forall l, Forall P l -> P (VList l)) (v : value) : P v :=
  match v with
  | VStr s => Hstr s
  | VNum q => Hnum q
  | VNaN => Hnan
  | VList l =>
      Hlist l ((fix go (l : list value) : Forall P l :=
                  match l with
                  | [] => List.Forall_nil P
                  | x :: l' =>
                      List.Forall_cons P x l' (value_ind_nested P Hstr Hnum Hnan Hlist x) (go l')
                  end) l)
  end.








(** The (model, scenario, source) key of the duplicate check *)
Definition triple : list string := ["model"; "scenario"; "source"].

(** The cells of column [c] on the rows of scenario [s] *)
Definition cells_of_scenario (c : string) (s : string) (f : DataFrame) : list value :=
  group_cells (keys_of ["scenario"] f) (default [] (get_col c f)) [VStr s].

(** [b = Benchmark(); b.extend(Benchmark(t1, "s")); b.extend(Benchmark(t2, "s"))]
    on an empty frame and two tables read from the same file *)
Definition ingest_twice : M nat :=
  b <- new_Benchmark no_assets float_of_digits 0 None false ;;
  o1 <- new_Benchmark no_assets float_of_digits 1 (Some "s") false ;;
  extend b o1 ;;
  o2 <- new_Benchmark no_assets float_of_digits 2 (Some "s") false ;;
  extend b o2.

(** [b = Benchmark(t, "src"); b.add_aggregate("agg", scenario_whitelist=["taska"])] *)
Definition aggregate_whitelist : M unit :=
  b <- new_Benchmark no_assets float_of_digits 0 (Some "src") false ;;
  add_aggregate b "agg" [] [VStr "taska"] "mwr" None 0.









(** What the caller's long-form table holds once [assign_df] has formatted
    it in place: the sentinel replaced, the three columns rewritten, the two
    columns added. *)
Definition formatted_in_place (source : string) (scores models scenarios : list value)
    (f : DataFrame) : DataFrame :=
  set_col_scalar "source" (VStr source)
    (set_col_scalar "aggragated_from" (VList [])
       (set_col "scenario" scenarios
          (set_col "model" models
             (set_col "score" scores
                (replace_cells (VStr "-") VNaN f))))).

Definition without_index_column (f : DataFrame) : DataFrame :=
  if has_col "Unnamed: 0" f then drop_col "Unnamed: 0" f else f.

(** The store after the first step of the validation: the index artifact,
    when there is one, is dropped in place. *)
Definition drop_index_column (l : nat) (f : DataFrame) (w : world) : world :=
  {| frames := <[l := without_index_column f]> (frames w);
     objects := objects w; stdout := stdout w |}.

(** The store after the duplicates have been collapsed into the frame [g] *)
Definition collapse_duplicates (self : nat) (b : Benchmark) (g : DataFrame) (w : world)
  : world :=
  {| frames := frames w ++ [g];
     objects := <[self := {| is_empty := is_empty b; df := Some (length (frames w)) |}]>
                  (objects w);
     stdout := stdout w ++ [duplicates_warning] |}.

(** No two keys of the list are equal. *)
Fixpoint pairwise_distinct (ks : list (list value)) : bool :=
  match ks with
  | [] => true
  | k :: ks' => forallb (fun k' => negb (key_eqb k' k)) ks' && pairwise_distinct ks'
  end.






(** Two sources for scenario [a]; three models took it in [s1], two in [s2]. *)
Definition two_sources : DataFrame :=
  [("model", [VStr "m1"; VStr "m2"; VStr "m3"; VStr "m1"; VStr "m2"; VStr "m1"]);
   ("scenario", [VStr "a"; VStr "a"; VStr "a"; VStr "a"; VStr "a"; VStr "b"]);
   ("score", [VNum 1; VNum 2; VNum 3; VNum 4; VNum 5; VNum 6]);
   ("source", [VStr "s1"; VStr "s1"; VStr "s1"; VStr "s2"; VStr "s2"; VStr "s2"])].

(** What [assign_df] does once the table is formatted and bound to [self.df] *)
Definition after_formatting (a : assets) (self : nat) (data_source : option string)
  : M unit :=
  validate_dataframe_post_formatting self ;;
  l <- self_df self ;;
  update_frame l dropna ;;
  when (lower_os_better_for_source a data_source)
    (normalize_scores_per_scenario self true) ;;
  set_is_empty self false.

(** The formatting steps of [assign_df] on the table [base]: the sentinel
    replaced, the score column converted, the names standardised unless they
    are declared normalized, the two columns added. *)
Definition formatted (data_source : option string) (normalized_names : bool)
    (scores models scenarios : list value) (base : DataFrame) : DataFrame :=
  let converted := set_col "score" scores (replace_cells (VStr "-") VNaN base) in
  let named := if normalized_names then converted
               else set_col "scenario" scenarios (set_col "model" models converted) in
  let listed := set_col_scalar "aggragated_from" (VList []) named in
  if truthy data_source
  then set_col_scalar "source" (VStr (default "" data_source)) listed
  else listed.

(** The columns of [f], [tag] apart, are the five required ones. *)
Definition column_set_ok (f : DataFrame) : Prop :=
  forall c, c <> "tag" -> (In c (columns f) <-> In c required_columns).

(** A program that leaves the frames and the objects alone *)
Definition keeps_store {A} (m : M A) : Prop :=
  forall w r w', m w = (r, w') -> frames w' = frames w /\ objects w' = objects w.

(** The methods that change the table once it is there *)
Inductive operation :=
| OpNormalize (lower_is_better : bool)
| OpAddAggregate (new_col_name : string) (scenario_blacklist scenario_whitelist : list value)
    (mean_or_mwr : string) (agg_source_name : option string) (min_scenarios : Z)
| OpClearRepeated (source_to_keep : option string)
| OpExtend (other : nat).

Definition run_operation (self : nat) (op : operation) : M unit :=
  match op with
  | OpNormalize lower_is_better => normalize_scores_per_scenario self lower_is_better
  | OpAddAggregate new_col_name scenario_blacklist scenario_whitelist mean_or_mwr
      agg_source_name min_scenarios =>
      add_aggregate self new_col_name scenario_blacklist scenario_whitelist mean_or_mwr
        agg_source_name min_scenarios
  | OpClearRepeated source_to_keep => clear_repeated_scenarios self source_to_keep
  | OpExtend other => bind (extend self other) (fun _ => ret tt)
  end.

(** A long-form table with a [tag] column *)
Definition tagged : DataFrame :=
  [("model", [VStr "m1"; VStr "m2"]);
   ("scenario", [VStr "a"; VStr "a"]);
   ("score", [VNum 1; VNum 2]);
   ("tag", [VStr "x"; VStr "y"])].

Definition holding_tagged : world :=
  {| frames := [tagged]; objects := [{| is_empty := true; df := None |}]; stdout := [] |}.

(** A long-form table with a sentinel score *)
Definition long_form : DataFrame :=
  [("model", [VStr "m1"; VStr "m2"]);
   ("scenario", [VStr "a"; VStr "a"]);
   ("score", [VStr "-"; VStr "7"])].

Definition holding_long_form : world :=
  {| frames := [long_form]; objects := [{| is_empty := true; df := None |}]; stdout := [] |}.

(** The frames below [nf] and the objects below [no] are the same in [w] and
    [w'], and nothing was taken from the store. *)
Definition preserved (nf no : nat) (w w' : world) : Prop :=
  (forall l, l < nf -> frames w' !! l = frames w !! l)
  /\ (forall o, o < no -> objects w' !! o = objects w !! o)
  /\ length (frames w) <= length (frames w')
  /\ length (objects w) <= length (objects w').

(** The store is past the marks, and [self.df], when bound, is past the
    frame mark. *)
Definition past_marks (nf no self : nat) (w : world) : Prop :=
  nf <= length (frames w) /\ no <= length (objects w)
  /\ forall b l, objects w !! self = Some b -> df b = Some l -> nf <= l.

(** [m] keeps the store past the marks and leaves what is below them alone. *)
Definition confined (nf no self : nat) {A} (m : M A) : Prop :=
  forall w r w', past_marks nf no self w -> m w = (r, w') ->
                 past_marks nf no self w' /\ preserved nf no w w'.

(** A table as ingestion leaves it, and a [Benchmark] that holds it *)
Definition one_score : DataFrame :=
  [("model", [VStr "m1"]);
   ("scenario", [VStr "a"]);
   ("score", [VNum 1]);
   ("aggragated_from", [VList []]);
   ("source", [VStr "s0"])].

(** A long-form table with a column that the schema does not know *)
Definition unknown_column : DataFrame :=
  [("model", [VStr "m2"]);
   ("scenario", [VStr "a"]);
   ("score", [VNum 2]);
   ("extra", [VStr "x"])].

(** A wide table with a score that is no number *)
Definition not_a_number : DataFrame :=
  [("model", [VStr "m2"]);
   ("taskA", [VStr "high"])].

Definition holding_one_score : world :=
  {| frames := [one_score; unknown_column];
     objects := [{| is_empty := false; df := Some 0 |}];
     stdout := [] |}.

(** Every character of [s] satisfies [p]. *)
Fixpoint all_chars (p : ascii -> bool) (s : string) : bool :=
  match s with
  | EmptyString => true
  | String c s' => p c && all_chars p s'
  end.

(** An upper-case ASCII letter *)
Definition is_upper (c : ascii) : bool :=
  let n := nat_of_ascii c in (65 <=? n)%nat && (n <=? 90)%nat.

(** [c] is not the character [d] *)
Definition is_not (d : ascii) (c : ascii) : bool := negb (Ascii.eqb c d).

(** The characters that [standardize_model_name] leaves in a name: no
    upper-case ASCII letter, space, parenthesis, slash or dot *)
Definition model_name_char (c : ascii) : bool :=
  negb (is_upper c) && is_not " " c && is_not "(" c && is_not ")" c
  && is_not "/" c && is_not "." c.

(** The characters of the key that [standardize_scenario_name] looks up: no
    upper-case ASCII letter, space, parenthesis or hyphen *)
Definition scenario_key_char (c : ascii) : bool :=
  negb (is_upper c) && is_not " " c && is_not "(" c && is_not ")" c && is_not "-" c.

(** [standardize_model_name] without its last rule, [.replace("wml/", "")] *)
Definition model_rules_before_wml (name : string) : string :=
  PyStr.replace "v03" "v0_3"
  (PyStr.replace "v02" "v0_2"
  (PyStr.replace "v01" "v0_1"
  (PyStr.replace "." "_"
  (PyStr.replace "meta_" ""
  (PyStr.split_last "/"
  (PyStr.replace "ul2" "flan-ul2"
  (PyStr.replace "llama_3" "llama3"
  (PyStr.replace "-" "_"
  (PyStr.replace "-hf" ""
  (PyStr.replace "dbrx-inst" "dbrx-instruct"
  (PyStr.replace "command-r+" "command-r-plus"
  (PyStr.replace beta "beta"
  (PyStr.replace ")" ""
  (PyStr.replace "(" ""
  (PyStr.replace " " "-"
  (PyStr.replace "  " "-"
  (PyStr.replace "   " "-"
  (PyStr.lower
  (PyStr.strip name))))))))))))))))))).

(** A lower-is-better file with two lines, the second without a line feed *)
Definition two_lower_is_better : assets :=
  {| prettified_names := ∅;
     lower_is_better_lines := ["perplexity" +:+ newline; "error_rate"] |}.

(** The store once [Benchmark(...)] has allocated its object and stopped *)
Definition with_empty_object (w : world) : world :=
  {| frames := frames w;
     objects := objects w ++ [{| is_empty := true; df := None |}];
     stdout := stdout w |}.

(** A table without rows, with columns that no check would accept *)
Definition no_rows : DataFrame := [("Unnamed: 0", []); ("anything", [])].

(** A long-form table whose scores hold the sentinel *)
Definition sentinel_scores : DataFrame :=
  [("model", [VStr "m1"; VStr "m2"]);
   ("scenario", [VStr "a"; VStr "a"]);
   ("score", [VStr "-"; VNum 7])].

(** The required columns, the scenario first *)
Definition scenario_first : DataFrame :=
  [("scenario", [VStr "a"]);
   ("model", [VStr "m1"]);
   ("score", [VNum 1])].

(** A program that leaves the whole store as it is, printed lines included *)
Definition read_only {A} (m : M A) : Prop :=
  forall w r w', m w = (r, w') -> w' = w.

(** The aggregate records of [add_aggregate] *)
Definition aggregate_records (new_col_name : string) (scenario_blacklist : list value)
    (all_scenarios models scores : list value) (source : value) : DataFrame :=
  [("model", models);
   ("score", scores);
   ("scenario", replicate (length models) (VStr new_col_name));
   ("aggragated_from",
     replicate (length models)
       (VList (List.filter (fun scenario => negb (value_in scenario scenario_blacklist))
                           (unique all_scenarios))));
   ("source", replicate (length models) source)].




(** No two cells of the list are equal. *)
Fixpoint distinct_values (vs : list value) : bool :=
  match vs with
  | [] => true
  | v :: vs' => negb (value_in v vs') && distinct_values vs'
  end.

(** The counts never go up. *)
Fixpoint descending (counts : list (value * nat)) : bool :=
  match counts with
  | [] => true
  | x :: counts' => forallb (fun y => (snd y <=? snd x)%nat) counts' && descending counts'
  end.

(** The records of key [k] whose counted cell is present *)
Definition appearances (keys cells : list value) (k : value) : nat :=
  length (List.filter (fun r => value_eqb k (fst r) && negb (is_nan (snd r)))
                      (zip keys cells)).

(** The records whose key and counted cell are both present *)
Definition present_records (keys cells : list value) : nat :=
  length (List.filter (fun r => negb (is_nan (fst r)) && negb (is_nan (snd r)))
                      (zip keys cells)).

Definition total_count (counts : list (value * nat)) : nat :=
  foldr (fun x acc => snd x + acc) 0 counts.

(** An empty [Benchmark] *)
Definition holding_nothing : world :=
  {| frames := []; objects := [{| is_empty := true; df := None |}]; stdout := [] |}.

(** A [Benchmark] that holds [two_sources] *)
Definition holding_two_sources : world :=
  {| frames := [two_sources]; objects := [{| is_empty := false; df := Some 0 |}];
     stdout := [] |}.

(** The table with the two helper columns of [clear_repeated_scenarios] *)
Definition with_helper_columns (scen_sources counts : list value) (f : DataFrame)
  : DataFrame :=
  set_col "scenario__source_counts" counts (set_col "scenario__source" scen_sources f).

(** A column of the table proper, not a helper column *)
Definition not_helper (c : string) : Prop :=
  c <> "scenario__source" /\ c <> "scenario__source_counts".

(** [df.replace("-", np.nan)] on one cell *)
Definition clean (v : value) : value :=
  if value_eqb v (VStr "-") then VNaN else v.

(** [series.apply(f)] on one string cell *)
Definition rename (f : string -> string) (v : value) : value :=
  match v with
  | VStr s => VStr (f s)
  | _ => v
  end.

(** A wide table: the models, then one column of scores per scenario *)
Definition wide_table (names : list string) (vars : list (string * list value))
  : DataFrame :=
  ("model", map VStr names) :: vars.

(** What [pd.melt] makes of a wide table *)
Definition melted (names : list string) (vars : list (string * list value)) : DataFrame :=
  [("model", concat (map (fun _ => map VStr names) vars));
   ("scenario", concat (map (fun col => replicate (length names) (VStr (fst col))) vars));
   ("score", concat (map snd vars))].

(** The table that the ingestion of a wide table builds before it drops the
    records with a missing cell; [scores] is the converted score column. *)
Definition ingested_wide (a : assets) (source : string) (normalized_names : bool)
    (names : list string) (vars : list (string * list value)) (scores : list value)
  : DataFrame :=
  let models := map clean (concat (map (fun _ => map VStr names) vars)) in
  let scenarios :=
    map clean (concat (map (fun col => replicate (length names) (VStr (fst col))) vars)) in
  let models := if normalized_names then models
                else map (rename standardize_model_name) models in
  let scenarios := if normalized_names then scenarios
                   else map (rename (standardize_scenario_name a)) scenarios in
  [("model", models);
   ("scenario", scenarios);
   ("score", scores);
   ("aggragated_from", replicate (length models) (VList []));
   ("source", replicate (length models) (VStr source))].

(** The name of a scenario column of a wide table *)
Definition scenario_column (col : string * list value) : bool :=
  negb (String.eqb (fst col) "model") && negb (String.eqb (fst col) "scenario")
  && negb (String.eqb (fst col) "score").

(** A [Benchmark] that holds the formatted table [one_score] *)
Definition holding_formatted : world :=
  {| frames := [one_score]; objects := [{| is_empty := false; df := Some 0 |}];
     stdout := [] |}.

(** The script at the end of the module:
    [b = Benchmark(); b.load_local_catalog()] *)
Definition main (a : assets) (parse : string -> option Q)
    (catalog : list (string * DataFrame)) : M nat :=
  l <- new_frame [] ;;
  b <- new_Benchmark a parse l None false ;;
  load_local_catalog a parse b catalog ;;
  ret b.

(** No scenario comes from two sources: two records of one scenario have one
    source *)
Definition single_source (scenarios sources : list value) : bool :=
  let records := zip scenarios sources in
  forallb (fun p =>
             forallb (fun q => implb (value_eqb (fst p) (fst q))
                                     (value_eqb (snd p) (snd q)))
                     records)
          records.

(** Every column has as many cells as the table has rows *)
Definition rectangular (f : DataFrame) : bool :=
  forallb (fun col => Nat.eqb (length (snd col)) (nrows f)) f.

(** The table without the helper columns of [clear_repeated_scenarios] *)
Definition without_helper_columns (f : DataFrame) : DataFrame :=
  drop_col "scenario__source_counts" (drop_col "scenario__source" f).

(** Two scenarios, each from one source *)
Definition one_source_each : DataFrame :=
  [("model", [VStr "m1"; VStr "m2"; VStr "m1"]);
   ("scenario", [VStr "a"; VStr "a"; VStr "b"]);
   ("score", [VNum 1; VNum 2; VNum 3]);
   ("source", [VStr "s1"; VStr "s1"; VStr "s2"])].

Definition holding_one_source_each : world :=
  {| frames := [one_source_each]; objects := [{| is_empty := false; df := Some 0 |}];
     stdout := [] |}.

(** ** Cells, keys and groups *)

Lemma value_eqb_VList (l1 l2 : list value) :
  value_eqb (VList l1) (VList l2) = key_eqb l1 l2.
Proof.
  destruct l1, l2; reflexivity.
Qed.

Lemma value_eqb_refl (v : value) : value_eqb v v = true.
Proof.
  induction v as [s|q| |l IH] using value_ind_nested.
  - apply String.eqb_refl.
  - apply Qeq_bool_refl.
  - reflexivity.
  - rewrite value_eqb_VList. induction IH as [|x l Hx _ IHl]; simpl; [reflexivity|].
    now rewrite Hx, IHl.
Qed.

Lemma value_eqb_sym (v w : value) : value_eqb v w = value_eqb w v.
Proof.
  revert w. induction v as [s|q| |l IH] using value_ind_nested; intros [t|p| |l2]; try reflexivity.
  - apply String.eqb_sym.
  - apply Qeq_bool_comm.
  - rewrite !value_eqb_VList. revert l2.
    induction IH as [|x l Hx _ IHl]; intros [|y l2]; simpl; try reflexivity.
    now rewrite Hx, IHl.
Qed.

Lemma value_eqb_trans (u v w : value) :
  value_eqb u v = true -> value_eqb v w = true -> value_eqb u w = true.
Proof.
  revert v w. induction u as [s|q| |l IH] using value_ind_nested;
    intros [t|p| |l2] [t'|p'| |l3]; try discriminate; try reflexivity.
  - simpl. intros H1 H2. apply String.eqb_eq in H1, H2. subst. apply String.eqb_refl.
  - simpl. apply Qeq_bool_trans.
  - rewrite !value_eqb_VList. revert l2 l3.
    induction IH as [|x l Hx _ IHl]; intros [|y l2] [|z l3]; simpl; try discriminate; try reflexivity.
    intros H1 H2. apply andb_true_iff in H1 as [H1 H1'], H2 as [H2 H2'].
    rewrite (Hx _ _ H1 H2). simpl. eapply IHl; eauto.
Qed.

Lemma key_eqb_refl (k : list value) : key_eqb k k = true.
Proof. induction k; simpl; [reflexivity|]. now rewrite value_eqb_refl. Qed.

Lemma key_eqb_sym (k1 k2 : list value) : key_eqb k1 k2 = key_eqb k2 k1.
Proof.
  revert k2. induction k1 as [|x k1 IH]; intros [|y k2]; simpl; try reflexivity.
  now rewrite value_eqb_sym, IH.
Qed.

Lemma key_eqb_trans (k1 k2 k3 : list value) :
  key_eqb k1 k2 = true -> key_eqb k2 k3 = true -> key_eqb k1 k3 = true.
Proof.
  revert k2 k3. induction k1 as [|x k1 IH]; intros [|y k2] [|z k3]; simpl; try discriminate; try reflexivity.
  intros H1 H2. apply andb_true_iff in H1 as [H1 H1'], H2 as [H2 H2'].
  rewrite (value_eqb_trans _ _ _ H1 H2). simpl. eapply IH; eauto.
Qed.


(** *** Sorting and the group keys *)

Lemma In_insert_sorted {A} (leb : A -> A -> bool) (x y : A) (l : list A) :
  In y (insert_sorted leb x l) <-> y = x \/ In y l.
Proof.
  induction l as [|z l IH]; simpl; [intuition congruence|].
  destruct (leb x z); simpl; [intuition congruence|].
  rewrite IH. intuition congruence.
Qed.

Lemma In_sorted {A} (leb : A -> A -> bool) (y : A) (l : list A) :
  In y (sorted leb l) <-> In y l.
Proof.
  induction l as [|x l IH]; simpl; [tauto|].
  change (foldr (insert_sorted leb) [] l) with (sorted leb l).
  rewrite In_insert_sorted, IH. intuition congruence.
Qed.

Lemma unique_keys_In (k : list value) (ks : list (list value)) :
  In k (unique_keys ks) -> In k ks.
Proof.
  induction ks as [|k0 ks IH]; simpl; [tauto|].
  intros [->|H]; [now left|]. apply filter_In in H as [H _]. right. auto.
Qed.

Lemma unique_keys_rep (k : list value) (ks : list (list value)) :
  In k ks -> exists k', In k' (unique_keys ks) /\ key_eqb k' k = true.
Proof.
  induction ks as [|k0 ks IH]; simpl; [tauto|].
  intros [->|H].
  - exists k. split; [now left|apply key_eqb_refl].
  - destruct (IH H) as (k' & Hin & Heq).
    destruct (key_eqb k' k0) eqn:E.
    + exists k0. split; [now left|].
      rewrite key_eqb_sym in E. eapply key_eqb_trans; eauto.
    + exists k'. split; [|exact Heq]. right. apply filter_In. split; [exact Hin|].
      now rewrite E.
Qed.

Lemma no_nan_congr (k1 k2 : list value) :
  key_eqb k1 k2 = true -> no_nan k1 = no_nan k2.
Proof.
  revert k2. induction k1 as [|x k1 IH]; intros [|y k2]; simpl; try discriminate; [reflexivity|].
  intros H. apply andb_true_iff in H as [H1 H2]. rewrite (IH _ H2). f_equal.
  destruct x, y; simpl in *; try discriminate; reflexivity.
Qed.

(** Every row with a key that has no missing cell has its group. *)
Lemma group_keys_rep (k : list value) (ks : list (list value)) :
  In k ks -> no_nan k = true ->
  exists k', In k' (group_keys ks) /\ key_eqb k' k = true.
Proof.
  intros Hin Hn. unfold group_keys.
  destruct (unique_keys_rep k (List.filter no_nan ks)) as (k' & H1 & H2).
  { apply filter_In. auto. }
  exists k'. split; [|exact H2]. apply In_sorted. exact H1.
Qed.

Lemma group_keys_In (k : list value) (ks : list (list value)) :
  In k (group_keys ks) -> In k ks /\ no_nan k = true.
Proof.
  unfold group_keys. intros H. apply In_sorted, unique_keys_In, filter_In in H. exact H.
Qed.


(** *** [rmapM] *)

Lemma rmapM_Ok {A B} (f : A -> result B) (l : list A) (ys : list B) :
  rmapM f l = Ok ys -> Forall2 (fun x y => f x = Ok y) l ys.
Proof.
  revert ys. induction l as [|x l IH]; simpl; intros ys H.
  - injection H as <-. constructor.
  - destruct (f x) as [y|e] eqn:E; simpl in H; [|discriminate].
    destruct (rmapM f l) as [ys'|e]; simpl in H; [|discriminate].
    injection H as <-. constructor; auto.
Qed.



Lemma rmapM_Raise_inv {A B} (f : A -> result B) (l : list A) (e : exn) :
  rmapM f l = Raise e -> exists x, In x l /\ f x = Raise e.
Proof.
  induction l as [|z l IH]; simpl; [discriminate|].
  destruct (f z) eqn:E; simpl.
  - destruct (rmapM f l); simpl; [discriminate|].
    intros [= <-]. destruct IH as (x & ? & ?); eauto.
  - intros [= <-]. eauto.
Qed.

(** *** [groupby_transform] works group by group *)




Lemma filter_mask_length {A} (mask : list bool) (l : list A) :
  length mask = length l ->
  length (filter_mask mask l) = length (List.filter id mask).
Proof.
  revert l. induction mask as [|b mask IH]; intros [|x l]; simpl; try discriminate; [reflexivity|].
  intros [= H]. destruct b; simpl; rewrite IH; auto.
Qed.




(** ** Aggregation without a scenario filter *)

(** C1. [add_aggregate] called with neither a blacklist nor a whitelist does
    not reach the aggregation: the branch "all scenarios are just used here"
    is [pass], so [df_for_agg] is read unbound, whatever the table holds, and
    the call ends in [UnboundLocalError] with the store as it was. *)
Theorem add_aggregate_without_filter_is_unbound :
  forall (w : world) (self : nat) (new_col_name mean_or_mwr : string)
         (agg_source_name : option string) (min_scenarios : Z),
    add_aggregate self new_col_name [] [] mean_or_mwr agg_source_name min_scenarios w
    = (Raise (UnboundLocalError "df_for_agg"), w).
Proof. intros. unfold add_aggregate. reflexivity. Qed.

(** The same call on a table of three models and two scenarios. *)
Example add_aggregate_without_filter_run :
  exists w,
    (b <- new_Benchmark no_assets float_of_digits 0 (Some "src") false ;;
     add_aggregate b "agg" [] [] "mwr" None 0) (world_of [three_models])
    = (Raise (UnboundLocalError "df_for_agg"), w)
    /\ (nrows <$> table_of w 0) = Some 6.
Proof. eexists. vm_compute. split; reflexivity. Qed.

(** ** Win rates *)








(** ** Score normalisation *)














(** *** Columns of a frame *)

Lemma get_col_set_col_eq (c : string) (vs : list value) (f : DataFrame) :
  get_col c (set_col c vs f) = Some vs.
Proof.
  induction f as [|[n ws] f IH]; simpl.
  - now rewrite String.eqb_refl.
  - destruct (String.eqb n c) eqn:E; simpl; rewrite E; [reflexivity|exact IH].
Qed.

Lemma get_col_set_col_ne (c c' : string) (vs : list value) (f : DataFrame) :
  c <> c' -> get_col c' (set_col c vs f) = get_col c' f.
Proof.
  intros Hne. induction f as [|[n ws] f IH]; simpl.
  - destruct (String.eqb c c') eqn:E; [apply String.eqb_eq in E; contradiction|reflexivity].
  - destruct (String.eqb n c) eqn:E; simpl.
    + apply String.eqb_eq in E. subst n.
      destruct (String.eqb c c') eqn:E'; [apply String.eqb_eq in E'; contradiction|reflexivity].
    + destruct (String.eqb n c'); [reflexivity|exact IH].
Qed.

Lemma get_col_select_rows (c : string) (mask : list bool) (f : DataFrame) :
  get_col c (select_rows mask f) = filter_mask mask <$> get_col c f.
Proof.
  induction f as [|[n ws] f IH]; simpl; [reflexivity|].
  destruct (String.eqb n c); [reflexivity|exact IH].
Qed.

Lemma filter_mask_all_true {A} (mask : list bool) (l : list A) :
  forallb id mask = true -> length mask = length l -> filter_mask mask l = l.
Proof.
  revert l. induction mask as [|b mask IH]; intros [|x l]; simpl; try discriminate; [reflexivity|].
  intros H [= Hl]. apply andb_true_iff in H as [-> H]. simpl. f_equal. auto.
Qed.

Lemma filter_mask_map {A B} (g : A -> B) (mask : list bool) (l : list A) :
  filter_mask mask (map g l) = map g (filter_mask mask l).
Proof.
  revert l. induction mask as [|b mask IH]; intros [|x l]; simpl; try reflexivity.
  destruct b; simpl; now rewrite IH.
Qed.












(** ** Runs of the class on small tables *)

(** C4 (failing input). The table [three_models] ingested twice under the
    source name "s": [extend] concatenates, so the table holds every
    (model, scenario, source) triple twice, 12 records for 6 distinct triples. *)
Example ingest_twice_doubles_the_records :
  exists w,
    ingest_twice (world_of [[]; three_models; three_models]) = (Ok 0, w)
    /\ ((fun f => (nrows f, length (unique_keys (keys_of triple f)),
                  forallb id (duplicated triple f)))
        <$> table_of w 0) = Some (12, 6, true).
Proof. eexists. vm_compute. split; reflexivity. Qed.

(** C8 (failing input). With the whitelist ["taska"] the aggregate is computed
    from [taska] alone, and its records list [taska] and [taskb] in
    [aggragated_from]: the comprehension filters the scenarios of the whole
    table by the blacklist only. *)
Example aggregated_from_ignores_the_whitelist :
  exists w,
    aggregate_whitelist (world_of [three_models]) = (Ok tt, w)
    /\ (cells_of_scenario "aggragated_from" "agg" <$> table_of w 0)
       = Some [VList [VStr "taska"; VStr "taskb"];
               VList [VStr "taska"; VStr "taskb"];
               VList [VStr "taska"; VStr "taskb"]]
    /\ (cells_of_scenario "score" "agg" <$> table_of w 0)
       = Some [VNum 0; VNum (1 # 2); VNum 1].
Proof. eexists. vm_compute. repeat split; reflexivity. Qed.


(** ** Name standardisation *)

Lemma replace_from_absent (old new s : string) :
  PyStr.contains old s = false -> PyStr.replace_from old new 0 s = s.
Proof.
  induction s as [|c s IH]; simpl; [reflexivity|].
  intros H. apply orb_false_iff in H as [H1 H2].
  simpl in H1. rewrite H1. f_equal. auto.
Qed.

Lemma contains_empty (s : string) : PyStr.contains "" s = true.
Proof. destruct s; reflexivity. Qed.

Lemma replace_absent (old new s : string) :
  PyStr.contains old s = false -> PyStr.replace old new s = s.
Proof.
  intros H. destruct old as [|a old].
  - now rewrite contains_empty in H.
  - now apply replace_from_absent.
Qed.





(** *** The two [winog] rules undo each other *)



Lemma replace_from_skip (old new t z : string) :
  PyStr.replace_from old new (String.length t) (t +:+ z) = PyStr.replace_from old new 0 z.
Proof. induction t as [|c t IH]; simpl; [reflexivity|exact IH]. Qed.













(** ** Runs of the methods *)

(** *** Running a program step by step *)

Lemma bind_Ok_inv {A B} (m : M A) (k : A -> M B) (w w' : world) (b : B) :
  bind m k w = (Ok b, w') ->
  exists a w1, m w = (Ok a, w1) /\ k a w1 = (Ok b, w').
Proof.
  unfold bind. destruct (m w) as [[a|e] w1]; [eauto|discriminate].
Qed.

Lemma bind_inv {A B} (m : M A) (k : A -> M B) (w w' : world) (r : result B) :
  bind m k w = (r, w') ->
  (exists a w1, m w = (Ok a, w1) /\ k a w1 = (r, w'))
  \/ (exists e, m w = (Raise e, w') /\ r = Raise e).
Proof.
  unfold bind. destruct (m w) as [[a|e] w1]; [eauto|].
  intros [= <- <-]. eauto.
Qed.

Lemma read_frame_Ok (l : nat) (w w' : world) (f : DataFrame) :
  read_frame l w = (Ok f, w') -> w' = w /\ frames w !! l = Some f.
Proof.
  unfold read_frame. destruct (frames w !! l); intros [= <- <-] || discriminate. auto.
Qed.

Lemma read_object_Ok (o : nat) (w w' : world) (b : Benchmark) :
  read_object o w = (Ok b, w') -> w' = w /\ objects w !! o = Some b.
Proof.
  unfold read_object. destruct (objects w !! o); intros [= <- <-] || discriminate. auto.
Qed.

Lemma self_df_Ok (self : nat) (w w' : world) (l : nat) :
  self_df self w = (Ok l, w') ->
  w' = w /\ exists b, objects w !! self = Some b /\ df b = Some l.
Proof.
  unfold self_df. intros H. apply bind_Ok_inv in H as (b & w1 & H1 & H2).
  apply read_object_Ok in H1 as [-> Hb].
  destruct (df b) eqn:E; [|discriminate]. injection H2 as <- <-. eauto.
Qed.

Lemma update_frame_Ok (l : nat) (g : DataFrame -> DataFrame) (w w' : world) (u : unit) :
  update_frame l g w = (Ok u, w') ->
  exists f, frames w !! l = Some f
            /\ w' = {| frames := <[l := g f]> (frames w); objects := objects w;
                       stdout := stdout w |}.
Proof.
  unfold update_frame. intros H. apply bind_Ok_inv in H as (f & w1 & H1 & H2).
  apply read_frame_Ok in H1 as [-> Hf]. injection H2 as <-. eauto.
Qed.

Lemma set_df_Ok (self : nat) (l : option nat) (w w' : world) (u : unit) :
  set_df self l w = (Ok u, w') ->
  exists b, objects w !! self = Some b
            /\ w' = {| frames := frames w;
                       objects := <[self := {| is_empty := is_empty b; df := l |}]> (objects w);
                       stdout := stdout w |}.
Proof.
  unfold set_df. intros H. apply bind_Ok_inv in H as (b & w1 & H1 & H2).
  apply read_object_Ok in H1 as [-> Hb]. injection H2 as <-. eauto.
Qed.

Lemma set_is_empty_Ok (self : nat) (e : bool) (w w' : world) (u : unit) :
  set_is_empty self e w = (Ok u, w') ->
  exists b, objects w !! self = Some b
            /\ w' = {| frames := frames w;
                       objects := <[self := {| is_empty := e; df := df b |}]> (objects w);
                       stdout := stdout w |}.
Proof.
  unfold set_is_empty. intros H. apply bind_Ok_inv in H as (b & w1 & H1 & H2).
  apply read_object_Ok in H1 as [-> Hb]. injection H2 as <-. eauto.
Qed.

Lemma lift_Ok {A} (r : result A) (w w' : world) (a : A) :
  lift r w = (Ok a, w') -> r = Ok a /\ w' = w.
Proof. unfold lift. intros [= -> <-]. auto. Qed.

Lemma ret_Ok {A} (x a : A) (w w' : world) :
  ret x w = (Ok a, w') -> a = x /\ w' = w.
Proof. unfold ret. intros [= <- <-]. auto. Qed.

Lemma bind_Ok {A B} (m : M A) (k : A -> M B) (w w1 : world) (a : A) :
  m w = (Ok a, w1) -> bind m k w = k a w1.
Proof. unfold bind. now intros ->. Qed.

Lemma bind_Raise {A B} (m : M A) (k : A -> M B) (w w1 : world) (e : exn) :
  m w = (Raise e, w1) -> bind m k w = (Raise e, w1).
Proof. unfold bind. now intros ->. Qed.

Lemma read_frame_run (l : nat) (w : world) (f : DataFrame) :
  frames w !! l = Some f -> read_frame l w = (Ok f, w).
Proof. unfold read_frame. now intros ->. Qed.

Lemma read_object_run (o : nat) (w : world) (b : Benchmark) :
  objects w !! o = Some b -> read_object o w = (Ok b, w).
Proof. unfold read_object. now intros ->. Qed.

Lemma self_df_run (self : nat) (w : world) (b : Benchmark) (l : nat) :
  objects w !! self = Some b -> df b = Some l -> self_df self w = (Ok l, w).
Proof.
  intros Hb Hl. unfold self_df. rewrite (bind_Ok _ _ _ _ _ (read_object_run _ _ _ Hb)).
  now rewrite Hl.
Qed.

Lemma update_frame_run (l : nat) (g : DataFrame -> DataFrame) (w : world) (f : DataFrame) :
  frames w !! l = Some f ->
  update_frame l g w
  = (Ok tt, {| frames := <[l := g f]> (frames w); objects := objects w; stdout := stdout w |}).
Proof.
  intros Hf. unfold update_frame. now rewrite (bind_Ok _ _ _ _ _ (read_frame_run _ _ _ Hf)).
Qed.

Lemma set_df_run (self : nat) (l : option nat) (w : world) (b : Benchmark) :
  objects w !! self = Some b ->
  set_df self l w
  = (Ok tt, {| frames := frames w;
               objects := <[self := {| is_empty := is_empty b; df := l |}]> (objects w);
               stdout := stdout w |}).
Proof.
  intros Hb. unfold set_df. now rewrite (bind_Ok _ _ _ _ _ (read_object_run _ _ _ Hb)).
Qed.

Lemma lift_run {A} (r : result A) (w : world) : lift r w = (r, w).
Proof. reflexivity. Qed.

Lemma new_frame_run (g : DataFrame) (w : world) :
  new_frame g w
  = (Ok (length (frames w)),
     {| frames := frames w ++ [g]; objects := objects w; stdout := stdout w |}).
Proof. reflexivity. Qed.

Lemma print_run (line : string) (w : world) :
  print line w
  = (Ok tt, {| frames := frames w; objects := objects w; stdout := stdout w ++ [line] |}).
Proof. reflexivity. Qed.

Lemma ret_run {A} (a : A) (w : world) : ret a w = (Ok a, w).
Proof. reflexivity. Qed.

Lemma raise_run {A} (e : exn) (w : world) : raise (A := A) e w = (Raise e, w).
Proof. reflexivity. Qed.

Lemma world_eta (w : world) :
  {| frames := frames w; objects := objects w; stdout := stdout w |} = w.
Proof. now destruct w. Qed.

Lemma validate_run (self : nat) (w : world) (b : Benchmark) (l : nat) (f : DataFrame) :
  objects w !! self = Some b -> df b = Some l -> frames w !! l = Some f ->
  validate_dataframe_post_formatting self w
  = let f1 := without_index_column f in
    let w1 := drop_index_column l f w in
    if negb (columns_ok f1)
    then (Raise (ValueError "DataFrame must contain the following columns"), w1)
    else if has_duplicates f1
         then match groupby_agg ["model"; "scenario"; "source"] "score" series_max f1 with
              | Raise e => (Raise e, w1)
              | Ok g => check_score_numeric g (collapse_duplicates self b g w1)
              end
         else check_score_numeric f1 w1.
Proof.
  intros Hb Hl Hf. unfold validate_dataframe_post_formatting.
  rewrite (bind_Ok _ _ _ _ _ (self_df_run _ _ _ _ Hb Hl)).
  rewrite (bind_Ok _ _ _ _ _ (read_frame_run _ _ _ Hf)).
  assert (Hw1 : when (has_col "Unnamed: 0" f) (update_frame l (drop_col "Unnamed: 0")) w
                = (Ok tt, drop_index_column l f w)).
  { unfold when, drop_index_column, without_index_column.
    destruct (has_col "Unnamed: 0" f).
    - now apply update_frame_run.
    - unfold ret. rewrite list_insert_id by exact Hf. now rewrite world_eta. }
  rewrite (bind_Ok _ _ _ _ _ Hw1).
  set (f1 := without_index_column f). set (w1 := drop_index_column l f w).
  assert (Hb1 : objects w1 !! self = Some b) by exact Hb.
  assert (Hf1 : frames w1 !! l = Some f1).
  { unfold w1, drop_index_column. simpl. apply list_lookup_insert_eq.
    eapply lookup_lt_Some; eauto. }
  rewrite (bind_Ok _ _ _ _ _ (self_df_run _ _ _ _ Hb1 Hl)).
  rewrite (bind_Ok _ _ _ _ _ (read_frame_run _ _ _ Hf1)).
  cbv zeta. destruct (negb (columns_ok f1)).
  { now rewrite (bind_Raise _ _ _ _ _ (raise_run _ w1)). }
  rewrite (bind_Ok _ _ _ _ _ (ret_run tt w1)).
  unfold when. destruct (has_duplicates f1).
  - destruct (groupby_agg _ _ _ f1) as [g|e] eqn:G.
    + assert (Hdup : (g0 <- lift (Ok g) ;; l' <- new_frame g0 ;; set_df self (Some l') ;;
                      print duplicates_warning) w1
                     = (Ok tt, collapse_duplicates self b g w1)).
      { rewrite (bind_Ok _ _ _ _ _ (lift_run (Ok g) w1)).
        rewrite (bind_Ok _ _ _ _ _ (new_frame_run g w1)).
        erewrite bind_Ok; [|apply set_df_run; exact Hb1].
        reflexivity. }
      rewrite (bind_Ok _ _ _ _ _ Hdup).
      erewrite bind_Ok.
      2:{ eapply self_df_run;
            [cbn [collapse_duplicates objects]; apply list_lookup_insert_eq;
             eapply lookup_lt_Some; eauto
            |reflexivity]. }
      erewrite bind_Ok; [reflexivity|].
      apply read_frame_run. cbn [collapse_duplicates frames].
      rewrite lookup_app_r by lia. now rewrite Nat.sub_diag.
    + erewrite bind_Raise; [reflexivity|].
      now rewrite (bind_Raise _ _ _ _ _ (lift_run (Raise e) w1)).
  - rewrite (bind_Ok _ _ _ _ _ (ret_run tt w1)).
    rewrite (bind_Ok _ _ _ _ _ (self_df_run _ _ _ _ Hb1 Hl)).
    now rewrite (bind_Ok _ _ _ _ _ (read_frame_run _ _ _ Hf1)).
Qed.

(** *** The collapse of duplicates *)

Lemma pairwise_distinct_filter (p : list value -> bool) (ks : list (list value)) :
  pairwise_distinct ks = true -> pairwise_distinct (List.filter p ks) = true.
Proof.
  induction ks as [|k ks IH]; simpl; [auto|].
  intros H. apply andb_true_iff in H as [H1 H2].
  destruct (p k); simpl; [|auto].
  rewrite IH by exact H2. rewrite andb_true_r.
  rewrite forallb_forall in *. intros k' Hk'. apply filter_In in Hk' as [Hk' _]. auto.
Qed.

Lemma pairwise_distinct_unique_keys (ks : list (list value)) :
  pairwise_distinct (unique_keys ks) = true.
Proof.
  induction ks as [|k ks IH]; simpl; [reflexivity|].
  apply andb_true_iff. split.
  - rewrite forallb_forall. intros k' Hk'. now apply filter_In in Hk' as [_ Hk'].
  - now apply pairwise_distinct_filter.
Qed.

Lemma pairwise_distinct_insert (leb : list value -> list value -> bool)
    (k : list value) (ks : list (list value)) :
  forallb (fun k' => negb (key_eqb k' k)) ks = true ->
  pairwise_distinct ks = true ->
  pairwise_distinct (insert_sorted leb k ks) = true.
Proof.
  induction ks as [|k0 ks IH]; simpl; [auto|].
  intros H1 H2. apply andb_true_iff in H1 as [Hk0 H1]. apply andb_true_iff in H2 as [H2 H3].
  destruct (leb k k0); simpl.
  - rewrite Hk0, H1, H2, H3. reflexivity.
  - rewrite (IH H1 H3), andb_true_r.
    rewrite forallb_forall in *. intros k' Hk'.
    apply In_insert_sorted in Hk' as [->|Hk']; [|auto].
    rewrite key_eqb_sym. exact Hk0.
Qed.

Lemma pairwise_distinct_sorted (leb : list value -> list value -> bool)
    (ks : list (list value)) :
  pairwise_distinct ks = true -> pairwise_distinct (sorted leb ks) = true.
Proof.
  induction ks as [|k ks IH]; simpl; [auto|].
  intros H. apply andb_true_iff in H as [H1 H2].
  apply pairwise_distinct_insert; [|now apply IH].
  rewrite forallb_forall in *. intros k' Hk'. apply H1.
  exact (proj1 (In_sorted leb k' ks) Hk').
Qed.

Lemma pairwise_distinct_group_keys (ks : list (list value)) :
  pairwise_distinct (group_keys ks) = true.
Proof.
  unfold group_keys. apply pairwise_distinct_sorted, pairwise_distinct_unique_keys.
Qed.

Lemma rmapM_map {A B} (f : A -> result B) (g : A -> B) (l : list A) :
  (forall x, In x l -> f x = Ok (g x)) -> rmapM f l = Ok (map g l).
Proof.
  induction l as [|x l IH]; simpl; intros H; [reflexivity|].
  rewrite (H x) by now left. simpl. rewrite IH by (intros; apply H; now right).
  reflexivity.
Qed.













(** The same table through the whole ingestion: [m1] keeps its score 3. *)
Example ingestion_with_duplicates_run :
  exists w',
    new_Benchmark no_assets float_of_digits 0 (Some "s") true
      (world_of [[("model", [VStr "m1"; VStr "m1"; VStr "m2"]);
                  ("scenario", [VStr "a"; VStr "a"; VStr "a"]);
                  ("score", [VNum 1; VNum 3; VNum 2])]])
    = (Ok 0, w')
    /\ stdout w' = [duplicates_warning]
    /\ table_of w' 0 = Some [("model", [VStr "m1"; VStr "m2"]);
                             ("scenario", [VStr "a"; VStr "a"]);
                             ("source", [VStr "s"; VStr "s"]);
                             ("score", [VNum 3; VNum 2])].
Proof. eexists. vm_compute. repeat split; reflexivity. Qed.

(** ** Ingestion step by step *)

Tactic Notation "ok_step" hyp(H) "as" ident(a) ident(w) ident(H1) :=
  apply bind_Ok_inv in H; destruct H as (a & w & H1 & H).

Lemma write_frame_Ok (l : nat) (g : DataFrame) (w w' : world) (u : unit) :
  write_frame l g w = (Ok u, w') ->
  w' = {| frames := <[l := g]> (frames w); objects := objects w; stdout := stdout w |}.
Proof. unfold write_frame. now intros [= _ <-]. Qed.

Lemma when_Ok (c : bool) (m : M unit) (w w' : world) (u : unit) :
  when c m w = (Ok u, w') -> if c then m w = (Ok u, w') else w' = w.
Proof. unfold when. destruct c; [auto|]. now intros [= _ <-]. Qed.

Lemma insert_insert_same {A} (l : list A) (i : nat) (x y : A) :
  <[i := y]> (<[i := x]> l) = <[i := y]> l.
Proof. apply list_insert_insert_eq. Qed.

Lemma assign_df_Ok (a : assets) (parse : string -> option Q) (self df0 : nat)
    (data_source : option string) (normalized_names : bool) (w w' : world) :
  assign_df a parse self df0 data_source normalized_names w = (Ok tt, w') ->
  exists (f base : DataFrame) (df1 : nat) (fs : list DataFrame)
         (scores models scenarios : list value) (b : Benchmark),
    frames w !! df0 = Some f
    /\ (has_col "scenario" f = true /\ df1 = df0 /\ base = f /\ fs = frames w
        \/ has_col "scenario" f = false /\ melt f = Ok base
           /\ df1 = length (frames w) /\ fs = frames w ++ [base])
    /\ objects w !! self = Some b
    /\ after_formatting a self data_source
         {| frames := <[df1 := formatted data_source normalized_names
                                  scores models scenarios base]> fs;
            objects := <[self := {| is_empty := is_empty b; df := Some df1 |}]> (objects w);
            stdout := stdout w |}
       = (Ok tt, w').
Proof.
  intros H. unfold assign_df in H.
  ok_step H as f w0 Hread. apply read_frame_Ok in Hread as [-> Hf].
  ok_step H as u0 w0 Hassert.
  assert (w0 = w) as ->.
  { destruct (columns f); [discriminate|]. unfold assert in Hassert.
    destruct (String.eqb _ _); [now injection Hassert|discriminate]. }
  clear Hassert u0.
  ok_step H as df1 w1 Hmelt.
  assert (Hbase : exists base fs,
             frames w1 = fs /\ objects w1 = objects w /\ stdout w1 = stdout w
             /\ fs !! df1 = Some base
             /\ (has_col "scenario" f = true /\ df1 = df0 /\ base = f /\ fs = frames w
                 \/ has_col "scenario" f = false /\ melt f = Ok base
                    /\ df1 = length (frames w) /\ fs = frames w ++ [base])).
  { destruct (has_col "scenario" f) eqn:E; cbn [negb] in Hmelt.
    - apply ret_Ok in Hmelt as [-> ->]. exists f, (frames w).
      split; [reflexivity|]. split; [reflexivity|]. split; [reflexivity|].
      split; [exact Hf|left; auto].
    - ok_step Hmelt as g w2 Hlift. apply lift_Ok in Hlift as [Hm ->].
      rewrite new_frame_run in Hmelt. injection Hmelt as <- <-.
      exists g, (frames w ++ [g]). cbn [frames objects stdout].
      split; [reflexivity|]. split; [reflexivity|]. split; [reflexivity|].
      split; [|right; auto].
      rewrite lookup_app_r by lia. now rewrite Nat.sub_diag. }
  destruct Hbase as (base & fs & Hfs & Hobj & Hout & Hl & Hcase).
  clear Hmelt.
  ok_step H as u1 w2 Hrep. apply update_frame_Ok in Hrep as (f1 & Hf1 & ->).
  rewrite Hfs, Hl in Hf1. injection Hf1 as <-.
  ok_step H as f1 w2 Hread. apply read_frame_Ok in Hread as [-> Hr]. cbn [frames] in Hr.
  rewrite Hfs, list_lookup_insert_eq in Hr by (eapply lookup_lt_Some; eauto).
  injection Hr as <-.
  ok_step H as u2 w2 Hscore.
  destruct (get_col "score" (replace_cells (VStr "-") VNaN base)) as [vs|] eqn:Es;
    [|discriminate].
  apply write_frame_Ok in Hscore as ->. cbn [frames objects stdout] in H.
  rewrite Hfs, insert_insert_same in H.
  set (converted := set_col "score" (astype_float parse vs)
                      (replace_cells (VStr "-") VNaN base)) in *.
  ok_step H as u3 w2 Hnames.
  assert (Hnamed : exists models scenarios,
             w2 = {| frames := <[df1 := if normalized_names then converted
                                        else set_col "scenario" scenarios
                                               (set_col "model" models converted)]> fs;
                     objects := objects w1; stdout := stdout w1 |}).
  { apply when_Ok in Hnames. destruct normalized_names; cbn [negb] in Hnames.
    - exists [], []. now subst w2.
    - ok_step Hnames as f2 w3 Hread. apply read_frame_Ok in Hread as [-> Hr].
      cbn [frames] in Hr.
      rewrite list_lookup_insert_eq in Hr by (eapply lookup_lt_Some; eauto).
      injection Hr as <-.
      ok_step Hnames as u4 w3 Hmodel.
      destruct (get_col "model" converted) as [ms|]; [|discriminate].
      ok_step Hmodel as ms' w4 Hlift. apply lift_Ok in Hlift as [_ ->].
      apply write_frame_Ok in Hmodel as ->.
      cbn [frames objects stdout] in Hnames. rewrite insert_insert_same in Hnames.
      ok_step Hnames as f3 w4 Hread. apply read_frame_Ok in Hread as [-> Hr].
      cbn [frames] in Hr.
      rewrite list_lookup_insert_eq in Hr by (eapply lookup_lt_Some; eauto).
      injection Hr as <-.
      destruct (get_col "scenario" (set_col "model" ms' converted)) as [ss|]; [|discriminate].
      ok_step Hnames as ss' w4 Hlift. apply lift_Ok in Hlift as [_ ->].
      apply write_frame_Ok in Hnames as ->.
      cbn [frames objects stdout]. rewrite insert_insert_same.
      exists ms', ss'. reflexivity. }
  destruct Hnamed as (models & scenarios & ->). clear Hnames.
  ok_step H as u4 w2 Hagg. apply update_frame_Ok in Hagg as (f2 & Hf2 & ->).
  cbn [frames objects stdout] in *.
  rewrite list_lookup_insert_eq in Hf2 by (eapply lookup_lt_Some; eauto).
  injection Hf2 as <-. rewrite insert_insert_same in H.
  ok_step H as u5 w2 Hsource.
  assert (Hsrc : w2 = {| frames := <[df1 := formatted data_source normalized_names
                                              (astype_float parse vs) models scenarios base]> fs;
                         objects := objects w1; stdout := stdout w1 |}).
  { apply when_Ok in Hsource. unfold formatted. fold converted.
    destruct (truthy data_source).
    - apply update_frame_Ok in Hsource as (f3 & Hf3 & ->). cbn [frames objects stdout] in *.
      rewrite list_lookup_insert_eq in Hf3 by (eapply lookup_lt_Some; eauto).
      injection Hf3 as <-. now rewrite insert_insert_same.
    - now subst w2. }
  subst w2. clear Hsource.
  ok_step H as u6 w2 Hset. apply set_df_Ok in Hset as (b & Hb & ->).
  cbn [frames objects stdout] in *. rewrite Hobj in Hb.
  exists f, base, df1, fs, (astype_float parse vs), models, scenarios, b.
  split; [exact Hf|]. split; [exact Hcase|].
  split; [exact Hb|].
  rewrite Hobj, Hout in H. exact H.
Qed.

Lemma check_score_numeric_Ok (f : DataFrame) (w w' : world) (u : unit) :
  check_score_numeric f w = (Ok u, w') ->
  w' = w /\ exists vs, get_col "score" f = Some vs /\ forallb is_number vs = true.
Proof.
  unfold check_score_numeric. destruct (get_col "score" f) as [vs|]; [|discriminate].
  destruct (forallb is_number vs) eqn:E; [|discriminate].
  intros [= _ <-]. eauto.
Qed.

Lemma set_is_empty_run (self : nat) (e : bool) (w : world) (b : Benchmark) :
  objects w !! self = Some b ->
  set_is_empty self e w
  = (Ok tt, {| frames := frames w;
               objects := <[self := {| is_empty := e; df := df b |}]> (objects w);
               stdout := stdout w |}).
Proof.
  intros Hb. unfold set_is_empty. now rewrite (bind_Ok _ _ _ _ _ (read_object_run _ _ _ Hb)).
Qed.

(** The end of [assign_df] from a store [w] in which [self.df] is the
    formatted table [F] at [l]: either no duplicate was found, the table at [l]
    has lost its rows with a missing cell and [self.df] is that table (or its
    normalisation, a new table, for a lower-is-better source), or duplicates
    were found and [self.df] is the collapsed table. *)
Lemma after_formatting_Ok (a : assets) (self : nat) (data_source : option string)
    (w w' : world) (b : Benchmark) (l : nat) (F : DataFrame) :
  objects w !! self = Some b -> df b = Some l -> frames w !! l = Some F ->
  after_formatting a self data_source w = (Ok tt, w') ->
  columns_ok (without_index_column F) = true
  /\ (has_duplicates (without_index_column F) = false
      /\ stdout w' = stdout w
      /\ (if lower_os_better_for_source a data_source
          then exists g,
              normalized_frame true (dropna (without_index_column F)) = Ok g
              /\ frames w' = <[l := dropna (without_index_column F)]> (frames w) ++ [g]
              /\ objects w'
                 = <[self := {| is_empty := false; df := Some (length (frames w)) |}]>
                     (objects w)
          else frames w' = <[l := dropna (without_index_column F)]> (frames w)
               /\ objects w' = <[self := {| is_empty := false; df := Some l |}]> (objects w))
      \/ has_duplicates (without_index_column F) = true
         /\ stdout w' = stdout w ++ [duplicates_warning]
         /\ frames w' !! l = Some (without_index_column F)
         /\ exists vs, get_col "score" (without_index_column F) = Some vs).
Proof.
  intros Hb Hl Hf H. unfold after_formatting in H.
  ok_step H as u0 w1 Hval.
  rewrite (validate_run self w b l F Hb Hl Hf) in Hval. cbv zeta in Hval.
  set (F1 := without_index_column F) in *.
  assert (Hll : l < length (frames w)) by (eapply lookup_lt_Some; eauto).
  assert (Hss : self < length (objects w)) by (eapply lookup_lt_Some; eauto).
  destruct (columns_ok F1); [|discriminate]. cbn [negb] in Hval.
  split; [reflexivity|].
  destruct (has_duplicates F1).
  - right. destruct (groupby_agg _ _ _ F1) as [g|e] eqn:G; [|discriminate].
    apply check_score_numeric_Ok in Hval as [-> _].
    assert (Hvs : exists vs, get_col "score" F1 = Some vs).
    { unfold groupby_agg in G. destruct (get_col "score" F1); [eauto|discriminate]. }
    set (w2 := collapse_duplicates self b g (drop_index_column l F w)) in *.
    assert (Hb2 : objects w2 !! self
                  = Some {| is_empty := is_empty b; df := Some (length (frames w)) |}).
    { unfold w2, collapse_duplicates, drop_index_column. cbn [objects frames].
      rewrite length_insert. now apply list_lookup_insert_eq. }
    assert (Hg2 : frames w2 !! length (frames w) = Some g).
    { unfold w2, collapse_duplicates, drop_index_column. cbn [objects frames].
      rewrite lookup_app_r by (rewrite length_insert; lia).
      now rewrite length_insert, Nat.sub_diag. }
    rewrite (bind_Ok _ _ _ _ _ (self_df_run _ _ _ _ Hb2 eq_refl)) in H.
    rewrite (bind_Ok _ _ _ _ _ (update_frame_run _ dropna _ _ Hg2)) in H.
    set (w3 := {| frames := <[length (frames w) := dropna g]> (frames w2);
                  objects := objects w2; stdout := stdout w2 |}) in *.
    assert (Hl3 : forall w4 : world,
               frames w4 = frames w3 \/ (exists g', frames w4 = frames w3 ++ [g']) ->
               frames w4 !! l = Some F1).
    { intros w4 Hw4.
      assert (Hl3 : frames w3 !! l = Some F1).
      { unfold w3, w2, collapse_duplicates, drop_index_column. cbn [frames].
        rewrite list_lookup_insert_ne by lia.
        rewrite lookup_app_l by (rewrite length_insert; lia).
        now apply list_lookup_insert_eq. }
      destruct Hw4 as [->|(g' & ->)]; [exact Hl3|].
      rewrite lookup_app_l; [exact Hl3|]. eapply lookup_lt_Some; eauto. }
    ok_step H as u1 w4 Hnorm. apply when_Ok in Hnorm.
    assert (Hw4 : stdout w4 = stdout w3
                  /\ (frames w4 = frames w3 \/ exists g', frames w4 = frames w3 ++ [g'])).
    { destruct (lower_os_better_for_source a data_source); [|subst w4; auto].
      unfold normalize_scores_per_scenario in Hnorm.
      ok_step Hnorm as l1 w5 Hs. apply self_df_Ok in Hs as [-> _].
      ok_step Hnorm as f1 w5 Hr. apply read_frame_Ok in Hr as [-> _].
      ok_step Hnorm as g1 w5 Hn. apply lift_Ok in Hn as [_ ->].
      ok_step Hnorm as l2 w5 Ha. rewrite new_frame_run in Ha. injection Ha as <- <-.
      apply set_df_Ok in Hnorm as (b' & _ & ->). cbn [frames stdout]. eauto. }
    destruct Hw4 as [Ho4 Hf4].
    apply set_is_empty_Ok in H as (b4 & _ & ->). cbn [frames stdout].
    split; [reflexivity|]. split; [now rewrite Ho4|]. split; [now apply Hl3|exact Hvs].
  - left. apply check_score_numeric_Ok in Hval as [-> _].
    set (w2 := drop_index_column l F w) in *.
    assert (Hb2 : objects w2 !! self = Some b) by exact Hb.
    assert (Hf2 : frames w2 !! l = Some F1).
    { unfold w2, drop_index_column. cbn [frames]. now apply list_lookup_insert_eq. }
    rewrite (bind_Ok _ _ _ _ _ (self_df_run _ _ _ _ Hb2 Hl)) in H.
    rewrite (bind_Ok _ _ _ _ _ (update_frame_run _ dropna _ _ Hf2)) in H.
    unfold w2, drop_index_column in H. cbn [frames objects stdout] in H.
    rewrite insert_insert_same in H.
    split; [reflexivity|].
    ok_step H as u1 w4 Hnorm. apply when_Ok in Hnorm.
    destruct (lower_os_better_for_source a data_source).
    + unfold normalize_scores_per_scenario in Hnorm.
      erewrite bind_Ok in Hnorm; [|eapply self_df_run; [exact Hb|exact Hl]].
      erewrite bind_Ok in Hnorm;
        [|apply read_frame_run; cbn [frames]; now apply list_lookup_insert_eq].
      ok_step Hnorm as g1 w5 Hn. apply lift_Ok in Hn as [Hn ->].
      rewrite (bind_Ok _ _ _ _ _ (new_frame_run _ _)) in Hnorm.
      erewrite set_df_run in Hnorm by exact Hb. injection Hnorm as _ <-.
      erewrite set_is_empty_run in H
        by (cbn [objects]; now apply list_lookup_insert_eq).
      injection H as <-. cbn [frames objects stdout df].
      split; [reflexivity|]. exists g1. split; [exact Hn|].
      rewrite length_insert, insert_insert_same. auto.
    + subst w4. erewrite set_is_empty_run in H by exact Hb.
      injection H as <-. cbn [frames objects stdout]. rewrite Hl. auto.
Qed.

(** ** The column set *)

(** *** Column names through the frame operations *)

Lemma columns_set_col (c : string) (vs : list value) (f : DataFrame) :
  columns (set_col c vs f) = if has_col c f then columns f else columns f ++ [c].
Proof.
  unfold has_col. induction f as [|[n ws] f IH]; simpl; [reflexivity|].
  rewrite (String.eqb_sym c n). destruct (String.eqb n c) eqn:E; simpl; [reflexivity|].
  rewrite IH. now destruct (existsb (String.eqb c) (columns f)).
Qed.

Lemma has_col_In (c : string) (f : DataFrame) : has_col c f = true <-> In c (columns f).
Proof.
  unfold has_col. rewrite existsb_exists. split.
  - intros (x & Hx & E). apply String.eqb_eq in E. now subst.
  - intros H. exists c. split; [exact H|apply String.eqb_refl].
Qed.

Lemma In_columns_set_col (c c' : string) (vs : list value) (f : DataFrame) :
  In c' (columns (set_col c vs f)) <-> c' = c \/ In c' (columns f).
Proof.
  rewrite columns_set_col. destruct (has_col c f) eqn:E.
  - apply has_col_In in E. intuition congruence.
  - rewrite in_app_iff. simpl. intuition congruence.
Qed.

Lemma columns_select_rows (mask : list bool) (f : DataFrame) :
  columns (select_rows mask f) = columns f.
Proof. unfold columns, select_rows. rewrite map_map. reflexivity. Qed.

Lemma columns_dropna (f : DataFrame) : columns (dropna f) = columns f.
Proof. apply columns_select_rows. Qed.

Lemma columns_replace_cells (old new : value) (f : DataFrame) :
  columns (replace_cells old new f) = columns f.
Proof. unfold columns, replace_cells. rewrite map_map. reflexivity. Qed.

Lemma In_columns_drop_col (c c' : string) (f : DataFrame) :
  In c' (columns (drop_col c f)) <-> c' <> c /\ In c' (columns f).
Proof.
  unfold columns, drop_col. rewrite !in_map_iff. split.
  - intros ([n vs] & <- & H). apply filter_In in H as [H1 H2]. simpl in *.
    split; [|exists (n, vs); auto].
    intros ->. now rewrite String.eqb_refl in H2.
  - intros (Hne & [n vs] & <- & H). exists (n, vs). split; [reflexivity|].
    apply filter_In. split; [exact H|]. simpl in *.
    destruct (String.eqb n c) eqn:E; [apply String.eqb_eq in E; contradiction|reflexivity].
Qed.

Lemma In_columns_concat_frames (c : string) (f1 f2 : DataFrame) :
  In c (columns (concat_frames f1 f2)) <-> In c (columns f1) \/ In c (columns f2).
Proof.
  unfold concat_frames, columns. rewrite map_app, in_app_iff, !map_map. simpl.
  change (map (fun x : column => x.1) f1) with (columns f1).
  split.
  - intros [H|H]; [now left|]. right.
    apply in_map_iff in H as (col & <- & H). apply filter_In in H as [H _].
    apply in_map_iff. eauto.
  - intros [H|H]; [now left|].
    destruct (has_col c f1) eqn:E; [left; now apply has_col_In|]. right.
    apply in_map_iff in H as (col & <- & H). apply in_map_iff. exists col.
    split; [reflexivity|]. apply filter_In. split; [exact H|]. now rewrite E.
Qed.

Lemma columns_normalized_frame (lower : bool) (f g : DataFrame) :
  normalized_frame lower f = Ok g -> columns g = columns f.
Proof.
  unfold normalized_frame.
  destruct (get_col "score" f) as [scores|] eqn:Es; [|discriminate].
  destruct (get_col "scenario" f) as [scenarios|]; [|discriminate].
  destruct (groupby_transform _ _ _) as [scores'|]; simpl; [|discriminate].
  assert (Hs : has_col "score" f = true).
  { apply has_col_In. clear -Es. induction f as [|[n ws] f IH]; simpl in *; [discriminate|].
    destruct (String.eqb n "score") eqn:E; [apply String.eqb_eq in E; auto|auto]. }
  assert (Hc : columns (select_rows (map (fun v => negb (is_nan v)) scenarios)
                          (set_col "score" scores' f)) = columns f).
  { now rewrite columns_select_rows, columns_set_col, Hs. }
  destruct lower; intros [= <-]; [|exact Hc].
  rewrite columns_set_col.
  assert (Hs' : has_col "score"
                  (select_rows (map (fun v => negb (is_nan v)) scenarios)
                     (set_col "score" scores' f)) = true).
  { apply has_col_In. rewrite Hc. now apply has_col_In. }
  now rewrite Hs'.
Qed.

(** *** The column set *)

Lemma columns_ok_column_set (f : DataFrame) : columns_ok f = true -> column_set_ok f.
Proof.
  unfold columns_ok, string_list_eqb. intros H c Hc.
  apply bool_decide_eq_true in H.
  rewrite <- (In_sorted String.leb c required_columns), <- H, In_sorted, filter_In.
  split; [intros Hin; split; [exact Hin|]|tauto].
  destruct (String.eqb c "tag") eqn:E; [apply String.eqb_eq in E; contradiction|reflexivity].
Qed.

Lemma column_set_ok_ext (f g : DataFrame) :
  (forall c, In c (columns g) <-> In c (columns f)) -> column_set_ok f -> column_set_ok g.
Proof. intros H Hf c Hc. rewrite H. now apply Hf. Qed.

Lemma table_of_Some (w : world) (self : nat) (T : DataFrame) :
  table_of w self = Some T <->
  exists b l, objects w !! self = Some b /\ df b = Some l /\ frames w !! l = Some T.
Proof.
  unfold table_of. split.
  - destruct (objects w !! self) as [b|]; simpl; [|discriminate].
    destruct (df b) as [l|] eqn:E; simpl; [|discriminate]. eauto.
  - intros (b & l & -> & Hl & Hf). simpl. rewrite Hl. simpl. exact Hf.
Qed.

Lemma table_of_new (self : nat) (fs : list DataFrame)
    (os : list Benchmark) (out : list string) (g : DataFrame) (e : bool) :
  self < length os ->
  table_of {| frames := fs ++ [g];
              objects := <[self := {| is_empty := e; df := Some (length fs) |}]> os;
              stdout := out |} self = Some g.
Proof.
  intros Hs. apply table_of_Some. eexists _, _. cbn [objects frames].
  split; [now apply list_lookup_insert_eq|]. split; [reflexivity|].
  rewrite lookup_app_r by lia. now rewrite Nat.sub_diag.
Qed.

(** **** Ingestion *)

Lemma assign_df_column_set (a : assets) (parse : string -> option Q) (self df0 : nat)
    (data_source : option string) (normalized_names : bool) (w w' : world) :
  assign_df a parse self df0 data_source normalized_names w = (Ok tt, w') ->
  stdout w' = stdout w ->
  exists T, table_of w' self = Some T /\ column_set_ok T.
Proof.
  intros H Hout.
  apply assign_df_Ok in H
    as (f & base & df1 & fs & scores & models & scenarios & b & Hf & Hcase & Hb & H).
  set (F := formatted data_source normalized_names scores models scenarios base) in *.
  assert (Hdf1 : df1 < length fs).
  { destruct Hcase as [(_ & -> & _ & ->)|(_ & _ & -> & ->)].
    - eapply lookup_lt_Some; eauto.
    - rewrite length_app. simpl. lia. }
  assert (Hself : self < length (objects w)) by (eapply lookup_lt_Some; eauto).
  eapply after_formatting_Ok in H as [Hcols Hend].
  2:{ cbn [objects]. now apply list_lookup_insert_eq. }
  2:{ reflexivity. }
  2:{ cbn [frames]. now apply list_lookup_insert_eq. }
  apply columns_ok_column_set in Hcols.
  cbn [frames objects stdout] in Hend.
  destruct Hend as [(_ & _ & Hend)|(_ & Hwarn & _)].
  - destruct (lower_os_better_for_source a data_source).
    + destruct Hend as (g & Hn & Hfr & Hob).
      exists g. split.
      * apply table_of_Some. eexists _, _. rewrite Hob, Hfr.
        split; [apply list_lookup_insert_eq; now rewrite length_insert|].
        split; [reflexivity|].
        rewrite lookup_app_r by (rewrite !length_insert; lia).
        now rewrite !length_insert, Nat.sub_diag.
      * apply columns_normalized_frame in Hn.
        eapply column_set_ok_ext; [|exact Hcols]. intros c.
        now rewrite Hn, columns_dropna.
    + destruct Hend as (Hfr & Hob).
      exists (dropna (without_index_column F)). split.
      * apply table_of_Some. eexists _, _. rewrite Hob, Hfr.
        split; [apply list_lookup_insert_eq; now rewrite length_insert|].
        split; [reflexivity|].
        apply list_lookup_insert_eq. now rewrite length_insert.
      * eapply column_set_ok_ext; [|exact Hcols]. intros c. now rewrite columns_dropna.
  - exfalso. rewrite Hout in Hwarn.
    apply (f_equal length) in Hwarn. rewrite length_app in Hwarn. simpl in Hwarn. lia.
Qed.

(** **** The operations on the table *)

Lemma normalize_column_set (self : nat) (lower : bool) (w w' : world) (T : DataFrame) :
  table_of w self = Some T -> column_set_ok T ->
  normalize_scores_per_scenario self lower w = (Ok tt, w') ->
  exists T', table_of w' self = Some T' /\ column_set_ok T'.
Proof.
  intros HT Hok H. apply table_of_Some in HT as (b & l & Hb & Hl & Hf).
  unfold normalize_scores_per_scenario in H.
  rewrite (bind_Ok _ _ _ _ _ (self_df_run _ _ _ _ Hb Hl)) in H.
  rewrite (bind_Ok _ _ _ _ _ (read_frame_run _ _ _ Hf)) in H.
  ok_step H as g w1 Hn. apply lift_Ok in Hn as [Hn ->].
  rewrite (bind_Ok _ _ _ _ _ (new_frame_run _ _)) in H.
  erewrite set_df_run in H by exact Hb. injection H as <-.
  exists g. split.
  - apply table_of_new. eapply lookup_lt_Some; eauto.
  - apply columns_normalized_frame in Hn.
    eapply column_set_ok_ext; [|exact Hok]. intros c. now rewrite Hn.
Qed.

Lemma extend_column_set (self other : nat) (w w' : world) (T : DataFrame) (r : nat) :
  table_of w self = Some T -> column_set_ok T ->
  (forall T2, table_of w other = Some T2 -> column_set_ok T2) ->
  extend self other w = (Ok r, w') ->
  exists T', table_of w' self = Some T' /\ column_set_ok T'.
Proof.
  intros HT Hok Hother H. apply table_of_Some in HT as (b & l & Hb & Hl & Hf).
  unfold extend in H.
  rewrite (bind_Ok _ _ _ _ _ (read_object_run _ _ _ Hb)) in H.
  ok_step H as o w1 Ho. apply read_object_Ok in Ho as [-> Ho].
  ok_step H as u w1 Hext. apply ret_Ok in H as [_ ->].
  rewrite Hl in Hext.
  rewrite (bind_Ok _ _ _ _ _ (read_frame_run _ _ _ Hf)) in Hext.
  ok_step Hext as g w2 Hg.
  assert (Hgok : w2 = w /\ column_set_ok g).
  { destruct (df o) as [l2|] eqn:El2.
    - ok_step Hg as f2 w3 Hr. apply read_frame_Ok in Hr as [-> Hf2].
      apply ret_Ok in Hg as [-> ->]. split; [reflexivity|].
      assert (Hok2 : column_set_ok f2).
      { apply Hother, table_of_Some. eauto. }
      intros c Hc. rewrite In_columns_concat_frames, (Hok c Hc), (Hok2 c Hc). tauto.
    - apply ret_Ok in Hg as [-> ->]. auto. }
  destruct Hgok as [-> Hgok].
  rewrite (bind_Ok _ _ _ _ _ (new_frame_run _ _)) in Hext.
  erewrite set_df_run in Hext by exact Hb. injection Hext as _ <-.
  exists g. split; [|exact Hgok].
  apply table_of_new. eapply lookup_lt_Some; eauto.
Qed.

Lemma assert_Ok (c : bool) (msg : string) (w w' : world) (u : unit) :
  assert c msg w = (Ok u, w') -> c = true /\ w' = w.
Proof. unfold assert. destruct c; [|discriminate]. now intros [= _ <-]. Qed.

Lemma columns_imap_keys (cs : list string) (h : nat -> list value) :
  columns (imap (fun j cname => (cname, h j)) cs) = cs.
Proof.
  revert h. induction cs as [|c cs IH]; intros h; [reflexivity|].
  simpl. f_equal. apply (IH (fun j => h (S j))).
Qed.

Lemma groupby_agg_columns (cs : list string) (c : string)
    (agg : list value -> result value) (f g : DataFrame) :
  groupby_agg cs c agg f = Ok g -> columns g = cs ++ [c].
Proof.
  unfold groupby_agg. destruct (get_col c f); [|discriminate].
  destruct (rmapM _ _); simpl; [|discriminate].
  intros [= <-]. unfold columns at 1. rewrite map_app.
  fold (columns (imap (fun j cname => (cname, map (fun k => nth j k VNaN)
                                                (group_keys (keys_of cs f)))) cs)).
  now rewrite columns_imap_keys.
Qed.

Lemma mean_by_model_columns (f m : DataFrame) :
  mean_by_model f = Ok m -> columns m = ["model"; "score"; "wr"].
Proof.
  unfold mean_by_model.
  destruct (groupby_agg ["model"] "score" series_mean f) as [by_score|] eqn:E1;
    simpl; [|discriminate].
  destruct (groupby_agg ["model"] "wr" series_mean f) as [by_wr|]; simpl; [|discriminate].
  intros [= <-]. apply groupby_agg_columns in E1.
  rewrite columns_set_col.
  assert (H : has_col "wr" by_score = false).
  { unfold has_col. now rewrite E1. }
  now rewrite H, E1.
Qed.

Lemma add_aggregate_column_set (self : nat) (new_col_name : string)
    (blacklist whitelist : list value) (mean_or_mwr : string)
    (agg_source_name : option string) (min_scenarios : Z) (w w' : world) (T : DataFrame) :
  table_of w self = Some T -> column_set_ok T ->
  add_aggregate self new_col_name blacklist whitelist mean_or_mwr agg_source_name
    min_scenarios w = (Ok tt, w') ->
  exists T', table_of w' self = Some T' /\ column_set_ok T'.
Proof.
  intros HT Hok H. apply table_of_Some in HT as (b & l & Hb & Hl & Hf).
  unfold add_aggregate in H.
  ok_step H as u0 w0 Ha. apply assert_Ok in Ha as [_ ->].
  ok_step H as agg0 w0 Hsel.
  assert (w0 = w) as ->.
  { destruct (negb (0 =? length blacklist)%nat).
    - rewrite (bind_Ok _ _ _ _ _ (self_df_run _ _ _ _ Hb Hl)) in Hsel.
      rewrite (bind_Ok _ _ _ _ _ (read_frame_run _ _ _ Hf)) in Hsel.
      ok_step Hsel as g w1 Hq. apply lift_Ok in Hq as [_ ->].
      now apply ret_Ok in Hsel as [_ ->].
    - destruct (negb (0 =? length whitelist)%nat).
      + rewrite (bind_Ok _ _ _ _ _ (self_df_run _ _ _ _ Hb Hl)) in Hsel.
        rewrite (bind_Ok _ _ _ _ _ (read_frame_run _ _ _ Hf)) in Hsel.
        ok_step Hsel as g w1 Hq. apply lift_Ok in Hq as [_ ->].
        now apply ret_Ok in Hsel as [_ ->].
      + now apply ret_Ok in Hsel as [_ ->]. }
  clear Hsel.
  ok_step H as agg1 w0 Hbound.
  assert (w0 = w) as ->.
  { destruct agg0; [now apply ret_Ok in Hbound as [_ ->]|discriminate]. }
  clear Hbound.
  ok_step H as scenarios w0 Hscen.
  assert (w0 = w) as ->.
  { destruct (get_col "scenario" agg1); [now apply ret_Ok in Hscen as [_ ->]|discriminate]. }
  clear Hscen. cbv zeta in H.
  ok_step H as models w0 Hm. apply lift_Ok in Hm as [_ ->].
  ok_step H as agg2 w0 Hq. apply lift_Ok in Hq as [_ ->].
  ok_step H as scores w0 Hs.
  assert (w0 = w) as ->.
  { destruct (get_col "score" agg2); [now apply ret_Ok in Hs as [_ ->]|discriminate]. }
  clear Hs.
  ok_step H as wr w0 Hwr. apply lift_Ok in Hwr as [_ ->].
  ok_step H as mean_df w0 Hmean. apply lift_Ok in Hmean as [Hmean ->].
  apply mean_by_model_columns in Hmean.
  rewrite (bind_Ok _ _ _ _ _ (self_df_run _ _ _ _ Hb Hl)) in H.
  rewrite (bind_Ok _ _ _ _ _ (read_frame_run _ _ _ Hf)) in H.
  ok_step H as all_scenarios w0 Hall.
  assert (w0 = w) as ->.
  { destruct (get_col "scenario" T); [now apply ret_Ok in Hall as [_ ->]|discriminate]. }
  clear Hall.
  ok_step H as mean_df' w0 Hsrc.
  match type of Hsrc with
  | context [set_col_scalar "aggragated_from" ?v ?m] =>
      set (listed := set_col_scalar "aggragated_from" v m) in *
  end.
  assert (Hmd : w0 = w /\ exists v, mean_df' = set_col_scalar "source" v listed).
  { destruct (truthy agg_source_name).
    - apply ret_Ok in Hsrc as [-> ->]. eauto.
    - destruct (get_col "source" T) as [srcs|]; [|discriminate].
      destruct (unique srcs) as [|src [|? ?]]; try discriminate.
      apply ret_Ok in Hsrc as [-> ->]. eauto. }
  destruct Hmd as (-> & v & ->). clear Hsrc.
  rewrite (bind_Ok _ _ _ _ _ (new_frame_run _ _)) in H.
  erewrite set_df_run in H by exact Hb. injection H as <-.
  eexists. split; [apply table_of_new; eapply lookup_lt_Some; eauto|].
  intros c Hc. rewrite In_columns_concat_frames, In_columns_drop_col.
  unfold set_col_scalar, listed, set_col_scalar.
  rewrite !In_columns_set_col, Hmean.
  pose proof (Hok c Hc) as Hc'. unfold required_columns in *. simpl in *.
  split.
  - intros [Hin|(Hwr & Hin)]; [tauto|]. intuition (subst; tauto).
  - intros Hin. left. tauto.
Qed.

(** **** [clear_repeated_scenarios] *)

Lemma keeps_store_ret {A} (a : A) : keeps_store (ret a).
Proof. intros w r w' [= _ <-]. auto. Qed.

Lemma keeps_store_raise {A} (e : exn) : keeps_store (raise (A := A) e).
Proof. intros w r w' [= _ <-]. auto. Qed.

Lemma keeps_store_lift {A} (x : result A) : keeps_store (lift x).
Proof. intros w r w' [= _ <-]. auto. Qed.

Lemma keeps_store_print (line : string) : keeps_store (print line).
Proof. intros w r w' [= _ <-]. auto. Qed.

Lemma keeps_store_bind {A B} (m : M A) (k : A -> M B) :
  keeps_store m -> (forall a, keeps_store (k a)) -> keeps_store (bind m k).
Proof.
  intros Hm Hk w r w' H. apply bind_inv in H as [(a & w1 & H1 & H2)|(e & H1 & _)].
  - destruct (Hm _ _ _ H1) as [E1 E2]. destruct (Hk a _ _ _ H2) as [E3 E4].
    split; congruence.
  - exact (Hm _ _ _ H1).
Qed.

Lemma keeps_store_sources_to_drop (source_to_keep : option string) (scenario_df : DataFrame) :
  keeps_store (sources_to_drop source_to_keep scenario_df).
Proof.
  unfold sources_to_drop. apply keeps_store_bind.
  - destruct (truthy source_to_keep && _).
    + apply keeps_store_bind; [apply keeps_store_lift|intros; apply keeps_store_ret].
    + apply keeps_store_bind; [apply keeps_store_lift|intros; apply keeps_store_ret].
  - intros keep. apply keeps_store_bind; [apply keeps_store_lift|].
    intros flags. apply keeps_store_bind; [apply keeps_store_print|].
    intros _. apply keeps_store_ret.
Qed.

Lemma keeps_store_clear_scenarios (source_to_keep : option string)
    (groups : list (value * DataFrame)) (dealt dropped : list value) :
  keeps_store (clear_scenarios source_to_keep groups dealt dropped).
Proof.
  revert dealt dropped. induction groups as [|[scenario scenario_df] groups IH];
    intros dealt dropped; simpl; [apply keeps_store_ret|].
  destruct (value_in scenario dealt); [apply IH|].
  destruct (1 <? nrows scenario_df)%nat; [|apply IH].
  apply keeps_store_bind; [apply keeps_store_sources_to_drop|]. intros cur. apply IH.
Qed.

Lemma columns_query_in (c : string) (keep_in : bool) (l : list value) (f g : DataFrame) :
  query_in c keep_in l f = Ok g -> columns g = columns f.
Proof.
  unfold query_in. destruct (get_col c f); [|discriminate].
  intros [= <-]. apply columns_select_rows.
Qed.

Lemma clear_repeated_scenarios_column_set (self : nat) (source_to_keep : option string)
    (w w' : world) (T : DataFrame) :
  table_of w self = Some T -> column_set_ok T ->
  clear_repeated_scenarios self source_to_keep w = (Ok tt, w') ->
  exists T', table_of w' self = Some T' /\ column_set_ok T'.
Proof.
  intros HT Hok H. apply table_of_Some in HT as (b & l & Hb & Hl & Hf).
  assert (Hll : l < length (frames w)) by (eapply lookup_lt_Some; eauto).
  assert (Hss : self < length (objects w)) by (eapply lookup_lt_Some; eauto).
  unfold clear_repeated_scenarios in H.
  rewrite (bind_Ok _ _ _ _ _ (self_df_run _ _ _ _ Hb Hl)) in H.
  rewrite (bind_Ok _ _ _ _ _ (read_frame_run _ _ _ Hf)) in H.
  ok_step H as scenarios w0 Hscen.
  assert (w0 = w) as ->.
  { destruct (get_col "scenario" T); [now apply ret_Ok in Hscen as [_ ->]|discriminate]. }
  clear Hscen.
  ok_step H as prefixes w0 Hp. apply lift_Ok in Hp as [_ ->].
  ok_step H as sources w0 Hsrc.
  assert (w0 = w) as ->.
  { destruct (get_col "source" T); [now apply ret_Ok in Hsrc as [_ ->]|discriminate]. }
  clear Hsrc.
  ok_step H as scen_sources w0 Hss'. apply lift_Ok in Hss' as [_ ->].
  ok_step H as u0 w0 Hw. apply write_frame_Ok in Hw as ->.
  set (T1 := set_col "scenario__source" scen_sources T) in *.
  erewrite bind_Ok in H
    by (apply read_frame_run; cbn [frames]; now apply list_lookup_insert_eq).
  ok_step H as models w0 Hm.
  match type of Hm with _ ?w1 = _ => assert (w0 = w1) as -> end.
  { destruct (get_col "model" T1); [now apply ret_Ok in Hm as [_ ->]|discriminate]. }
  clear Hm. cbv zeta in H.
  ok_step H as counts w0 Hc. apply lift_Ok in Hc as [_ ->].
  ok_step H as u1 w0 Hw. apply write_frame_Ok in Hw as ->.
  cbn [frames objects stdout] in H. rewrite insert_insert_same in H.
  set (T2 := set_col "scenario__source_counts" counts T1) in *.
  erewrite bind_Ok in H
    by (apply read_frame_run; cbn [frames]; now apply list_lookup_insert_eq).
  ok_step H as dropped w0 Hloop.
  apply keeps_store_clear_scenarios in Hloop as [Hfr Hob]. cbn [frames objects] in Hfr, Hob.
  ok_step H as g w1 Hq. apply lift_Ok in Hq as [Hq ->].
  apply columns_query_in in Hq.
  rewrite (bind_Ok _ _ _ _ _ (new_frame_run _ _)) in H.
  erewrite bind_Ok in H by (apply set_df_run; rewrite Hob; exact Hb).
  erewrite bind_Ok in H.
  2:{ apply update_frame_run. cbn [frames]. rewrite lookup_app_r by lia.
      now rewrite Nat.sub_diag. }
  erewrite update_frame_run in H.
  2:{ cbn [frames]. apply list_lookup_insert_eq. rewrite length_app. simpl. lia. }
  injection H as <-. cbn [frames objects stdout].
  rewrite insert_insert_same.
  eexists. split.
  - apply table_of_Some. eexists _, _. cbn [frames objects].
    split; [apply list_lookup_insert_eq; now rewrite Hob|]. split; [reflexivity|].
    apply list_lookup_insert_eq. rewrite length_app. simpl. lia.
  - intros c Hc. rewrite !In_columns_drop_col, Hq.
    unfold T2, T1. rewrite !In_columns_set_col.
    pose proof (Hok c Hc) as Hc'. unfold required_columns in *. simpl in *.
    split; [tauto|].
    intros Hin. repeat split; [| |tauto]; intros ->; intuition discriminate.
Qed.

(** **** The constructor *)

Lemma validate_df_pre_formatting_Ok (l : nat) (w w' : world) (u : unit) :
  validate_df_pre_formatting l w = (Ok u, w') -> w' = w.
Proof.
  unfold validate_df_pre_formatting. intros H.
  ok_step H as f w0 Hr. apply read_frame_Ok in Hr as [-> _].
  ok_step H as u0 w0 H0.
  assert (w0 = w) as ->.
  { destruct (has_col "Unnamed: 0" f); [discriminate|now apply ret_Ok in H0 as [_ ->]]. }
  ok_step H as u1 w0 H1.
  assert (w0 = w) as ->.
  { destruct (negb (has_col "model" f)); [discriminate|now apply ret_Ok in H1 as [_ ->]]. }
  ok_step H as u2 w0 H2.
  assert (w0 = w) as ->.
  { destruct (negb (has_col "scenario" f) && _); [discriminate|].
    now apply ret_Ok in H2 as [_ ->]. }
  destruct (get_col "score" f) as [vs|]; [|now apply ret_Ok in H as [_ ->]].
  destruct (negb (forallb is_number vs)); [discriminate|now apply ret_Ok in H as [_ ->]].
Qed.

Lemma new_Benchmark_column_set (a : assets) (parse : string -> option Q) (df0 : nat)
    (data_source : option string) (normalized_names : bool) (w w' : world) (self : nat) :
  new_Benchmark a parse df0 data_source normalized_names w = (Ok self, w') ->
  stdout w' = stdout w ->
  forall T, table_of w' self = Some T -> column_set_ok T.
Proof.
  intros H Hout T HT. unfold new_Benchmark in H.
  ok_step H as self0 w0 Hnew. injection Hnew as <- <-.
  ok_step H as f w0 Hr. apply read_frame_Ok in Hr as [-> Hf].
  ok_step H as u w0 Hbody. apply ret_Ok in H as [-> ->].
  apply when_Ok in Hbody. destruct (0 <? nrows f)%nat.
  - ok_step Hbody as u0 w1 Ha. apply assert_Ok in Ha as [_ ->].
    ok_step Hbody as u1 w1 Hpre. apply validate_df_pre_formatting_Ok in Hpre as ->.
    destruct u. apply assign_df_column_set in Hbody as (T' & HT' & Hok); [|exact Hout].
    rewrite HT in HT'. now injection HT' as ->.
  - subst w0. apply table_of_Some in HT as (b & l & Hb & Hl & _).
    cbn [objects] in Hb. rewrite lookup_app_r, Nat.sub_diag in Hb by lia.
    injection Hb as <-. discriminate.
Qed.

(** **** All together *)

(** C3 (amended). After a successful ingestion that reports no duplicates
    ([assign_df], or the constructor around it), the columns of the table, a
    [tag] column apart, are exactly [model], [scenario], [score], [source]
    and [aggragated_from]; and [normalize_scores_per_scenario],
    [add_aggregate], [clear_repeated_scenarios] and [extend] (with a table of
    the same kind) keep it so. *)
Theorem column_set_after_ingestion_and_operations :
  (forall (a : assets) (parse : string -> option Q) (self df0 : nat)
          (data_source : option string) (normalized_names : bool) (w w' : world),
      assign_df a parse self df0 data_source normalized_names w = (Ok tt, w') ->
      stdout w' = stdout w ->
      exists T, table_of w' self = Some T /\ column_set_ok T)
  /\ (forall (a : assets) (parse : string -> option Q) (df0 : nat)
            (data_source : option string) (normalized_names : bool) (w w' : world)
            (self : nat),
        new_Benchmark a parse df0 data_source normalized_names w = (Ok self, w') ->
        stdout w' = stdout w ->
        forall T, table_of w' self = Some T -> column_set_ok T)
  /\ (forall (self : nat) (op : operation) (w w' : world) (T : DataFrame),
        table_of w self = Some T -> column_set_ok T ->
        (forall other T2, op = OpExtend other -> table_of w other = Some T2 ->
                          column_set_ok T2) ->
        run_operation self op w = (Ok tt, w') ->
        exists T', table_of w' self = Some T' /\ column_set_ok T').
Proof.
  split; [exact assign_df_column_set|]. split; [exact new_Benchmark_column_set|].
  intros self op w w' T HT Hok Hother H. destruct op; simpl in H.
  - eapply normalize_column_set; eauto.
  - eapply add_aggregate_column_set; eauto.
  - eapply clear_repeated_scenarios_column_set; eauto.
  - ok_step H as r w1 Hext. apply ret_Ok in H as [_ ->].
    eapply extend_column_set; eauto.
Qed.

(** C3 (counterexample). The column check leaves [tag] out of the comparison,
    so a table with a [tag] column is ingested and keeps it: six columns. *)
Lemma tag_column_survives_ingestion :
  exists w',
    new_Benchmark no_assets float_of_digits 0 (Some "s") true (world_of [tagged])
    = (Ok 0, w')
    /\ (columns <$> table_of w' 0)
       = Some ["model"; "scenario"; "score"; "tag"; "aggragated_from"; "source"].
Proof. eexists. vm_compute. split; reflexivity. Qed.

Lemma column_set_after_ingestion_witness :
  (exists T, table_of (snd (assign_df no_assets float_of_digits 0 0 (Some "s") true
                              holding_tagged)) 0 = Some T
             /\ column_set_ok T)
  /\ (exists T', table_of (snd (run_operation 0 (OpNormalize false)
                                  (snd (assign_df no_assets float_of_digits 0 0 (Some "s")
                                          true holding_tagged)))) 0 = Some T'
                 /\ column_set_ok T').
Proof.
  assert (H1 : exists T, table_of (snd (assign_df no_assets float_of_digits 0 0 (Some "s") true
                                          holding_tagged)) 0 = Some T
                         /\ column_set_ok T).
  { apply (proj1 column_set_after_ingestion_and_operations
             no_assets float_of_digits 0 0 (Some "s") true holding_tagged);
      vm_compute; reflexivity. }
  split; [exact H1|].
  destruct H1 as (T & HT & Hok).
  apply (proj2 (proj2 column_set_after_ingestion_and_operations) 0 (OpNormalize false)
           (snd (assign_df no_assets float_of_digits 0 0 (Some "s") true holding_tagged))
           _ T HT Hok).
  - intros other T2 [=].
  - vm_compute. reflexivity.
Defined.

(** ** Ingestion of a long-form table *)

Lemma has_col_set_col (c c' : string) (vs : list value) (f : DataFrame) :
  has_col c' (set_col c vs f) = String.eqb c' c || has_col c' f.
Proof.
  apply eq_true_iff_eq. rewrite orb_true_iff, !has_col_In, In_columns_set_col, String.eqb_eq.
  tauto.
Qed.

Lemma has_col_drop_col_ne (c c' : string) (f : DataFrame) :
  c' <> c -> has_col c' (drop_col c f) = has_col c' f.
Proof.
  intros Hne. apply eq_true_iff_eq. rewrite !has_col_In, In_columns_drop_col. tauto.
Qed.






(** The caller's table after the call: the row with the sentinel is gone, the
    score is a number, the two columns are there, and [self.df] is the very
    table. *)
Example long_form_run :
  assign_df no_assets float_of_digits 0 0 (Some "src") true holding_long_form
  = (Ok tt,
     {| frames := [[("model", [VStr "m2"]);
                    ("scenario", [VStr "a"]);
                    ("score", [VNum 7]);
                    ("aggragated_from", [VList []]);
                    ("source", [VStr "src"])]];
        objects := [{| is_empty := false; df := Some 0 |}];
        stdout := [] |}).
Proof. vm_compute. reflexivity. Qed.


(** ** Failed ingestion *)

(** *** Programs that write only to what they allocate *)

Lemma preserved_refl (nf no : nat) (w : world) : preserved nf no w w.
Proof. unfold preserved. auto. Qed.

Lemma preserved_trans (nf no : nat) (w1 w2 w3 : world) :
  preserved nf no w1 w2 -> preserved nf no w2 w3 -> preserved nf no w1 w3.
Proof.
  intros (F1 & O1 & L1 & M1) (F2 & O2 & L2 & M2). unfold preserved. split_and!.
  - intros l Hl. now rewrite F2, F1.
  - intros o Ho. now rewrite O2, O1.
  - lia.
  - lia.
Qed.

Section Confined.

Variables nf no self : nat.
Hypothesis self_past : no <= self.

Lemma confined_same {A} (m : M A) :
  (forall w r w', m w = (r, w') -> w' = w) -> confined nf no self m.
Proof.
  intros H w r w' Hw Hm. rewrite (H _ _ _ Hm). split; [exact Hw|apply preserved_refl].
Qed.

Lemma confined_ret {A} (a : A) : confined nf no self (ret a).
Proof. apply confined_same. now intros w r w' [= _ <-]. Qed.

Lemma confined_raise {A} (e : exn) : confined nf no self (raise (A := A) e).
Proof. apply confined_same. now intros w r w' [= _ <-]. Qed.

Lemma confined_lift {A} (x : result A) : confined nf no self (lift x).
Proof. apply confined_same. now intros w r w' [= _ <-]. Qed.

Lemma confined_assert (c : bool) (msg : string) : confined nf no self (assert c msg).
Proof. unfold assert. destruct c; [apply confined_ret|apply confined_raise]. Qed.

Lemma confined_read_frame (l : nat) : confined nf no self (read_frame l).
Proof.
  apply confined_same. unfold read_frame. intros w r w'.
  destruct (frames w !! l); now intros [= _ <-].
Qed.

Lemma confined_read_object (o : nat) : confined nf no self (read_object o).
Proof.
  apply confined_same. unfold read_object. intros w r w'.
  destruct (objects w !! o); now intros [= _ <-].
Qed.

Lemma confined_print (line : string) : confined nf no self (print line).
Proof.
  intros w r w' Hw [= _ <-]. split; [exact Hw|]. unfold preserved. cbn [frames objects].
  split_and!; auto.
Qed.

Lemma confined_bind {A B} (m : M A) (k : A -> M B) :
  confined nf no self m -> (forall a, confined nf no self (k a)) ->
  confined nf no self (bind m k).
Proof.
  intros Hm Hk w r w' Hw H. apply bind_inv in H as [(a & w1 & H1 & H2)|(e & H1 & _)].
  - destruct (Hm _ _ _ Hw H1) as [Hw1 P1]. destruct (Hk a _ _ _ Hw1 H2) as [Hw2 P2].
    split; [exact Hw2|eapply preserved_trans; eauto].
  - exact (Hm _ _ _ Hw H1).
Qed.

Lemma confined_when (c : bool) (m : M unit) :
  confined nf no self m -> confined nf no self (when c m).
Proof. intros H. unfold when. destruct c; [exact H|apply confined_ret]. Qed.

Lemma confined_write_frame (l : nat) (g : DataFrame) :
  nf <= l -> confined nf no self (write_frame l g).
Proof.
  intros Hl w r w' (H1 & H2 & H3) [= _ <-].
  unfold past_marks, preserved. cbn [frames objects]. rewrite length_insert.
  split_and!; auto. intros l0 Hl0. apply list_lookup_insert_ne. lia.
Qed.

Lemma confined_update_frame (l : nat) (g : DataFrame -> DataFrame) :
  nf <= l -> confined nf no self (update_frame l g).
Proof.
  intros Hl. unfold update_frame. apply confined_bind; [apply confined_read_frame|].
  intros f. now apply confined_write_frame.
Qed.

(** The reference that [new_frame] returns is past the mark. *)
Lemma confined_new_frame_bind {B} (g : DataFrame) (k : nat -> M B) :
  (forall l, nf <= l -> confined nf no self (k l)) ->
  confined nf no self (bind (new_frame g) k).
Proof.
  intros Hk w r w' Hw H. rewrite (bind_Ok _ _ _ _ _ (new_frame_run g w)) in H.
  destruct Hw as (H1 & H2 & H3).
  edestruct (Hk (length (frames w)) H1) as [Hw2 P2]; [|exact H|].
  - unfold past_marks. cbn [frames objects]. rewrite length_app.
    split_and!; [lia|exact H2|exact H3].
  - split; [exact Hw2|]. eapply preserved_trans; [|exact P2].
    unfold preserved. cbn [frames objects]. rewrite length_app.
    split_and!; [|auto|lia|auto].
    intros l Hl. apply lookup_app_l. lia.
Qed.

(** So is the reference that [self.df] holds. *)
Lemma confined_self_df_bind {B} (k : nat -> M B) :
  (forall l, nf <= l -> confined nf no self (k l)) ->
  confined nf no self (bind (self_df self) k).
Proof.
  intros Hk w r w' Hw H. apply bind_inv in H as [(l & w1 & H1 & H2)|(e & H1 & _)].
  - apply self_df_Ok in H1 as (-> & b & Hb & Hl).
    destruct Hw as (Hw1 & Hw2 & Hw3). apply (Hk l (Hw3 b l Hb Hl) w r w'); [|exact H2].
    unfold past_marks. auto.
  - assert (w' = w) as ->.
    { unfold self_df, bind, read_object in H1.
      destruct (objects w !! self) as [b|]; [|now injection H1].
      destruct (df b); now injection H1. }
    split; [exact Hw|apply preserved_refl].
Qed.

Lemma confined_write_object (b : Benchmark) :
  (forall l, df b = Some l -> nf <= l) -> confined nf no self (write_object self b).
Proof.
  intros Hb w r w' (H1 & H2 & H3) [= _ <-].
  unfold past_marks, preserved. cbn [frames objects]. rewrite length_insert.
  split_and!; auto.
  - intros b' l Hb' Hl. destruct (decide (self < length (objects w))) as [Hs|Hs].
    + rewrite list_lookup_insert_eq in Hb' by exact Hs. injection Hb' as <-. auto.
    + rewrite list_insert_ge in Hb' by lia. eauto.
  - intros o Ho. apply list_lookup_insert_ne. lia.
Qed.

Lemma confined_set_df (l : option nat) :
  (forall x, l = Some x -> nf <= x) -> confined nf no self (set_df self l).
Proof.
  intros Hl. unfold set_df. apply confined_bind; [apply confined_read_object|].
  intros b. apply confined_write_object. exact Hl.
Qed.

Lemma confined_set_is_empty (e : bool) : confined nf no self (set_is_empty self e).
Proof.
  unfold set_is_empty. intros w r w' Hw H.
  apply bind_inv in H as [(b & w1 & H1 & H2)|(e' & H1 & _)].
  - apply read_object_Ok in H1 as [-> Hb].
    apply (confined_write_object {| is_empty := e; df := df b |}) in H2; [exact H2| |exact Hw].
    destruct Hw as (_ & _ & H3). intros l Hl. exact (H3 b l Hb Hl).
  - exact (confined_read_object self _ _ _ Hw H1).
Qed.

Lemma confined_check_score_numeric (f : DataFrame) :
  confined nf no self (check_score_numeric f).
Proof.
  unfold check_score_numeric. destruct (get_col "score" f); [|apply confined_raise].
  destruct (negb _); [apply confined_raise|apply confined_ret].
Qed.

Lemma confined_validate_dataframe_post_formatting :
  confined nf no self (validate_dataframe_post_formatting self).
Proof.
  unfold validate_dataframe_post_formatting.
  apply confined_self_df_bind. intros l Hl.
  apply confined_bind; [apply confined_read_frame|]. intros f.
  apply confined_bind; [apply confined_when; now apply confined_update_frame|]. intros _.
  apply confined_self_df_bind. intros l1 Hl1.
  apply confined_bind; [apply confined_read_frame|]. intros f1.
  apply confined_bind.
  { destruct (negb (columns_ok f1)); [apply confined_raise|apply confined_ret]. }
  intros _. apply confined_bind.
  { apply confined_when. apply confined_bind; [apply confined_lift|]. intros g.
    apply confined_new_frame_bind. intros l2 Hl2.
    apply confined_bind; [apply confined_set_df; now intros x [= <-]|].
    intros _. apply confined_print. }
  intros _. apply confined_self_df_bind. intros l2 Hl2.
  apply confined_bind; [apply confined_read_frame|]. intros f2.
  apply confined_check_score_numeric.
Qed.

Lemma confined_normalize_scores_per_scenario (lower : bool) :
  confined nf no self (normalize_scores_per_scenario self lower).
Proof.
  unfold normalize_scores_per_scenario.
  apply confined_self_df_bind. intros l Hl.
  apply confined_bind; [apply confined_read_frame|]. intros f.
  apply confined_bind; [apply confined_lift|]. intros g.
  apply confined_new_frame_bind. intros l' Hl'.
  apply confined_set_df. now intros x [= <-].
Qed.

Lemma confined_assign_df (a : assets) (parse : string -> option Q) (df0 : nat)
    (data_source : option string) (normalized_names : bool) :
  nf <= df0 ->
  confined nf no self (assign_df a parse self df0 data_source normalized_names).
Proof.
  intros Hdf0. unfold assign_df.
  apply confined_bind; [apply confined_read_frame|]. intros f.
  apply confined_bind.
  { destruct (columns f); [apply confined_raise|apply confined_assert]. }
  intros _.
  assert (Hrest : forall df1, nf <= df1 ->
            confined nf no self
              (update_frame df1 (replace_cells (VStr "-") VNaN) ;;
               f0 <- read_frame df1 ;;
               match get_col "score" f0 with
               | Some vs => write_frame df1 (set_col "score" (astype_float parse vs) f0)
               | None => raise (KeyError "score")
               end ;;
               when (negb normalized_names)
                 (f1 <- read_frame df1 ;;
                  match get_col "model" f1 with
                  | Some vs =>
                      vs' <- lift (apply_str standardize_model_name vs) ;;
                      write_frame df1 (set_col "model" vs' f1)
                  | None => raise (KeyError "model")
                  end ;;
                  f2 <- read_frame df1 ;;
                  match get_col "scenario" f2 with
                  | Some vs =>
                      vs' <- lift (apply_str (standardize_scenario_name a) vs) ;;
                      write_frame df1 (set_col "scenario" vs' f2)
                  | None => raise (KeyError "scenario")
                  end) ;;
               update_frame df1 (fun f1 => set_col_scalar "aggragated_from" (VList []) f1) ;;
               when (truthy data_source)
                 (update_frame df1
                    (fun f1 => set_col_scalar "source" (VStr (default "" data_source)) f1)) ;;
               set_df self (Some df1) ;;
               validate_dataframe_post_formatting self ;;
               l <- self_df self ;;
               update_frame l dropna ;;
               when (lower_os_better_for_source a data_source)
                 (normalize_scores_per_scenario self true) ;;
               set_is_empty self false)).
  { intros df1 Hdf1.
    apply confined_bind; [now apply confined_update_frame|]. intros _.
    apply confined_bind; [apply confined_read_frame|]. intros f0.
    apply confined_bind.
    { destruct (get_col "score" f0); [now apply confined_write_frame|apply confined_raise]. }
    intros _. apply confined_bind.
    { apply confined_when.
      apply confined_bind; [apply confined_read_frame|]. intros f1.
      apply confined_bind.
      { destruct (get_col "model" f1); [|apply confined_raise].
        apply confined_bind; [apply confined_lift|]. intros vs'.
        now apply confined_write_frame. }
      intros _. apply confined_bind; [apply confined_read_frame|]. intros f2.
      destruct (get_col "scenario" f2); [|apply confined_raise].
      apply confined_bind; [apply confined_lift|]. intros vs'.
      now apply confined_write_frame. }
    intros _. apply confined_bind; [now apply confined_update_frame|]. intros _.
    apply confined_bind; [apply confined_when; now apply confined_update_frame|]. intros _.
    apply confined_bind; [apply confined_set_df; now intros x [= <-]|]. intros _.
    apply confined_bind; [apply confined_validate_dataframe_post_formatting|]. intros _.
    apply confined_self_df_bind. intros l Hl.
    apply confined_bind; [now apply confined_update_frame|]. intros _.
    apply confined_bind;
      [apply confined_when, confined_normalize_scores_per_scenario|]. intros _.
    apply confined_set_is_empty. }
  destruct (negb (has_col "scenario" f)).
  - intros w r w' Hw H.
    apply bind_inv in H as [(df1 & w1 & H1 & H2)|(e & H1 & ->)].
    + apply bind_Ok_inv in H1 as (g & w0 & Hm & Hn). apply lift_Ok in Hm as [_ ->].
      rewrite new_frame_run in Hn. injection Hn as <- <-.
      pose proof Hw as (Hw1 & Hw2 & Hw3).
      edestruct (Hrest (length (frames w)) Hw1) as [Hw' P']; [|exact H2|].
      * unfold past_marks. cbn [frames objects]. rewrite length_app.
        split_and!; [lia|exact Hw2|exact Hw3].
      * split; [exact Hw'|]. eapply preserved_trans; [|exact P'].
        unfold preserved. cbn [frames objects]. rewrite length_app.
        split_and!; [|auto|lia|auto].
        intros l Hl. apply lookup_app_l. lia.
    + apply bind_inv in H1 as [(g & w0 & Hm & Hn)|(e' & Hm & _)].
      * rewrite new_frame_run in Hn. discriminate.
      * injection Hm as _ <-. split; [exact Hw|apply preserved_refl].
  - intros w r w' Hw H. rewrite (bind_Ok _ _ _ _ _ (ret_run df0 w)) in H.
    exact (Hrest df0 Hdf0 _ _ _ Hw H).
Qed.

End Confined.

Lemma confined_validate_df_pre_formatting (nf no self l : nat) :
  confined nf no self (validate_df_pre_formatting l).
Proof.
  unfold validate_df_pre_formatting.
  apply confined_bind; [apply confined_read_frame|]. intros f.
  apply confined_bind.
  { destruct (has_col "Unnamed: 0" f); [apply confined_raise|apply confined_ret]. }
  intros _. apply confined_bind.
  { destruct (negb (has_col "model" f)); [apply confined_raise|apply confined_ret]. }
  intros _. apply confined_bind.
  { destruct (negb (has_col "scenario" f) && _); [apply confined_raise|apply confined_ret]. }
  intros _. destruct (get_col "score" f); [|apply confined_ret].
  destruct (negb _); [apply confined_raise|apply confined_ret].
Qed.

(** The constructor writes to the table it is given and to what it
    allocates, nothing else. *)
Lemma new_Benchmark_preserved (a : assets) (parse : string -> option Q) (nf no l : nat)
    (data_source : option string) (normalized_names : bool) (w w' : world)
    (r : result nat) :
  nf <= l -> nf <= length (frames w) -> no <= length (objects w) ->
  new_Benchmark a parse l data_source normalized_names w = (r, w') ->
  preserved nf no w w'.
Proof.
  intros Hl Hnf Hno H. unfold new_Benchmark in H.
  set (self := length (objects w)) in *.
  assert (Hself : no <= self) by exact Hno.
  assert (Hrest : confined nf no self
            (f <- read_frame l ;;
             when (0 <? nrows f)%nat
               (assert (truthy data_source || has_col "source" f)
                  "A datasource must be inputted with a df" ;;
                validate_df_pre_formatting l ;;
                assign_df a parse self l data_source normalized_names) ;;
             ret self)).
  { apply confined_bind; [apply confined_read_frame|]. intros f.
    apply confined_bind; [|intros; apply confined_ret].
    apply confined_when. apply confined_bind; [apply confined_assert|]. intros _.
    apply confined_bind; [apply confined_validate_df_pre_formatting|]. intros _.
    now apply confined_assign_df. }
  unfold bind at 1 in H. unfold new_object at 1 in H. fold self in H.
  eapply Hrest in H as [_ P].
  - eapply preserved_trans; [|exact P].
    unfold preserved. cbn [frames objects]. rewrite length_app.
    split_and!; auto; [|lia]. intros o Ho. apply lookup_app_l. lia.
  - unfold past_marks. cbn [frames objects]. rewrite length_app.
    split_and!; [exact Hnf|lia|].
    intros b l0 Hb. unfold self in Hb. rewrite lookup_app_r, Nat.sub_diag in Hb by lia.
    injection Hb as <-. discriminate.
Qed.

Lemma extend_Raise (self other : nat) (w w' : world) (e : exn) :
  extend self other w = (Raise e, w') -> w' = w.
Proof.
  unfold extend. intros H.
  apply bind_inv in H as [(b & w1 & Hb & H)|(e' & Hb & _)].
  2:{ unfold read_object in Hb. destruct (objects w !! self); now injection Hb. }
  apply read_object_Ok in Hb as [-> Hb].
  apply bind_inv in H as [(o & w1 & Ho & H)|(e' & Ho & _)].
  2:{ unfold read_object in Ho. destruct (objects w !! other); now injection Ho. }
  apply read_object_Ok in Ho as [-> Ho].
  apply bind_inv in H as [(u & w1 & H1 & H)|(e' & H & _)]; [discriminate|].
  destruct (df b) as [l|].
  - apply bind_inv in H as [(f & w1 & Hf & H)|(e'' & Hf & _)].
    2:{ unfold read_frame in Hf. destruct (frames w !! l); now injection Hf. }
    apply read_frame_Ok in Hf as [-> Hf].
    apply bind_inv in H as [(g & w1 & Hg & H)|(e'' & Hg & _)].
    + rewrite (bind_Ok _ _ _ _ _ (new_frame_run _ _)) in H.
      erewrite set_df_run in H; [discriminate|].
      assert (w1 = w) as ->; [|exact Hb].
      destruct (df o) as [l2|]; [|now injection Hg].
      apply bind_Ok_inv in Hg as (f2 & w2 & Hf2 & Hg).
      apply read_frame_Ok in Hf2 as [-> _]. now injection Hg.
    + destruct (df o) as [l2|]; [|discriminate].
      apply bind_inv in Hg as [(f2 & w2 & Hf2 & Hg)|(e3 & Hf2 & _)]; [discriminate|].
      unfold read_frame in Hf2. destruct (frames w !! l2); now injection Hf2.
  - erewrite set_df_run in H by exact Hb. discriminate.
Qed.

Lemma extend_Ok_objects (self other : nat) (w w' : world) (r : nat) :
  extend self other w = (Ok r, w') -> length (objects w') = length (objects w).
Proof.
  unfold extend. intros H.
  ok_step H as b w1 Hb. apply read_object_Ok in Hb as [-> Hb].
  ok_step H as o w1 Ho. apply read_object_Ok in Ho as [-> Ho].
  ok_step H as u w1 H1. apply ret_Ok in H as [_ ->].
  destruct (df b) as [l|].
  - ok_step H1 as f w2 Hf. apply read_frame_Ok in Hf as [-> Hf].
    ok_step H1 as g w2 Hg.
    assert (w2 = w) as ->.
    { destruct (df o) as [l2|]; [|now apply ret_Ok in Hg as [_ ->]].
      ok_step Hg as f2 w3 Hf2. apply read_frame_Ok in Hf2 as [-> _].
      now apply ret_Ok in Hg as [_ ->]. }
    rewrite (bind_Ok _ _ _ _ _ (new_frame_run _ _)) in H1.
    apply set_df_Ok in H1 as (b' & _ & ->). cbn [objects]. now rewrite length_insert.
  - apply set_df_Ok in H1 as (b' & _ & ->). cbn [objects]. now rewrite length_insert.
Qed.

(** C2 (amended). Ingestion as [load_local_catalog] does it, a new
    [Benchmark] built from the table read from a file and then [extend]: when
    the loading fails, it fails at one file; the files before it are loaded in
    full, and the failing one has changed neither the [Benchmark] object nor
    any table that was in the store before it was read. *)
Theorem failed_catalog_file_leaves_the_table :
  forall (a : assets) (parse : string -> option Q) (self : nat)
         (catalog : list (string * DataFrame)) (w w' : world) (e : exn),
    self < length (objects w) ->
    load_local_catalog a parse self catalog w = (Raise e, w') ->
    exists (done : list (string * DataFrame)) (file : string * DataFrame)
           (rest : list (string * DataFrame)) (w1 : world),
      catalog = done ++ file :: rest
      /\ load_local_catalog a parse self done w = (Ok tt, w1)
      /\ objects w' !! self = objects w1 !! self
      /\ forall l, l < length (frames w1) -> frames w' !! l = frames w1 !! l.
Proof.
  intros a parse self catalog. induction catalog as [|[file_name table] catalog IH];
    intros w w' e Hself H; [discriminate|].
  cbn [load_local_catalog] in H.
  rewrite (bind_Ok _ _ _ _ _ (new_frame_run table w)) in H.
  set (wa := {| frames := frames w ++ [table]; objects := objects w; stdout := stdout w |})
    in *.
  assert (Hstep : forall r wb,
             new_Benchmark a parse (length (frames w)) (Some file_name) false wa = (r, wb) ->
             preserved (length (frames w)) (length (objects w)) w wb).
  { intros r wb Hn.
    eapply preserved_trans;
      [|eapply (new_Benchmark_preserved a parse (length (frames w)) (length (objects w)));
        [| | |exact Hn]].
    - unfold preserved, wa. cbn [frames objects]. rewrite length_app.
      split_and!; auto; [|lia]. intros l Hl. apply lookup_app_l. lia.
    - lia.
    - unfold wa. cbn [frames]. rewrite length_app. lia.
    - unfold wa. cbn [objects]. lia. }
  apply bind_inv in H as [(other & wb & Hn & H)|(e' & Hn & _)].
  - pose proof (Hstep _ _ Hn) as (PF & PO & PL & PM).
    apply bind_inv in H as [(r & wc & Hext & H)|(e' & Hext & _)].
    + assert (Hself' : self < length (objects wc)).
      { rewrite (extend_Ok_objects _ _ _ _ _ Hext). lia. }
      destruct (IH wc w' e Hself' H) as (done & file & rest & w1 & -> & Hdone & Ho & Hf).
      exists ((file_name, table) :: done), file, rest, w1.
      split; [reflexivity|]. split; [|auto].
      cbn [load_local_catalog].
      rewrite (bind_Ok _ _ _ _ _ (new_frame_run table w)). fold wa.
      rewrite (bind_Ok _ _ _ _ _ Hn). rewrite (bind_Ok _ _ _ _ _ Hext). exact Hdone.
    + apply extend_Raise in Hext as ->.
      exists [], (file_name, table), catalog, w.
      split; [reflexivity|]. split; [reflexivity|]. split; [now apply PO|exact PF].
  - pose proof (Hstep _ _ Hn) as (PF & PO & PL & PM).
    exists [], (file_name, table), catalog, w.
    split; [reflexivity|]. split; [reflexivity|]. split; [now apply PO|exact PF].
Qed.

(** C2 (counterexample). [assign_df] called on a [Benchmark] that holds a table,
    with a table that fails the column check: the call raises [ValueError], and
    [self.df] is the rejected table, formatted, not the table it was. *)
Lemma failed_assign_df_rebinds_the_table :
  exists w',
    assign_df no_assets float_of_digits 0 1 (Some "s") true holding_one_score
    = (Raise (ValueError "DataFrame must contain the following columns"), w')
    /\ table_of holding_one_score 0 = Some one_score
    /\ table_of w' 0
       = Some [("model", [VStr "m2"]);
               ("scenario", [VStr "a"]);
               ("score", [VNum 2]);
               ("extra", [VStr "x"]);
               ("aggragated_from", [VList []]);
               ("source", [VStr "s"])].
Proof. eexists. vm_compute. repeat split; reflexivity. Qed.

(** The catalog path on the two failing tables: the table stays as it was. *)
Example failed_catalog_file_run :
  exists w',
    load_local_catalog no_assets float_of_digits 0
      [("ok.csv", three_models); ("bad.csv", not_a_number)] holding_one_score
    = (Raise (ValueError "score must be numeric"), w')
    /\ (nrows <$> table_of w' 0) = Some 7
    /\ stdout w' = [].
Proof. eexists. vm_compute. repeat split; reflexivity. Qed.

Lemma failed_catalog_file_leaves_the_table_witness :
  exists (done : list (string * DataFrame)) (file : string * DataFrame)
         (rest : list (string * DataFrame)) (w1 : world),
    [("ok.csv", three_models); ("bad.csv", not_a_number)] = done ++ file :: rest
    /\ load_local_catalog no_assets float_of_digits 0 done holding_one_score = (Ok tt, w1)
    /\ objects (snd (load_local_catalog no_assets float_of_digits 0
                       [("ok.csv", three_models); ("bad.csv", not_a_number)]
                       holding_one_score)) !! 0
       = objects w1 !! 0
    /\ forall l, l < length (frames w1) ->
         frames (snd (load_local_catalog no_assets float_of_digits 0
                        [("ok.csv", three_models); ("bad.csv", not_a_number)]
                        holding_one_score)) !! l
         = frames w1 !! l.
Proof.
  apply (failed_catalog_file_leaves_the_table no_assets float_of_digits 0
           [("ok.csv", three_models); ("bad.csv", not_a_number)] holding_one_score
           _ (ValueError "score must be numeric")).
  - simpl. lia.
  - vm_compute. reflexivity.
Defined.

(** ** Win rates in the aggregate *)






(** ** Standard names and lower-is-better sources *)

(** ** Characters of the standard names *)

Lemma all_chars_app (p : ascii -> bool) (s t : string) :
  all_chars p (s +:+ t) = all_chars p s && all_chars p t.
Proof.
  induction s as [|c s IH]; [reflexivity|].
  change (String c s +:+ t) with (String c (s +:+ t)).
  cbn [all_chars]. rewrite IH. now rewrite andb_assoc.
Qed.

Lemma all_chars_and (p q : ascii -> bool) (s : string) :
  all_chars (fun c => p c && q c) s = all_chars p s && all_chars q s.
Proof.
  induction s as [|c s IH]; [reflexivity|]. cbn [all_chars]. rewrite IH.
  destruct (p c), (q c), (all_chars p s), (all_chars q s); reflexivity.
Qed.

Lemma all_chars_replace_from (p : ascii -> bool) (old new : string) :
  all_chars p new = true ->
  forall (s : string) (skip : nat),
    all_chars p s = true -> all_chars p (PyStr.replace_from old new skip s) = true.
Proof.
  intros Hnew s. induction s as [|c s IH]; intros skip Hs; [reflexivity|].
  cbn [all_chars] in Hs. apply andb_true_iff in Hs as [Hc Hs].
  cbn [PyStr.replace_from]. destruct skip as [|k]; [|now apply IH].
  destruct (PyStr.starts_with old (String c s)).
  - rewrite all_chars_app, Hnew. now apply IH.
  - cbn [all_chars]. rewrite Hc. now apply IH.
Qed.

Lemma all_chars_intersperse (p : ascii -> bool) (new s : string) :
  all_chars p new = true -> all_chars p s = true ->
  all_chars p (PyStr.intersperse new s) = true.
Proof.
  intros Hnew. induction s as [|c s IH]; intros Hs; [exact Hnew|].
  cbn [all_chars] in Hs. apply andb_true_iff in Hs as [Hc Hs].
  cbn [PyStr.intersperse]. rewrite all_chars_app, Hnew. cbn [all_chars].
  rewrite Hc. now apply IH.
Qed.

(** A rule keeps a property of the characters that its new text has. *)
Lemma all_chars_replace (p : ascii -> bool) (old new s : string) :
  all_chars p new = true -> all_chars p s = true ->
  all_chars p (PyStr.replace old new s) = true.
Proof.
  intros Hnew Hs. destruct old; [now apply all_chars_intersperse|].
  now apply all_chars_replace_from.
Qed.

(** A rule for one character leaves none of it. *)
Lemma all_chars_replace_char (d : ascii) (new s : string) :
  all_chars (is_not d) new = true ->
  all_chars (is_not d) (PyStr.replace (String d EmptyString) new s) = true.
Proof.
  intros Hnew. cbn [PyStr.replace].
  induction s as [|c s IH]; [reflexivity|].
  cbn [PyStr.replace_from PyStr.starts_with String.length Nat.sub].
  destruct (Ascii.eqb d c) eqn:E.
  - now rewrite all_chars_app, Hnew.
  - cbn [all_chars]. rewrite IH. unfold is_not. rewrite Ascii.eqb_sym, E. reflexivity.
Qed.

Lemma contains_char (d : ascii) (s : string) :
  PyStr.contains (String d EmptyString) s = negb (all_chars (is_not d) s).
Proof.
  induction s as [|c s IH]; [reflexivity|].
  cbn [PyStr.contains PyStr.starts_with all_chars]. rewrite IH. unfold is_not.
  rewrite (Ascii.eqb_sym c d). now destruct (Ascii.eqb d c).
Qed.

Lemma all_chars_split_last (p : ascii -> bool) (sep : ascii) (s : string) :
  all_chars p s = true -> all_chars p (PyStr.split_last sep s) = true.
Proof.
  induction s as [|c s IH]; intros Hs; [reflexivity|].
  pose proof Hs as Hs'. cbn [all_chars] in Hs'. apply andb_true_iff in Hs' as [_ Hs'].
  cbn [PyStr.split_last]. destruct (Ascii.eqb c sep); [now apply IH|].
  destruct (PyStr.contains _ s); [now apply IH|exact Hs].
Qed.

(** What follows the last separator holds no separator. *)
Lemma split_last_no_sep (sep : ascii) (s : string) :
  all_chars (is_not sep) (PyStr.split_last sep s) = true.
Proof.
  induction s as [|c s IH]; [reflexivity|].
  cbn [PyStr.split_last]. destruct (Ascii.eqb c sep) eqn:E; [exact IH|].
  destruct (PyStr.contains _ s) eqn:C; [exact IH|].
  cbn [all_chars]. unfold is_not at 1. rewrite E. cbn [negb andb].
  rewrite contains_char in C. now apply negb_false_iff in C.
Qed.

Lemma is_upper_lower_char (c : ascii) : is_upper (PyStr.lower_char c) = false.
Proof. destruct c as [[] [] [] [] [] [] [] []]; vm_compute; reflexivity. Qed.

Lemma all_chars_lower (s : string) :
  all_chars (fun c => negb (is_upper c)) (PyStr.lower s) = true.
Proof.
  induction s as [|c s IH]; [reflexivity|].
  cbn [PyStr.lower all_chars]. now rewrite is_upper_lower_char, IH.
Qed.

(** A pattern that occurs in [s] has all its characters in [s]. *)
Lemma starts_with_all_chars (p : ascii -> bool) (pat s : string) :
  PyStr.starts_with pat s = true -> all_chars p s = true -> all_chars p pat = true.
Proof.
  revert s. induction pat as [|a pat IH]; intros s H Hs; [reflexivity|].
  destruct s as [|b s]; [discriminate|].
  cbn [PyStr.starts_with] in H. destruct (Ascii.eqb a b) eqn:E; [|discriminate].
  apply Ascii.eqb_eq in E. subst b.
  cbn [all_chars] in *. apply andb_true_iff in Hs as [-> Hs]. now apply (IH s).
Qed.

Lemma contains_all_chars (p : ascii -> bool) (pat s : string) :
  all_chars p s = true -> all_chars p pat = false -> PyStr.contains pat s = false.
Proof.
  intros Hs Hpat. induction s as [|c s IH].
  - destruct pat; [discriminate|reflexivity].
  - cbn [PyStr.contains].
    destruct (PyStr.starts_with pat (String c s)) eqn:E.
    + rewrite (starts_with_all_chars p pat _ E Hs) in Hpat. discriminate.
    + cbn [all_chars] in Hs. apply andb_true_iff in Hs as [_ Hs]. now apply IH.
Qed.

Ltac rule_keeps :=
  repeat first [ solve [apply all_chars_replace_char; reflexivity]
               | apply all_chars_replace; [reflexivity|]
               | apply all_chars_split_last ].

Lemma model_rules_no_slash (x : string) :
  all_chars (is_not "/") (model_rules_before_wml x) = true.
Proof.
  unfold model_rules_before_wml.
  do 5 (apply all_chars_replace; [reflexivity|]). apply split_last_no_sep.
Qed.

(** X1. The last rule of [standardize_model_name], [.replace("wml/", "")],
    never changes a name: the name it is applied to is what follows the last
    slash, so it holds no slash. *)
Theorem last_model_rule_never_applies :
  forall x : string,
    PyStr.contains "wml/" (model_rules_before_wml x) = false
    /\ standardize_model_name x = model_rules_before_wml x.
Proof.
  intros x.
  assert (H : PyStr.contains "wml/" (model_rules_before_wml x) = false).
  { apply (contains_all_chars (is_not "/")); [apply model_rules_no_slash|reflexivity]. }
  split; [exact H|].
  change (standardize_model_name x)
    with (PyStr.replace "wml/" "" (model_rules_before_wml x)).
  now apply replace_absent.
Qed.

(** X2. A standardised model name holds no upper-case ASCII letter, no space,
    no parenthesis, no slash and no dot, whatever the input. *)
Theorem standardize_model_name_chars :
  forall x : string, all_chars model_name_char (standardize_model_name x) = true.
Proof.
  intros x. unfold model_name_char.
  rewrite !all_chars_and. unfold standardize_model_name.
  repeat (apply andb_true_iff; split).
  - rule_keeps. apply all_chars_lower.
  - rule_keeps.
  - rule_keeps.
  - rule_keeps.
  - do 6 (apply all_chars_replace; [reflexivity|]). apply split_last_no_sep.
  - rule_keeps.
Qed.

(** X3. The key that [standardize_scenario_name] looks up in the display-name
    table holds no upper-case ASCII letter, no space, no parenthesis and no
    hyphen; the result is the entry of that key, or the key itself when the
    table has none. *)
Theorem standardize_scenario_name_key :
  forall (a : assets) (x : string),
    exists key : string,
      all_chars scenario_key_char key = true
      /\ standardize_scenario_name a x = default key (prettified_names a !! key).
Proof.
  intros a x. exists (scenario_rules x). split.
  - unfold scenario_key_char. rewrite !all_chars_and. unfold scenario_rules.
    repeat (apply andb_true_iff; split).
    + rule_keeps. apply all_chars_lower.
    + rule_keeps.
    + rule_keeps.
    + rule_keeps.
    + rule_keeps.
  - unfold standardize_scenario_name, get_nice_benchmark_name.
    now destruct (prettified_names a !! scenario_rules x).
Qed.

(** ** Case and surrounding white space *)

Lemma is_space_lower_char (c : ascii) : PyStr.is_space (PyStr.lower_char c) = PyStr.is_space c.
Proof. destruct c as [[] [] [] [] [] [] [] []]; vm_compute; reflexivity. Qed.

Lemma lower_char_idem (c : ascii) : PyStr.lower_char (PyStr.lower_char c) = PyStr.lower_char c.
Proof. destruct c as [[] [] [] [] [] [] [] []]; vm_compute; reflexivity. Qed.

Lemma lower_idem (s : string) : PyStr.lower (PyStr.lower s) = PyStr.lower s.
Proof.
  induction s as [|c s IH]; [reflexivity|].
  cbn [PyStr.lower]. now rewrite lower_char_idem, IH.
Qed.

Lemma lower_lstrip (s : string) : PyStr.lower (PyStr.lstrip s) = PyStr.lstrip (PyStr.lower s).
Proof.
  induction s as [|c s IH]; [reflexivity|].
  cbn [PyStr.lower PyStr.lstrip]. rewrite is_space_lower_char.
  destruct (PyStr.is_space c); [exact IH|reflexivity].
Qed.

Lemma lower_rstrip (s : string) : PyStr.lower (PyStr.rstrip s) = PyStr.rstrip (PyStr.lower s).
Proof.
  induction s as [|c s IH]; [reflexivity|].
  cbn [PyStr.lower PyStr.rstrip]. rewrite <- IH, is_space_lower_char.
  destruct (PyStr.rstrip s); cbn [PyStr.lower]; [|reflexivity].
  now destruct (PyStr.is_space c).
Qed.

Lemma lower_strip (s : string) : PyStr.lower (PyStr.strip s) = PyStr.strip (PyStr.lower s).
Proof. unfold PyStr.strip. now rewrite lower_rstrip, lower_lstrip. Qed.

Lemma lstrip_spaces (pad s : string) :
  all_chars PyStr.is_space pad = true -> PyStr.lstrip (pad +:+ s) = PyStr.lstrip s.
Proof.
  induction pad as [|c pad IH]; intros H; [reflexivity|].
  cbn [all_chars] in H. apply andb_true_iff in H as [Hc H].
  change (String c pad +:+ s) with (String c (pad +:+ s)).
  cbn [PyStr.lstrip]. rewrite Hc. now apply IH.
Qed.

Lemma rstrip_all_spaces (pad : string) :
  all_chars PyStr.is_space pad = true -> PyStr.rstrip pad = "".
Proof.
  induction pad as [|c pad IH]; intros H; [reflexivity|].
  cbn [all_chars] in H. apply andb_true_iff in H as [Hc H].
  cbn [PyStr.rstrip]. now rewrite (IH H), Hc.
Qed.

Lemma rstrip_spaces (s pad : string) :
  all_chars PyStr.is_space pad = true -> PyStr.rstrip (s +:+ pad) = PyStr.rstrip s.
Proof.
  intros H. induction s as [|c s IH]; [now apply rstrip_all_spaces|].
  change (String c s +:+ pad) with (String c (s +:+ pad)).
  cbn [PyStr.rstrip]. now rewrite IH.
Qed.

Lemma strip_right_spaces (s pad : string) :
  all_chars PyStr.is_space pad = true -> PyStr.strip (s +:+ pad) = PyStr.strip s.
Proof.
  intros H. unfold PyStr.strip. induction s as [|c s IH].
  - change ("" +:+ pad) with pad.
    rewrite <- (lstrip_spaces pad "" H). 
    replace (pad +:+ "") with pad; [reflexivity|].
    clear. induction pad as [|c pad IH]; [reflexivity|].
    change (String c pad +:+ "") with (String c (pad +:+ "")). now rewrite <- IH.
  - change (String c s +:+ pad) with (String c (s +:+ pad)).
    cbn [PyStr.lstrip]. destruct (PyStr.is_space c); [exact IH|].
    now apply (rstrip_spaces (String c s) pad).
Qed.

(** [strip] ignores white space around the name. *)
Lemma strip_spaces (left right s : string) :
  all_chars PyStr.is_space left = true -> all_chars PyStr.is_space right = true ->
  PyStr.strip (left +:+ s +:+ right) = PyStr.strip s.
Proof.
  intros Hl Hr. unfold PyStr.strip at 1. rewrite lstrip_spaces by exact Hl.
  now apply strip_right_spaces.
Qed.

(** X4. Both standardisers ignore the ASCII case of the name and the white
    space around it: two names that differ by these only get one standard
    name. *)
Theorem standardize_ignores_case_and_padding :
  forall (left right x y : string),
    all_chars PyStr.is_space left = true -> all_chars PyStr.is_space right = true ->
    PyStr.lower x = PyStr.lower y ->
    standardize_model_name (left +:+ x +:+ right) = standardize_model_name y
    /\ forall a : assets,
         standardize_scenario_name a (left +:+ x +:+ right) = standardize_scenario_name a y.
Proof.
  intros left right x y Hl Hr Hxy.
  assert (H : PyStr.lower (PyStr.strip (left +:+ x +:+ right)) = PyStr.lower (PyStr.strip y)).
  { rewrite (strip_spaces left right x Hl Hr), !lower_strip. now rewrite Hxy. }
  split; [|intros a]; unfold standardize_model_name, standardize_scenario_name, scenario_rules;
    now rewrite H.
Qed.

Lemma standardize_ignores_case_and_padding_witness :
  standardize_model_name ("  " +:+ "Meta-Llama-3-8B" +:+ " ")
  = standardize_model_name "meta-llama-3-8b"
  /\ forall a : assets,
       standardize_scenario_name a ("  " +:+ "Meta-Llama-3-8B" +:+ " ")
       = standardize_scenario_name a "meta-llama-3-8b".
Proof.
  apply (standardize_ignores_case_and_padding "  " " " "Meta-Llama-3-8B" "meta-llama-3-8b");
    reflexivity.
Defined.

(** ** Lower-is-better sources *)

Lemma replace_newline_no_newline (line : string) :
  all_chars (is_not (ascii_of_nat 10)) (PyStr.replace newline "" line) = true.
Proof. apply all_chars_replace_char. reflexivity. Qed.

Lemma replace_newline_end (name : string) :
  all_chars (is_not (ascii_of_nat 10)) name = true ->
  PyStr.replace newline "" (name +:+ newline) = name.
Proof.
  intros H. unfold newline. cbn [PyStr.replace].
  induction name as [|c name IH]; [reflexivity|].
  cbn [all_chars] in H. apply andb_true_iff in H as [Hc H].
  change (String c name +:+ String (ascii_of_nat 10) "")
    with (String c (name +:+ String (ascii_of_nat 10) "")).
  cbn [PyStr.replace_from PyStr.starts_with].
  unfold is_not in Hc. apply negb_true_iff in Hc. rewrite Ascii.eqb_sym in Hc.
  rewrite Hc. now rewrite (IH H).
Qed.

(** X5. [lower_os_better_for_source] holds of a source name exactly when the
    name is a line of the file, its line feeds removed, followed by [.csv];
    such a name has no line feed before the suffix.  So a line [name] ended by
    a line feed makes [name.csv] lower-is-better, and no source is when no
    name is given. *)
Theorem lower_os_better_for_source_spec :
  forall (a : assets),
    lower_os_better_for_source a None = false
    /\ (forall s : string,
           lower_os_better_for_source a (Some s) = true <->
           exists line stem,
             In line (lower_is_better_lines a)
             /\ stem = PyStr.replace newline "" line
             /\ all_chars (is_not (ascii_of_nat 10)) stem = true
             /\ s = stem +:+ ".csv")
    /\ (forall name : string,
           all_chars (is_not (ascii_of_nat 10)) name = true ->
           In (name +:+ newline) (lower_is_better_lines a) ->
           lower_os_better_for_source a (Some (name +:+ ".csv")) = true).
Proof.
  intros a.
  assert (Hiff : forall s,
             lower_os_better_for_source a (Some s) = true <->
             exists line, In line (lower_is_better_lines a)
                          /\ s = PyStr.replace newline "" line +:+ ".csv").
  { intros s. unfold lower_os_better_for_source, lower_is_better_sources.
    rewrite bool_decide_eq_true, list_elem_of_In, in_map_iff.
    split; intros (line & H1 & H2); exists line; auto. }
  split; [reflexivity|]. split.
  - intros s. rewrite Hiff. split.
    + intros (line & Hin & ->). exists line, (PyStr.replace newline "" line).
      split_and!; auto using replace_newline_no_newline.
    + intros (line & stem & Hin & -> & _ & ->). eauto.
  - intros name Hname Hin. apply Hiff. exists (name +:+ newline).
    split; [exact Hin|]. now rewrite replace_newline_end.
Qed.

Lemma lower_os_better_for_source_spec_witness :
  lower_os_better_for_source two_lower_is_better (Some "perplexity.csv") = true.
Proof.
  apply (proj2 (proj2 (lower_os_better_for_source_spec two_lower_is_better)) "perplexity").
  - reflexivity.
  - left. reflexivity.
Defined.

(** ** The constructor, validation and the catalog *)

(** ** The constructor *)

Lemma new_Benchmark_of_empty_table_run (a : assets) (parse : string -> option Q) (df0 : nat)
    (data_source : option string) (normalized_names : bool) (w : world) (f : DataFrame) :
  frames w !! df0 = Some f -> nrows f = 0 ->
  new_Benchmark a parse df0 data_source normalized_names w
  = (Ok (length (objects w)),
     {| frames := frames w;
        objects := objects w ++ [{| is_empty := true; df := None |}];
        stdout := stdout w |}).
Proof.
  intros Hf Hn.
  unfold new_Benchmark, bind, new_object, read_frame. cbn [frames].
  rewrite Hf, Hn. reflexivity.
Qed.

(** X6. [Benchmark(df, ...)] on a table without rows gives an empty
    [Benchmark] ([is_empty] set, [df] unbound): no check runs, whatever the
    columns and the data source, and nothing else changes. *)
Theorem new_Benchmark_of_empty_table :
  forall (a : assets) (parse : string -> option Q) (df0 : nat)
         (data_source : option string) (normalized_names : bool)
         (w : world) (f : DataFrame),
    frames w !! df0 = Some f ->
    nrows f = 0 ->
    new_Benchmark a parse df0 data_source normalized_names w
    = (Ok (length (objects w)), with_empty_object w).
Proof.
  intros a parse df0 ds nn w f Hf Hn.
  now apply (new_Benchmark_of_empty_table_run _ _ _ _ _ _ f).
Qed.

Lemma new_Benchmark_of_empty_table_witness :
  new_Benchmark no_assets float_of_digits 0 None false (world_of [no_rows])
  = (Ok 0, with_empty_object (world_of [no_rows])).
Proof.
  apply (new_Benchmark_of_empty_table no_assets float_of_digits 0 None false
           (world_of [no_rows]) no_rows); reflexivity.
Defined.

(** X7. What the constructor refuses before it touches the table.  On a table
    with rows: without a data source and a [source] column the assertion
    fails; otherwise an [Unnamed: 0] column is a [ValueError] (so the drop of
    that column in [validate_dataframe_post_formatting] is never reached from
    the constructor), and so is a [score] column that holds a string, the
    sentinel ["-"] included.  In each case the table is as it was. *)
Theorem new_Benchmark_rejects_before_formatting :
  forall (a : assets) (parse : string -> option Q) (df0 : nat)
         (data_source : option string) (normalized_names : bool)
         (w : world) (f : DataFrame),
    frames w !! df0 = Some f ->
    (0 < nrows f)%nat ->
    (truthy data_source || has_col "source" f = false ->
     new_Benchmark a parse df0 data_source normalized_names w
     = (Raise (AssertionError "A datasource must be inputted with a df"),
        with_empty_object w))
    /\ (truthy data_source || has_col "source" f = true ->
        has_col "Unnamed: 0" f = true ->
        new_Benchmark a parse df0 data_source normalized_names w
        = (Raise (ValueError "DataFrame should not contain 'Unnamed: 0' column"),
           with_empty_object w))
    /\ (truthy data_source || has_col "source" f = true ->
        forall vs, get_col "score" f = Some vs -> forallb is_number vs = false ->
        exists msg,
          new_Benchmark a parse df0 data_source normalized_names w
          = (Raise (ValueError msg), with_empty_object w)).
Proof.
  intros a parse df0 ds nn w f Hf Hn.
  apply Nat.ltb_lt in Hn.
  split_and!.
  - intros Hs.
    unfold new_Benchmark, bind, new_object, read_frame. cbn [frames].
    rewrite Hf, Hn. cbn [when]. rewrite Hs. reflexivity.
  - intros Hs Hu.
    unfold new_Benchmark, bind, new_object, read_frame. cbn [frames].
    rewrite Hf, Hn. cbn [when]. rewrite Hs. cbn [assert ret].
    unfold validate_df_pre_formatting, bind, read_frame. cbn [frames].
    rewrite Hf, Hu. reflexivity.
  - intros Hs vs Hvs Hnum.
    unfold new_Benchmark, bind, new_object, read_frame. cbn [frames].
    rewrite Hf, Hn. cbn [when]. rewrite Hs. cbn [assert ret].
    unfold validate_df_pre_formatting, bind, read_frame. cbn [frames].
    rewrite Hf, Hvs, Hnum.
    destruct (has_col "Unnamed: 0" f); [eexists; reflexivity|]. cbn [ret].
    destruct (negb (has_col "model" f)); [eexists; reflexivity|]. cbn [ret].
    destruct (negb (has_col "scenario" f) && _); eexists; reflexivity.
Qed.

Lemma new_Benchmark_rejects_before_formatting_witness :
  exists msg,
    new_Benchmark no_assets float_of_digits 0 (Some "s") false (world_of [sentinel_scores])
    = (Raise (ValueError msg), with_empty_object (world_of [sentinel_scores])).
Proof.
  apply (proj2 (proj2 (new_Benchmark_rejects_before_formatting no_assets float_of_digits 0
                         (Some "s") false (world_of [sentinel_scores]) sentinel_scores
                         eq_refl ltac:(simpl; lia)))
           eq_refl [VStr "-"; VNum 7]); reflexivity.
Defined.

(** ** [assign_df] *)

(** X8. [assign_df] wants the model column first: on a table whose first
    column has another name the assertion fails with nothing changed, also
    when the table has the model column elsewhere; a table without columns
    is an [IndexError]. *)
Theorem assign_df_wants_model_first :
  forall (a : assets) (parse : string -> option Q) (self df0 : nat)
         (data_source : option string) (normalized_names : bool)
         (w : world) (f : DataFrame),
    frames w !! df0 = Some f ->
    head (columns f) <> Some "model" ->
    assign_df a parse self df0 data_source normalized_names w
    = (Raise (match columns f with
              | [] => IndexError
              | _ => AssertionError "the zeroth df column mush be model"
              end), w).
Proof.
  intros a parse self df0 ds nn w f Hf Hhead.
  unfold assign_df. rewrite (bind_Ok _ _ _ _ _ (read_frame_run _ _ _ Hf)).
  destruct (columns f) as [|c0 cs]; [reflexivity|].
  destruct (String.eqb c0 "model") eqn:E.
  - apply String.eqb_eq in E. subst c0. now contradiction Hhead.
  - reflexivity.
Qed.

Lemma assign_df_wants_model_first_witness :
  assign_df no_assets float_of_digits 0 0 (Some "s") false
    {| frames := [scenario_first]; objects := [{| is_empty := true; df := None |}];
       stdout := [] |}
  = (Raise (AssertionError "the zeroth df column mush be model"),
     {| frames := [scenario_first]; objects := [{| is_empty := true; df := None |}];
        stdout := [] |}).
Proof.
  apply (assign_df_wants_model_first no_assets float_of_digits 0 0 (Some "s") false
           {| frames := [scenario_first]; objects := [{| is_empty := true; df := None |}];
              stdout := [] |} scenario_first eq_refl).
  simpl. discriminate.
Defined.

(** ** Validation of a clean table *)

Lemma insert_same {A} (l : list A) (i : nat) (x : A) :
  l !! i = Some x -> <[i := x]> l = l.
Proof. apply list_insert_id. Qed.

(** X9. On a table that is already formatted (no index artifact, the five
    columns, [tag] apart, no duplicate (model, scenario, source), a numeric
    score column) [validate_dataframe_post_formatting] returns normally and
    changes nothing: no warning, no new table. *)
Theorem validation_of_a_clean_table :
  forall (self : nat) (w : world) (b : Benchmark) (l : nat) (f : DataFrame)
         (vs : list value),
    objects w !! self = Some b -> df b = Some l -> frames w !! l = Some f ->
    has_col "Unnamed: 0" f = false ->
    columns_ok f = true ->
    has_duplicates f = false ->
    get_col "score" f = Some vs ->
    forallb is_number vs = true ->
    validate_dataframe_post_formatting self w = (Ok tt, w).
Proof.
  intros self w b l f vs Hb Hl Hf Hu Hc Hd Hs Hn.
  rewrite (validate_run self w b l f Hb Hl Hf).
  unfold without_index_column, drop_index_column, without_index_column.
  rewrite Hu. cbv zeta. rewrite Hc, Hd. cbn [negb].
  unfold check_score_numeric. rewrite Hs, Hn. cbn [negb]. unfold ret.
  rewrite (insert_same _ _ _ Hf). now rewrite world_eta.
Qed.

Lemma validation_of_a_clean_table_witness :
  validate_dataframe_post_formatting 0 holding_formatted = (Ok tt, holding_formatted).
Proof.
  apply (validation_of_a_clean_table 0 holding_formatted {| is_empty := false; df := Some 0 |}
           0 one_score [VNum 1]); reflexivity.
Defined.

(** ** [extend] and the catalog *)

Lemma extend_Ok_effects (self other : nat) (w w' : world) (r : nat) (b o : Benchmark) :
  objects w !! self = Some b -> objects w !! other = Some o ->
  extend self other w = (Ok r, w') ->
  r = self /\ stdout w' = stdout w
  /\ (forall l f, frames w !! l = Some f -> frames w' !! l = Some f)
  /\ (forall x, x <> self -> objects w' !! x = objects w !! x)
  /\ exists b',
       objects w' !! self = Some b' /\ is_empty b' = is_empty b
       /\ (df b = None -> df b' = df o /\ frames w' = frames w)
       /\ (forall l, df b = Some l ->
             exists f g,
               frames w !! l = Some f
               /\ df b' = Some (length (frames w))
               /\ frames w' = frames w ++ [g]
               /\ (df o = None -> g = f)
               /\ (forall l2 f2, df o = Some l2 -> frames w !! l2 = Some f2 ->
                                 g = concat_frames f f2)).
Proof.
  intros Hb Ho H. unfold extend in H.
  rewrite (bind_Ok _ _ _ _ _ (read_object_run _ _ _ Hb)) in H.
  rewrite (bind_Ok _ _ _ _ _ (read_object_run _ _ _ Ho)) in H.
  ok_step H as u w1 H1. apply ret_Ok in H as [-> ->].
  assert (Hlt : self < length (objects w)) by (eapply lookup_lt_Some; eauto).
  destruct (df b) as [l|] eqn:Edf.
  - ok_step H1 as f w2 Hf. apply read_frame_Ok in Hf as [-> Hf].
    ok_step H1 as g w2 Hg.
    assert (Hg' : w2 = w /\ (df o = None -> g = f)
                  /\ (forall l2 f2, df o = Some l2 -> frames w !! l2 = Some f2 ->
                                    g = concat_frames f f2)).
    { destruct (df o) as [l2|].
      - ok_step Hg as f2 w3 Hf2. apply read_frame_Ok in Hf2 as [-> Hf2].
        apply ret_Ok in Hg as [-> ->]. split_and!; [reflexivity|discriminate|].
        intros l2' f2' [= <-] Hf2'. rewrite Hf2 in Hf2'. now injection Hf2' as <-.
      - apply ret_Ok in Hg as [-> ->]. split_and!; [reflexivity|reflexivity|discriminate]. }
    destruct Hg' as (-> & HgN & HgS).
    rewrite (bind_Ok _ _ _ _ _ (new_frame_run _ _)) in H1.
    erewrite set_df_run in H1 by exact Hb. injection H1 as _ <-.
    cbn [frames objects stdout].
    split_and!; [reflexivity|reflexivity| | |].
    + intros l0 f0 Hl0. rewrite lookup_app_l; [exact Hl0|]. eapply lookup_lt_Some; eauto.
    + intros x Hx. now rewrite list_lookup_insert_ne.
    + eexists. split; [now apply list_lookup_insert_eq|]. cbn [is_empty df].
      split_and!; [reflexivity|discriminate|].
      intros l0 [= <-]. exists f, g. auto.
  - erewrite set_df_run in H1 by exact Hb. injection H1 as _ <-.
    cbn [frames objects stdout].
    split_and!; [reflexivity|reflexivity|auto| |].
    + intros x Hx. now rewrite list_lookup_insert_ne.
    + eexists. split; [now apply list_lookup_insert_eq|]. cbn [is_empty df].
      split_and!; [reflexivity|auto|discriminate].
Qed.

(** X10. What a successful [extend] does: it returns [self], prints nothing,
    changes no table and no other object, and never touches [is_empty].  An
    empty [Benchmark] takes the table of the other by reference, so the two
    objects share one table; otherwise [self.df] is bound to a new table, the
    concatenation (or the old table itself when the other is empty). *)
Theorem extend_shares_or_concatenates :
  forall (self other : nat) (w w' : world) (r : nat) (b o : Benchmark),
    objects w !! self = Some b -> objects w !! other = Some o ->
    extend self other w = (Ok r, w') ->
    r = self /\ stdout w' = stdout w
    /\ (forall l f, frames w !! l = Some f -> frames w' !! l = Some f)
    /\ (forall x, x <> self -> objects w' !! x = objects w !! x)
    /\ exists b',
         objects w' !! self = Some b' /\ is_empty b' = is_empty b
         /\ (df b = None -> df b' = df o /\ frames w' = frames w)
         /\ (forall l, df b = Some l ->
               exists f g,
                 frames w !! l = Some f
                 /\ df b' = Some (length (frames w))
                 /\ frames w' = frames w ++ [g]
                 /\ (df o = None -> g = f)
                 /\ (forall l2 f2, df o = Some l2 -> frames w !! l2 = Some f2 ->
                                   g = concat_frames f f2)).
Proof. exact extend_Ok_effects. Qed.

Lemma extend_shares_or_concatenates_witness :
  exists b',
    objects (snd (extend 0 1 {| frames := [one_score];
                                objects := [{| is_empty := true; df := None |};
                                            {| is_empty := false; df := Some 0 |}];
                                stdout := [] |})) !! 0 = Some b'
    /\ is_empty b' = true /\ df b' = Some 0.
Proof.
  destruct (extend_shares_or_concatenates 0 1
              {| frames := [one_score];
                 objects := [{| is_empty := true; df := None |};
                             {| is_empty := false; df := Some 0 |}];
                 stdout := [] |}
              _ 0 {| is_empty := true; df := None |} {| is_empty := false; df := Some 0 |}
              eq_refl eq_refl eq_refl)
    as (_ & _ & _ & _ & b' & Hb' & He & Hnone & _).
  exists b'. split; [exact Hb'|]. split; [exact He|].
  exact (proj1 (Hnone eq_refl)).
Defined.

Lemma load_local_catalog_is_empty (a : assets) (parse : string -> option Q) (self : nat)
    (catalog : list (string * DataFrame)) :
  forall (w w' : world) (r : result unit),
    self < length (objects w) ->
    load_local_catalog a parse self catalog w = (r, w') ->
    self < length (objects w')
    /\ (is_empty <$> objects w' !! self) = (is_empty <$> objects w !! self).
Proof.
  induction catalog as [|[file_name table] catalog IH]; intros w w' r Hself H.
  { cbn [load_local_catalog] in H. injection H as _ <-. auto. }
  cbn [load_local_catalog] in H.
  rewrite (bind_Ok _ _ _ _ _ (new_frame_run table w)) in H.
  set (wa := {| frames := frames w ++ [table]; objects := objects w; stdout := stdout w |})
    in *.
  apply bind_inv in H as [(other & w1 & Hnew & H)|(e & Hnew & ->)].
  - pose proof (fun H1 H2 H3 =>
                  new_Benchmark_preserved a parse 0 (length (objects w)) _ _ _ _ _ _
                    H1 H2 H3 Hnew) as P.
    destruct (P ltac:(lia) ltac:(lia) ltac:(cbn; lia)) as (_ & Pobj & _ & Plen). clear P.
    cbn [objects wa] in Pobj, Plen.
    assert (Hself1 : objects w1 !! self = objects w !! self) by now apply Pobj.
    destruct (lookup_lt_is_Some_2 (objects w) self Hself) as [b Hb].
    apply bind_inv in H as [(r1 & w2 & Hext & H)|(e & Hext & ->)].
    + assert (Ho : exists o, objects w1 !! other = Some o).
      { pose proof Hext as He. unfold extend in He.
        ok_step He as b1 w3 Hb1. apply read_object_Ok in Hb1 as [-> _].
        ok_step He as o w3 Ho. apply read_object_Ok in Ho as [-> Ho]. eauto. }
      destruct Ho as [o Ho].
      rewrite Hb in Hself1.
      destruct (extend_Ok_effects self other w1 w2 r1 b o Hself1 Ho Hext)
        as (_ & _ & _ & _ & b' & Hb' & He & _).
      assert (Hlen2 : self < length (objects w2)) by (eapply lookup_lt_Some; eauto).
      destruct (IH w2 w' r Hlen2 H) as [Hl' Hq]. split; [exact Hl'|].
      rewrite Hq, Hb', Hb. cbn. now rewrite He.
    + apply extend_Raise in Hext as ->. split; [lia|]. now rewrite Hself1.
  - pose proof (fun H1 H2 H3 =>
                  new_Benchmark_preserved a parse 0 (length (objects w)) _ _ _ _ _ _
                    H1 H2 H3 Hnew) as P.
    destruct (P ltac:(lia) ltac:(lia) ltac:(cbn; lia)) as (_ & Pobj & _ & Plen). clear P.
    cbn [objects wa] in Pobj, Plen. split; [lia|]. now rewrite Pobj.
Qed.

(** X11. [load_local_catalog] never updates [is_empty], whether it succeeds or
    fails; so after [b = Benchmark(); b.load_local_catalog()] the object [b]
    still says that it is empty, whatever the catalog put into its table. *)
Theorem load_local_catalog_keeps_is_empty :
  (forall (a : assets) (parse : string -> option Q) (self : nat)
          (catalog : list (string * DataFrame)) (w w' : world) (r : result unit),
      self < length (objects w) ->
      load_local_catalog a parse self catalog w = (r, w') ->
      (is_empty <$> objects w' !! self) = (is_empty <$> objects w !! self))
  /\ (forall (a : assets) (parse : string -> option Q)
            (catalog : list (string * DataFrame)) (w w' : world) (b : nat),
        main a parse catalog w = (Ok b, w') ->
        (is_empty <$> objects w' !! b) = Some true).
Proof.
  split.
  - intros a parse self catalog w w' r Hself H.
    exact (proj2 (load_local_catalog_is_empty a parse self catalog w w' r Hself H)).
  - intros a parse catalog w w' b H. unfold main in H.
    rewrite (bind_Ok _ _ _ _ _ (new_frame_run [] w)) in H.
    assert (Hl : frames {| frames := frames w ++ [[]]; objects := objects w;
                           stdout := stdout w |} !! length (frames w) = Some []).
    { cbn [frames]. rewrite lookup_app_r by reflexivity. now rewrite Nat.sub_diag. }
    rewrite (bind_Ok _ _ _ _ _
               (new_Benchmark_of_empty_table_run a parse _ None false _ [] Hl eq_refl)) in H.
    cbn [frames objects stdout] in H.
    ok_step H as u w1 Hload. apply ret_Ok in H as [-> ->].
    apply load_local_catalog_is_empty in Hload as [_ ->].
    + cbn [objects]. rewrite lookup_app_r by reflexivity. now rewrite Nat.sub_diag.
    + cbn [objects]. rewrite length_app. cbn [length]. lia.
Qed.

Lemma load_local_catalog_keeps_is_empty_witness :
  (is_empty <$> objects (snd (main no_assets float_of_digits [("a.csv", three_models)]
                                (world_of []))) !! 0) = Some true
  /\ (nrows <$> table_of (snd (main no_assets float_of_digits [("a.csv", three_models)]
                                 (world_of []))) 0) = Some 6.
Proof.
  split.
  - apply (proj2 load_local_catalog_keeps_is_empty no_assets float_of_digits
             [("a.csv", three_models)] (world_of []) _ 0).
    vm_compute. reflexivity.
  - vm_compute. reflexivity.
Defined.

(** ** The aggregate *)

(** ** [add_aggregate] *)

Lemma read_only_ret {A} (a : A) : read_only (ret a).
Proof. intros w r w' [= _ <-]. reflexivity. Qed.

Lemma read_only_raise {A} (e : exn) : read_only (raise (A := A) e).
Proof. intros w r w' [= _ <-]. reflexivity. Qed.

Lemma read_only_lift {A} (x : result A) : read_only (lift x).
Proof. intros w r w' [= _ <-]. reflexivity. Qed.

Lemma read_only_assert (c : bool) (msg : string) : read_only (assert c msg).
Proof. destruct c; [apply read_only_ret|apply read_only_raise]. Qed.

Lemma read_only_read_frame (l : nat) : read_only (read_frame l).
Proof. intros w r w'. unfold read_frame. destruct (frames w !! l); now intros [= _ <-]. Qed.

Lemma read_only_read_object (o : nat) : read_only (read_object o).
Proof. intros w r w'. unfold read_object. destruct (objects w !! o); now intros [= _ <-]. Qed.

Lemma read_only_bind {A B} (m : M A) (k : A -> M B) :
  read_only m -> (forall a, read_only (k a)) -> read_only (bind m k).
Proof.
  intros Hm Hk w r w' H. unfold bind in H.
  destruct (m w) as [[a|e] w1] eqn:E; apply Hm in E as ->.
  - now apply Hk in H.
  - now injection H as _ <-.
Qed.

Lemma read_only_self_df (self : nat) : read_only (self_df self).
Proof.
  apply read_only_bind; [apply read_only_read_object|].
  intros b. destruct (df b); [apply read_only_ret|apply read_only_raise].
Qed.

(** A step of a program whose first part is read-only *)
Lemma bind_read_only {A B} (m : M A) (k : A -> M B) (w w' : world) (r : result B) :
  read_only m -> bind m k w = (r, w') ->
  (exists a, m w = (Ok a, w) /\ k a w = (r, w'))
  \/ (w' = w /\ exists e, r = Raise e /\ m w = (Raise e, w)).
Proof.
  intros Hm H. unfold bind in H.
  destruct (m w) as [[a|e] w1] eqn:E; pose proof (Hm _ _ _ E) as ->.
  - left. eauto.
  - right. injection H as <- <-. eauto.
Qed.

Lemma read_only_query (self : nat) (keep_in : bool) (l : list value) :
  read_only (l0 <- self_df self ;; f <- read_frame l0 ;;
             g <- lift (query_in "scenario" keep_in l f) ;; ret (Some g)).
Proof.
  apply read_only_bind; [apply read_only_self_df|]. intros l0.
  apply read_only_bind; [apply read_only_read_frame|]. intros f.
  apply read_only_bind; [apply read_only_lift|]. intros g. apply read_only_ret.
Qed.

Lemma mean_by_model_shape (f m : DataFrame) :
  mean_by_model f = Ok m ->
  exists models scores wrs,
    m = [("model", models); ("score", scores); ("wr", wrs)].
Proof.
  unfold mean_by_model, groupby_agg. intros H.
  destruct (get_col "score" f) as [ss|]; [|discriminate]. cbn [rbind] in H.
  destruct (rmapM _ _) as [out|]; [|discriminate]. cbn [rbind] in H.
  destruct (get_col "wr" f) as [ws|]; [|discriminate]. cbn [rbind] in H.
  destruct (rmapM _ _) as [out2|]; [|discriminate]. cbn [rbind] in H.
  injection H as <-. cbn. eauto.
Qed.

Tactic Notation "ro_step" hyp(H) "as" ident(a) ident(Hm) "by" tactic3(tac) :=
  apply bind_read_only in H; [|solve [tac]];
  destruct H as [(a & Hm & H)|(-> & ?e & -> & Hm)]; [|left; eauto].

Ltac ro_match :=
  repeat match goal with
         | |- read_only (if ?c then _ else _) => destruct c
         | |- read_only (match ?x with _ => _ end) => destruct x
         | |- _ => first [apply read_only_ret|apply read_only_raise|apply read_only_query]
         end.

(** What [add_aggregate] does, on success and on failure *)
Lemma add_aggregate_inv (self : nat) (new_col_name : string)
    (blacklist whitelist : list value) (mean_or_mwr : string)
    (agg_source_name : option string) (min_scenarios : Z) (w w' : world)
    (r : result unit) :
  add_aggregate self new_col_name blacklist whitelist mean_or_mwr agg_source_name
    min_scenarios w = (r, w') ->
  (w' = w /\ exists e, r = Raise e)
  \/ exists (b : Benchmark) (l : nat) (f : DataFrame)
            (all_scenarios models scores : list value) (source : value),
       objects w !! self = Some b /\ df b = Some l /\ frames w !! l = Some f
       /\ get_col "scenario" f = Some all_scenarios
       /\ r = Ok tt
       /\ w' = {| frames := frames w
                            ++ [concat_frames f
                                  (aggregate_records new_col_name blacklist all_scenarios
                                     models scores source)];
                  objects := <[self := {| is_empty := is_empty b;
                                          df := Some (length (frames w)) |}]> (objects w);
                  stdout := stdout w |}
       /\ (if truthy agg_source_name then source = VStr (default "" agg_source_name)
           else exists srcs, get_col "source" f = Some srcs /\ unique srcs = [source]).
Proof.
  intros H. unfold add_aggregate in H.
  ro_step H as u0 H0 by (apply read_only_assert).
  ro_step H as sel Hsel by ro_match.
  ro_step H as agg1 Hagg1 by ro_match.
  ro_step H as scenarios Hscen by ro_match.
  cbv zeta in H.
  ro_step H as considered Hcons by (apply read_only_lift).
  ro_step H as agg2 Hagg2 by (apply read_only_lift).
  ro_step H as scores0 Hscores by ro_match.
  ro_step H as wr Hwr by (apply read_only_lift).
  ro_step H as mean_df Hmean by (apply read_only_lift).
  injection Hmean as Hmean. apply mean_by_model_shape in Hmean.
  destruct Hmean as (models & scores & wrs & ->).
  ro_step H as l Hl by (apply read_only_self_df).
  apply self_df_Ok in Hl as (_ & b & Hb & Hl).
  ro_step H as f Hf by (apply read_only_read_frame).
  apply read_frame_Ok in Hf as (_ & Hf).
  ro_step H as all_scenarios Hall by ro_match.
  destruct (get_col "scenario" f) as [all_scenarios'|] eqn:Eall; [|discriminate].
  injection Hall as ->.
  ro_step H as mean_df' Hsrc by ro_match.
  rewrite (bind_Ok _ _ _ _ _ (new_frame_run _ _)) in H.
  erewrite set_df_run in H by exact Hb. injection H as <- <-.
  right.
  set (score_col := default [] (get_col (if String.eqb mean_or_mwr "mwr" then "wr" else "score")
                                  [("model", models); ("score", scores); ("wr", wrs)])) in *.
  assert (Hs : exists source,
             drop_col "wr" mean_df'
             = aggregate_records new_col_name blacklist all_scenarios models
                 score_col source
             /\ (if truthy agg_source_name then source = VStr (default "" agg_source_name)
                 else exists srcs, get_col "source" f = Some srcs /\ unique srcs = [source])).
  { destruct (truthy agg_source_name).
    - injection Hsrc as <-. eexists. split; [|reflexivity]. reflexivity.
    - destruct (get_col "source" f) as [srcs|]; [|discriminate].
      destruct (unique srcs) as [|src [|? ?]] eqn:Eu; try discriminate.
      injection Hsrc as <-. exists src. split; [reflexivity|]. eauto. }
  destruct Hs as (source & -> & Hsource).
  exists b, l, f, all_scenarios, models, score_col, source.
  split_and!; auto.
Qed.

Lemma get_col_app_l (c : string) (f g : DataFrame) (vs : list value) :
  get_col c f = Some vs -> get_col c (f ++ g) = Some vs.
Proof.
  induction f as [|[n ws] f IH]; [discriminate|].
  cbn [get_col app]. destruct (String.eqb n c); auto.
Qed.

(** [pd.concat] keeps the cells of the first table, column by column, and
    puts the cells of the second one after them. *)
Lemma get_col_concat_frames_l (c : string) (f1 f2 : DataFrame) (vs : list value) :
  get_col c f1 = Some vs ->
  get_col c (concat_frames f1 f2)
  = Some (vs ++ default (replicate (nrows f2) VNaN) (get_col c f2)).
Proof.
  intros H. unfold concat_frames. apply get_col_app_l.
  induction f1 as [|[n ws] f1 IH]; [discriminate|].
  cbn [get_col map fst snd] in *.
  destruct (String.eqb n c) eqn:E.
  - apply String.eqb_eq in E. subst n. now injection H as ->.
  - now apply IH.
Qed.

(** X12. An [add_aggregate] that raises, whatever the exception (both lists
    given, no list given, a scenario with one model, several sources without
    [agg_source_name], ...), leaves the object, all tables and the printed
    lines as they were. *)
Theorem add_aggregate_failure_changes_nothing :
  forall (self : nat) (new_col_name : string) (blacklist whitelist : list value)
         (mean_or_mwr : string) (agg_source_name : option string) (min_scenarios : Z)
         (w w' : world) (e : exn),
    add_aggregate self new_col_name blacklist whitelist mean_or_mwr agg_source_name
      min_scenarios w = (Raise e, w') ->
    w' = w.
Proof.
  intros self new_col_name blacklist whitelist mean_or_mwr agg_source_name min_scenarios
    w w' e H.
  apply add_aggregate_inv in H as [[-> _]|(b & l & f & sc & ms & ss & src & H)]; [reflexivity|].
  destruct H as (_ & _ & _ & _ & Hr & _). discriminate.
Qed.

Lemma add_aggregate_failure_changes_nothing_witness :
  snd (add_aggregate 0 "agg" [VStr "a"] [VStr "b"] "mwr" None 0 holding_formatted)
  = holding_formatted.
Proof.
  apply (add_aggregate_failure_changes_nothing 0 "agg" [VStr "a"] [VStr "b"] "mwr" None 0
           holding_formatted _
           (AssertionError "either scenario_blacklist or scenario_whitelist can be inputted, but not both")).
  vm_compute. reflexivity.
Defined.

(** X13. A successful [add_aggregate] only appends.  [self.df] is bound to a
    new table: every column of the old table keeps its cells, in order, and
    gets one cell per aggregated model after them (a missing value in a
    column that the aggregate records do not have, such as [tag]); the old
    table object is not modified.  The aggregate records carry the new name
    as scenario, the given source (or the only source of the table), and in
    [aggragated_from] the scenarios of the whole table that are not in the
    blacklist, whatever the whitelist. *)
Theorem add_aggregate_appends :
  forall (self : nat) (new_col_name : string) (blacklist whitelist : list value)
         (mean_or_mwr : string) (agg_source_name : option string) (min_scenarios : Z)
         (w w' : world),
    add_aggregate self new_col_name blacklist whitelist mean_or_mwr agg_source_name
      min_scenarios w = (Ok tt, w') ->
    exists (b : Benchmark) (l : nat) (f : DataFrame)
           (all_scenarios models scores : list value) (source : value),
      let records := aggregate_records new_col_name blacklist all_scenarios
                       models scores source in
      objects w !! self = Some b /\ df b = Some l /\ frames w !! l = Some f
      /\ get_col "scenario" f = Some all_scenarios
      /\ w' = {| frames := frames w ++ [concat_frames f records];
                 objects := <[self := {| is_empty := is_empty b;
                                         df := Some (length (frames w)) |}]> (objects w);
                 stdout := stdout w |}
      /\ table_of w' self = Some (concat_frames f records)
      /\ frames w' !! l = Some f
      /\ (forall c vs, get_col c f = Some vs ->
            get_col c (concat_frames f records)
            = Some (vs ++ default (replicate (length models) VNaN) (get_col c records)))
      /\ (if truthy agg_source_name then source = VStr (default "" agg_source_name)
          else exists srcs, get_col "source" f = Some srcs /\ unique srcs = [source]).
Proof.
  intros self new_col_name blacklist whitelist mean_or_mwr agg_source_name min_scenarios
    w w' H.
  apply add_aggregate_inv in H as [[_ [e He]]|(b & l & f & sc & ms & ss & src & H)];
    [discriminate|].
  destruct H as (Hb & Hl & Hf & Hsc & _ & -> & Hsrc).
  exists b, l, f, sc, ms, ss, src. cbv zeta.
  assert (Hlt : self < length (objects w)) by (eapply lookup_lt_Some; eauto).
  split_and!; auto.
  - now apply table_of_new.
  - cbn [frames]. apply lookup_app_l_Some. exact Hf.
  - intros c vs Hc. now rewrite (get_col_concat_frames_l c f _ vs Hc).
Qed.

Lemma add_aggregate_appends_witness :
  exists (f : DataFrame) (all_scenarios models scores : list value) (source : value),
    table_of (snd (aggregate_whitelist (world_of [three_models]))) 0
    = Some (concat_frames f
              (aggregate_records "agg" [] all_scenarios models scores source)).
Proof.
  destruct (add_aggregate_appends 0 "agg" [] [VStr "taska"] "mwr" None 0
              (snd (new_Benchmark no_assets float_of_digits 0 (Some "src") false
                      (world_of [three_models])))
              (snd (aggregate_whitelist (world_of [three_models])))
              ltac:(vm_compute; reflexivity))
    as (b & l & f & sc & ms & ss & src & _ & _ & _ & _ & _ & HT & _).
  exists f, sc, ms, ss, src. exact HT.
Defined.

(** ** Normalization row by row *)

(** ** Normalization row by row *)











Lemma set_col_set_col (c : string) (vs ws : list value) (f : DataFrame) :
  set_col c vs (set_col c ws f) = set_col c vs f.
Proof.
  induction f as [|[n us] f IH].
  - cbn [set_col]. now rewrite String.eqb_refl.
  - cbn [set_col]. destruct (String.eqb n c) eqn:E; cbn [set_col]; rewrite E; [reflexivity|].
    now rewrite IH.
Qed.













(** ** Reading the table *)

(** ** The getters *)

Lemma value_in_filter (v x : value) (l : list value) :
  value_in v (List.filter (fun w => negb (value_eqb w x)) l)
  = negb (value_eqb v x) && value_in v l.
Proof.
  unfold value_in. induction l as [|y l IH]; [now rewrite andb_false_r|].
  cbn [List.filter existsb]. destruct (value_eqb y x) eqn:E; cbn [negb].
  - rewrite IH. destruct (value_eqb v y) eqn:E'; [|reflexivity].
    rewrite (value_eqb_trans v y x E' E). reflexivity.
  - cbn [existsb]. rewrite IH. destruct (value_eqb v y) eqn:E'; cbn [orb].
    + destruct (value_eqb v x) eqn:E''; [|reflexivity].
      rewrite value_eqb_sym in E'. now rewrite (value_eqb_trans y v x E' E'') in E.
    + reflexivity.
Qed.

Lemma value_in_unique (v : value) (vs : list value) :
  value_in v (unique vs) = value_in v vs.
Proof.
  induction vs as [|x vs IH]; [reflexivity|].
  cbn [unique]. change (value_in v (x :: ?l)) with (value_eqb v x || value_in v l).
  rewrite value_in_filter, IH. now destruct (value_eqb v x).
Qed.

Lemma distinct_values_filter (p : value -> bool) (l : list value) :
  distinct_values l = true -> distinct_values (List.filter p l) = true.
Proof.
  induction l as [|x l IH]; [reflexivity|].
  cbn [distinct_values List.filter]. intros H. apply andb_true_iff in H as [Hx Hl].
  destruct (p x); [|now apply IH]. cbn [distinct_values]. rewrite (IH Hl), andb_true_r.
  apply negb_true_iff. apply negb_true_iff in Hx.
  unfold value_in in *. apply not_true_is_false. intros Hin.
  apply existsb_exists in Hin as (y & Hy & E). apply filter_In in Hy as [Hy _].
  assert (existsb (value_eqb x) l = true) by (apply existsb_exists; eauto). congruence.
Qed.

Lemma distinct_values_unique (vs : list value) : distinct_values (unique vs) = true.
Proof.
  induction vs as [|x vs IH]; [reflexivity|].
  cbn [unique distinct_values]. rewrite value_in_filter, value_eqb_refl. cbn.
  now apply distinct_values_filter.
Qed.

Lemma self_df_column_Ok (self : nat) (c : string) (w w' : world) (vs : list value) :
  self_df_column self c w = (Ok vs, w') ->
  w' = w /\ exists f, table_of w self = Some f /\ get_col c f = Some vs.
Proof.
  unfold self_df_column. intros H.
  ok_step H as b w1 Hb. apply read_object_Ok in Hb as [-> Hb].
  destruct (df b) as [l|] eqn:El; [|discriminate].
  ok_step H as f w1 Hf. apply read_frame_Ok in Hf as [-> Hf].
  destruct (get_col c f) as [ws|] eqn:Ec; [|discriminate].
  apply ret_Ok in H as [-> ->]. split; [reflexivity|].
  exists f. split; [|exact Ec]. apply table_of_Some. eauto.
Qed.

(** X16. [get_models] and [get_scenarios] read without writing: they return
    the cells of the column with every value once, in the order of first
    appearance; on an empty [Benchmark] (no table bound) they raise the
    [TypeError] of subscripting [None]. *)
Theorem getters_return_distinct_values :
  (forall (self : nat) (w w' : world) (out : list value) (models_asked : bool),
      (if models_asked then get_models self else get_scenarios self) w = (Ok out, w') ->
      w' = w
      /\ exists f vs,
           table_of w self = Some f
           /\ get_col (if models_asked then "model" else "scenario") f = Some vs
           /\ out = unique vs
           /\ distinct_values out = true
           /\ (forall v, value_in v out = value_in v vs)
           /\ head out = head vs)
  /\ (forall (self : nat) (w : world) (b : Benchmark),
        objects w !! self = Some b -> df b = None ->
        get_models self w = (Raise (TypeError "'NoneType' object is not subscriptable"), w)
        /\ get_scenarios self w
           = (Raise (TypeError "'NoneType' object is not subscriptable"), w)).
Proof.
  split.
  - intros self w w' out asked H.
    assert (H' : exists vs, self_df_column self (if asked then "model" else "scenario") w
                            = (Ok vs, w') /\ out = unique vs).
    { destruct asked; unfold get_models, get_scenarios in H;
        ok_step H as vs w1 Hc; apply ret_Ok in H as [-> ->]; eauto. }
    destruct H' as (vs & Hc & ->).
    apply self_df_column_Ok in Hc as (-> & f & Hf & Hvs).
    split; [reflexivity|]. exists f, vs.
    split_and!; auto using distinct_values_unique, value_in_unique.
    now destruct vs.
  - intros self w b Hb Hd.
    unfold get_models, get_scenarios, self_df_column, bind, read_object.
    rewrite Hb, Hd. split; reflexivity.
Qed.

Lemma getters_return_distinct_values_witness :
  get_models 0 holding_nothing
  = (Raise (TypeError "'NoneType' object is not subscriptable"), holding_nothing)
  /\ get_scenarios 0 holding_nothing
     = (Raise (TypeError "'NoneType' object is not subscriptable"), holding_nothing).
Proof.
  apply (proj2 getters_return_distinct_values 0 holding_nothing
           {| is_empty := true; df := None |}); reflexivity.
Defined.

(** ** Appearance counts *)

Lemma count_rows (ks : list (list value)) (cells : list value) (k : list value) :
  series_count (group_cells ks cells k)
  = length (List.filter (fun r => key_eqb k (fst r) && negb (is_nan (snd r)))
                        (zip ks cells)).
Proof.
  unfold series_count, group_cells. revert cells.
  induction ks as [|k0 ks IH]; intros [|c cells]; try reflexivity.
  cbn [map filter_mask zip zip_with List.filter fst snd].
  destruct (key_eqb k k0); cbn [andb List.filter].
  - destruct (negb (is_nan c)); cbn [length]; now rewrite IH.
  - apply IH.
Qed.

Lemma filter_or_disjoint {A} (a b c : A -> bool) (rows : list A) :
  (forall r, In r rows -> a r = true -> b r = true -> False) ->
  length (List.filter (fun r => (a r || b r) && c r) rows)
  = length (List.filter (fun r => a r && c r) rows)
    + length (List.filter (fun r => b r && c r) rows).
Proof.
  induction rows as [|r rows IH]; intros H; [reflexivity|].
  assert (IH' := IH (fun x Hx => H x (or_intror Hx))).
  pose proof (H r (or_introl eq_refl)) as Hr.
  simpl. destruct (a r), (b r), (c r); simpl; try lia; exfalso; now apply Hr.
Qed.

Lemma sum_over_distinct_keys (P : value -> bool) (rows : list (list value * value))
    (U : list (list value)) :
  pairwise_distinct U = true ->
  foldr (fun k acc =>
           length (List.filter (fun r => key_eqb k (fst r) && P (snd r)) rows) + acc) 0 U
  = length (List.filter (fun r => existsb (fun k => key_eqb k (fst r)) U && P (snd r)) rows).
Proof.
  induction U as [|k U IH]; intros H.
  - cbn. induction rows as [|r rows IHr]; [reflexivity|]. exact IHr.
  - cbn [pairwise_distinct] in H. apply andb_true_iff in H as [Hk HU].
    cbn [foldr existsb]. rewrite (IH HU).
    rewrite <- (filter_or_disjoint (fun r => key_eqb k (fst r))
                  (fun r => existsb (fun k' => key_eqb k' (fst r)) U)); [reflexivity|].
    intros r _ Ha Hb. apply existsb_exists in Hb as (k' & Hin & Hk').
    rewrite forallb_forall in Hk. specialize (Hk k' Hin).
    rewrite key_eqb_sym in Ha. rewrite (key_eqb_trans k' (fst r) k Hk' Ha) in Hk.
    discriminate.
Qed.

Lemma in_group_keys (ks : list (list value)) (k : list value) :
  In k ks ->
  existsb (fun k' => key_eqb k' k) (group_keys ks) = no_nan k.
Proof.
  intros Hin. destruct (no_nan k) eqn:E.
  - destruct (group_keys_rep k ks Hin E) as (k' & Hk' & He).
    apply existsb_exists. eauto.
  - apply not_true_is_false. intros H. apply existsb_exists in H as (k' & Hk' & He).
    apply group_keys_In in Hk' as [_ Hn]. rewrite (no_nan_congr _ _ He) in Hn. congruence.
Qed.

Lemma descending_insert (x : value * nat) (l : list (value * nat)) :
  descending l = true -> descending (insert_sorted count_geb x l) = true.
Proof.
  induction l as [|y l IH]; intros H; [reflexivity|].
  cbn [descending] in H. apply andb_true_iff in H as [Hy Hl].
  cbn [insert_sorted]. unfold count_geb at 1.
  destruct (snd y <=? snd x)%nat eqn:E.
  - cbn [descending forallb]. rewrite E, Hy, Hl. cbn [andb]. rewrite !andb_true_r.
    rewrite forallb_forall in *. intros z Hz. specialize (Hy z Hz).
    apply Nat.leb_le in E, Hy. apply Nat.leb_le. lia.
  - cbn [descending]. rewrite (IH Hl), andb_true_r.
    rewrite forallb_forall in *. intros z Hz.
    apply In_insert_sorted in Hz as [->|Hz]; [|now apply Hy].
    apply Nat.leb_gt in E. apply Nat.leb_le. lia.
Qed.

Lemma descending_sorted (l : list (value * nat)) : descending (sorted count_geb l) = true.
Proof.
  induction l as [|x l IH]; [reflexivity|]. cbn [sorted foldr].
  now apply descending_insert.
Qed.

Lemma total_count_insert (leb : value * nat -> value * nat -> bool) (x : value * nat)
    (l : list (value * nat)) :
  total_count (insert_sorted leb x l) = snd x + total_count l.
Proof.
  induction l as [|y l IH]; [reflexivity|].
  cbn [insert_sorted]. destruct (leb x y); [reflexivity|].
  unfold total_count in *. cbn [foldr]. rewrite IH. lia.
Qed.

Lemma total_count_sorted (leb : value * nat -> value * nat -> bool) (l : list (value * nat)) :
  total_count (sorted leb l) = total_count l.
Proof.
  induction l as [|x l IH]; [reflexivity|].
  change (sorted leb (x :: l)) with (insert_sorted leb x (sorted leb l)).
  rewrite total_count_insert, IH. reflexivity.
Qed.

Lemma zip_singleton_keys (keys cells : list value) :
  zip (map (fun v => [v]) keys) cells
  = map (fun r => ([fst r], snd r)) (zip keys cells).
Proof.
  revert cells. induction keys as [|k keys IH]; intros [|c cells]; try reflexivity.
  cbn. f_equal. apply IH.
Qed.

Lemma length_filter_map {A B} (g : A -> B) (p : B -> bool) (l : list A) :
  length (List.filter p (map g l)) = length (List.filter (fun x => p (g x)) l).
Proof.
  induction l as [|x l IH]; [reflexivity|]. cbn. destruct (p (g x)); cbn; now rewrite IH.
Qed.

Lemma length_filter_ext_in {A} (p q : A -> bool) (l : list A) :
  (forall x, In x l -> p x = q x) -> length (List.filter p l) = length (List.filter q l).
Proof. intros H. now rewrite (filter_ext_in p q l H). Qed.

Lemma value_in_insert_sorted (leb : value * nat -> value * nat -> bool) (v : value)
    (x : value * nat) (l : list (value * nat)) :
  value_in v (map fst (insert_sorted leb x l))
  = value_eqb v (fst x) || value_in v (map fst l).
Proof.
  unfold value_in. induction l as [|y l IH]; [reflexivity|].
  cbn [insert_sorted]. destruct (leb x y); [reflexivity|].
  cbn [map existsb]. rewrite IH.
  now destruct (value_eqb v (fst y)), (value_eqb v (fst x)).
Qed.

Lemma distinct_values_insert_sorted (leb : value * nat -> value * nat -> bool)
    (x : value * nat) (l : list (value * nat)) :
  distinct_values (map fst (insert_sorted leb x l))
  = negb (value_in (fst x) (map fst l)) && distinct_values (map fst l).
Proof.
  induction l as [|y l IH]; [reflexivity|].
  cbn [insert_sorted]. destruct (leb x y); [reflexivity|].
  cbn [map distinct_values]. rewrite IH, value_in_insert_sorted.
  change (value_in (fst x) (fst y :: map fst l))
    with (value_eqb (fst x) (fst y) || value_in (fst x) (map fst l)).
  rewrite (value_eqb_sym (fst y) (fst x)).
  now destruct (value_eqb (fst x) (fst y)), (value_in (fst y) (map fst l)),
    (value_in (fst x) (map fst l)).
Qed.

Lemma value_in_sorted (leb : value * nat -> value * nat -> bool) (v : value)
    (l : list (value * nat)) :
  value_in v (map fst (sorted leb l)) = value_in v (map fst l).
Proof.
  induction l as [|x l IH]; [reflexivity|].
  change (sorted leb (x :: l)) with (insert_sorted leb x (sorted leb l)).
  now rewrite value_in_insert_sorted, IH.
Qed.

Lemma distinct_values_sorted (leb : value * nat -> value * nat -> bool)
    (l : list (value * nat)) :
  distinct_values (map fst (sorted leb l)) = distinct_values (map fst l).
Proof.
  induction l as [|x l IH]; [reflexivity|].
  change (sorted leb (x :: l)) with (insert_sorted leb x (sorted leb l)).
  now rewrite distinct_values_insert_sorted, value_in_sorted, IH.
Qed.

(** What [appearences_count] returns *)
Lemma appearences_count_Ok (key counted : string) (f : DataFrame)
    (counts : list (value * nat)) :
  appearences_count key counted f = Ok counts ->
  exists keys cells,
    get_col key f = Some keys /\ get_col counted f = Some cells
    /\ descending counts = true
    /\ distinct_values (map fst counts) = true
    /\ (forall k n, In (k, n) counts ->
          is_nan k = false /\ In k keys /\ n = appearances keys cells k)
    /\ (forall k, In k keys -> is_nan k = false ->
          exists k' n, In (k', n) counts /\ value_eqb k' k = true)
    /\ total_count counts = present_records keys cells.
Proof.
  unfold appearences_count. intros H.
  destruct (get_col key f) as [keys|]; [|discriminate].
  destruct (get_col counted f) as [cells|]; [|discriminate].
  injection H as <-. exists keys, cells.
  set (ks := map (fun v => [v]) keys).
  set (item := fun k : list value =>
                 (nth 0 k VNaN, series_count (group_cells ks cells k))).
  assert (Hsingle : forall k, In k (group_keys ks) ->
                      exists v, k = [v] /\ In v keys /\ is_nan v = false).
  { intros k Hk. apply group_keys_In in Hk as [Hin Hn].
    unfold ks in Hin. apply in_map_iff in Hin as (v & <- & Hv).
    exists v. split_and!; auto. cbn in Hn. rewrite andb_true_r in Hn.
    now apply negb_true_iff in Hn. }
  assert (Hcount : forall v, series_count (group_cells ks cells [v])
                             = appearances keys cells v).
  { intros v. rewrite count_rows. unfold ks, appearances.
    rewrite zip_singleton_keys, length_filter_map. apply length_filter_ext_in.
    intros r _. cbn. now rewrite andb_true_r. }
  split_and!; auto.
  - apply descending_sorted.
  - pose proof (pairwise_distinct_group_keys ks) as Hd.
    rewrite distinct_values_sorted. rewrite map_map. cbn [fst item].
    revert Hd Hsingle. generalize (group_keys ks). intros U.
    induction U as [|k U IHU]; intros Hd Hs; [reflexivity|].
    cbn [pairwise_distinct] in Hd. apply andb_true_iff in Hd as [Hk HU].
    cbn [map distinct_values]. rewrite IHU; [|exact HU|intros; apply Hs; now right].
    rewrite andb_true_r. apply negb_true_iff, not_true_is_false. intros Hc.
    unfold value_in in Hc. apply existsb_exists in Hc as (z & Hz & Ez).
    apply in_map_iff in Hz as (k' & <- & Hk').
    destruct (Hs k (or_introl eq_refl)) as (v & -> & _).
    destruct (Hs k' (or_intror Hk')) as (v' & -> & _).
    rewrite forallb_forall in Hk. specialize (Hk [v'] Hk'). cbn in Hk, Ez.
    rewrite andb_true_r, value_eqb_sym, Ez in Hk. discriminate.
  - intros k n Hin. apply In_sorted, in_map_iff in Hin as (k0 & Hk0 & Hin).
    destruct (Hsingle k0 Hin) as (v & -> & Hv & Hn).
    unfold item in Hk0. cbn [nth] in Hk0. injection Hk0 as <- <-.
    split_and!; auto.
  - intros k Hk Hn.
    assert (Hin : In [k] ks) by (unfold ks; now apply (in_map (fun v => [v]))).
    assert (Hnn : no_nan [k] = true) by (cbn; now rewrite Hn).
    destruct (group_keys_rep [k] ks Hin Hnn) as (k' & Hk' & He).
    destruct (Hsingle k' Hk') as (v & -> & _ & _).
    exists v, (series_count (group_cells ks cells [v])). split.
    + apply In_sorted, in_map_iff. exists [v]. split; [reflexivity|exact Hk'].
    + cbn in He. now rewrite andb_true_r in He.
  - rewrite total_count_sorted. unfold total_count.
    transitivity (foldr (fun k acc =>
                           length (List.filter
                                     (fun r => key_eqb k (fst r) && negb (is_nan (snd r)))
                                     (zip ks cells)) + acc) 0 (group_keys ks)).
    { generalize (group_keys ks). intros U. induction U as [|k U IHU]; [reflexivity|].
      cbn [map foldr snd item]. now rewrite IHU, count_rows. }
    rewrite (sum_over_distinct_keys (fun c => negb (is_nan c)) _ _
               (pairwise_distinct_group_keys ks)).
    unfold present_records, ks. rewrite zip_singleton_keys, length_filter_map.
    apply length_filter_ext_in. intros r Hr. cbn [fst snd]. f_equal.
    rewrite (in_group_keys (map (fun v => [v]) keys) [fst r]).
    + cbn. now rewrite andb_true_r.
    + apply (in_map (fun v => [v])). apply (in_map fst) in Hr.
      clear -Hr. revert cells Hr. induction keys as [|k keys IH]; intros [|c cells] Hr;
        try contradiction.
      cbn in Hr. destruct Hr as [<-|Hr]; [now left|right; eauto].
Qed.

(** X17. [get_model_appearences_count] and [get_scenario_appearences_count]
    read without writing.  The dict they return has one item for every value
    of the key column that is present, each value once; the count of a value
    is the number of its records whose other column (scenario for a model,
    model for a scenario) is present; the items come in descending order of
    the counts; and the counts add up to the number of records in which both
    columns are present. *)
Theorem appearance_counts_spec :
  forall (self : nat) (w w' : world) (counts : list (value * nat)) (by_model : bool),
    (if by_model then get_model_appearences_count self
     else get_scenario_appearences_count self) w = (Ok counts, w') ->
    w' = w
    /\ exists f keys cells,
         table_of w self = Some f
         /\ get_col (if by_model then "model" else "scenario") f = Some keys
         /\ get_col (if by_model then "scenario" else "model") f = Some cells
         /\ descending counts = true
         /\ distinct_values (map fst counts) = true
         /\ (forall k n, In (k, n) counts ->
               is_nan k = false /\ In k keys /\ n = appearances keys cells k)
         /\ (forall k, In k keys -> is_nan k = false ->
               exists k' n, In (k', n) counts /\ value_eqb k' k = true)
         /\ total_count counts = present_records keys cells.
Proof.
  intros self w w' counts by_model H.
  assert (H' : exists f, table_of w self = Some f /\ w' = w
                         /\ appearences_count (if by_model then "model" else "scenario")
                              (if by_model then "scenario" else "model") f = Ok counts).
  { destruct by_model; unfold get_model_appearences_count, get_scenario_appearences_count in H;
      ok_step H as l w1 Hl; apply self_df_Ok in Hl as (-> & b & Hb & Hl);
      ok_step H as f w1 Hf; apply read_frame_Ok in Hf as (-> & Hf);
      apply lift_Ok in H as (H & ->); exists f;
      (split; [apply table_of_Some; eauto|]); auto. }
  destruct H' as (f & Hf & -> & Hc). split; [reflexivity|].
  apply appearences_count_Ok in Hc as (keys & cells & Hk & Hcells & Hrest).
  exists f, keys, cells. auto.
Qed.

Lemma appearance_counts_spec_witness :
  get_model_appearences_count 0 holding_two_sources
  = (Ok [(VStr "m1", 3); (VStr "m2", 2); (VStr "m3", 1)], holding_two_sources)
  /\ total_count [(VStr "m1", 3); (VStr "m2", 2); (VStr "m3", 1)]
     = present_records
         [VStr "m1"; VStr "m2"; VStr "m3"; VStr "m1"; VStr "m2"; VStr "m1"]
         [VStr "a"; VStr "a"; VStr "a"; VStr "a"; VStr "a"; VStr "b"].
Proof.
  assert (H : get_model_appearences_count 0 holding_two_sources
              = (Ok [(VStr "m1", 3); (VStr "m2", 2); (VStr "m3", 1)], holding_two_sources))
    by (vm_compute; reflexivity).
  split; [exact H|].
  destruct (appearance_counts_spec 0 holding_two_sources holding_two_sources
              [(VStr "m1", 3); (VStr "m2", 2); (VStr "m3", 1)] true H)
    as (_ & f & keys & cells & Hf & Hk & Hc & _ & _ & _ & _ & Ht).
  vm_compute in Hf. injection Hf as <-.
  vm_compute in Hk. injection Hk as <-.
  vm_compute in Hc. injection Hc as <-.
  exact Ht.
Defined.

(** ** Repeated scenarios *)

(** ** [clear_repeated_scenarios] *)

Lemma get_col_drop_col_ne (c x : string) (f : DataFrame) :
  c <> x -> get_col c (drop_col x f) = get_col c f.
Proof.
  intros Hne. unfold drop_col. induction f as [|[n vs] f IH]; [reflexivity|].
  cbn [List.filter fst get_col]. destruct (String.eqb n x) eqn:E; cbn [negb].
  - apply String.eqb_eq in E. subst n.
    destruct (String.eqb x c) eqn:E'; [apply String.eqb_eq in E'; congruence|exact IH].
  - cbn [get_col]. now rewrite IH.
Qed.

Lemma has_col_drop_col_eq (x : string) (f : DataFrame) : has_col x (drop_col x f) = false.
Proof.
  unfold has_col, drop_col, columns. induction f as [|[n vs] f IH]; [reflexivity|].
  cbn [List.filter fst]. destruct (String.eqb n x) eqn:E; cbn [negb]; [exact IH|].
  cbn [map existsb fst]. rewrite String.eqb_sym, E. exact IH.
Qed.

Lemma has_col_select_rows (c : string) (mask : list bool) (f : DataFrame) :
  has_col c (select_rows mask f) = has_col c f.
Proof. unfold has_col. now rewrite columns_select_rows. Qed.

Lemma clear_repeated_scenarios_Ok (self : nat) (source_to_keep : option string)
    (w w' : world) (b : Benchmark) (l : nat) (f : DataFrame) :
  objects w !! self = Some b -> df b = Some l -> frames w !! l = Some f ->
  clear_repeated_scenarios self source_to_keep w = (Ok tt, w') ->
  exists (scen_sources counts dropped : list value) (g : DataFrame),
    query_in "scenario__source" false dropped (with_helper_columns scen_sources counts f)
    = Ok g
    /\ frames w'
       = <[l := with_helper_columns scen_sources counts f]> (frames w)
         ++ [drop_col "scenario__source_counts" (drop_col "scenario__source" g)]
    /\ objects w'
       = <[self := {| is_empty := is_empty b; df := Some (length (frames w)) |}]> (objects w).
Proof.
  intros Hb Hl Hf H.
  assert (Hll : l < length (frames w)) by (eapply lookup_lt_Some; eauto).
  assert (Hss : self < length (objects w)) by (eapply lookup_lt_Some; eauto).
  unfold clear_repeated_scenarios in H.
  rewrite (bind_Ok _ _ _ _ _ (self_df_run _ _ _ _ Hb Hl)) in H.
  rewrite (bind_Ok _ _ _ _ _ (read_frame_run _ _ _ Hf)) in H.
  ok_step H as scenarios w0 Hscen.
  assert (w0 = w) as ->.
  { destruct (get_col "scenario" f); [now apply ret_Ok in Hscen as [_ ->]|discriminate]. }
  clear Hscen.
  ok_step H as prefixes w0 Hp. apply lift_Ok in Hp as [_ ->].
  ok_step H as sources w0 Hsrc.
  assert (w0 = w) as ->.
  { destruct (get_col "source" f); [now apply ret_Ok in Hsrc as [_ ->]|discriminate]. }
  clear Hsrc.
  ok_step H as scen_sources w0 Hss'. apply lift_Ok in Hss' as [_ ->].
  ok_step H as u0 w0 Hw. apply write_frame_Ok in Hw as ->.
  set (T1 := set_col "scenario__source" scen_sources f) in *.
  erewrite bind_Ok in H
    by (apply read_frame_run; cbn [frames]; now apply list_lookup_insert_eq).
  ok_step H as models w0 Hm.
  match type of Hm with _ ?w1 = _ => assert (w0 = w1) as -> end.
  { destruct (get_col "model" T1); [now apply ret_Ok in Hm as [_ ->]|discriminate]. }
  clear Hm. cbv zeta in H.
  ok_step H as counts w0 Hc. apply lift_Ok in Hc as [_ ->].
  ok_step H as u1 w0 Hw. apply write_frame_Ok in Hw as ->.
  cbn [frames objects stdout] in H. rewrite insert_insert_same in H.
  set (T2 := set_col "scenario__source_counts" counts T1) in *.
  erewrite bind_Ok in H
    by (apply read_frame_run; cbn [frames]; now apply list_lookup_insert_eq).
  ok_step H as dropped w0 Hloop.
  apply keeps_store_clear_scenarios in Hloop as [Hfr Hob]. cbn [frames objects] in Hfr, Hob.
  ok_step H as g w1 Hq. apply lift_Ok in Hq as [Hq ->].
  rewrite (bind_Ok _ _ _ _ _ (new_frame_run _ _)) in H.
  erewrite bind_Ok in H by (apply set_df_run; rewrite Hob; exact Hb).
  erewrite bind_Ok in H.
  2:{ apply update_frame_run. cbn [frames]. rewrite lookup_app_r by lia.
      now rewrite Nat.sub_diag. }
  erewrite update_frame_run in H.
  2:{ cbn [frames]. apply list_lookup_insert_eq. rewrite length_app. simpl. lia. }
  injection H as <-. cbn [frames objects stdout].
  rewrite insert_insert_same.
  exists scen_sources, counts, dropped, g.
  split; [exact Hq|]. rewrite Hfr, Hob, length_insert.
  split; [|reflexivity].
  rewrite insert_app_r_alt by (rewrite length_insert; lia).
  rewrite length_insert, Nat.sub_diag. reflexivity.
Qed.

(** X18. A successful [clear_repeated_scenarios] works on two tables.  The
    table that [self.df] was bound to gets the two helper columns
    [scenario__source] and [scenario__source_counts] and keeps them (its
    other columns are as before), so whoever shares that table sees them;
    [self.df] is bound to a new table that holds a selection of the rows of
    the old one and has neither helper column.  No other table changes, nor
    does [is_empty]. *)
Theorem clear_repeated_scenarios_leaves_helper_columns :
  forall (self : nat) (source_to_keep : option string) (w w' : world)
         (b : Benchmark) (l : nat) (f : DataFrame),
    objects w !! self = Some b -> df b = Some l -> frames w !! l = Some f ->
    clear_repeated_scenarios self source_to_keep w = (Ok tt, w') ->
    exists (old new : DataFrame) (mask : list bool),
      frames w' !! l = Some old
      /\ has_col "scenario__source" old = true
      /\ has_col "scenario__source_counts" old = true
      /\ (forall c, not_helper c -> get_col c old = get_col c f)
      /\ objects w' !! self
         = Some {| is_empty := is_empty b; df := Some (length (frames w)) |}
      /\ frames w' !! length (frames w) = Some new
      /\ has_col "scenario__source" new = false
      /\ has_col "scenario__source_counts" new = false
      /\ (forall c, not_helper c -> get_col c new = filter_mask mask <$> get_col c f)
      /\ (forall l', l' <> l -> l' < length (frames w) -> frames w' !! l' = frames w !! l').
Proof.
  intros self stk w w' b l f Hb Hl Hf H.
  assert (Hll : l < length (frames w)) by (eapply lookup_lt_Some; eauto).
  assert (Hss : self < length (objects w)) by (eapply lookup_lt_Some; eauto).
  destruct (clear_repeated_scenarios_Ok self stk w w' b l f Hb Hl Hf H)
    as (ss & cs & dropped & g & Hq & Hfr & Hob).
  unfold query_in in Hq.
  destruct (get_col "scenario__source" (with_helper_columns ss cs f)) as [vs|];
    [|discriminate].
  injection Hq as <-.
  eexists (with_helper_columns ss cs f), _, _.
  rewrite Hfr, Hob.
  split_and!.
  - rewrite lookup_app_l by (rewrite length_insert; lia). now apply list_lookup_insert_eq.
  - unfold with_helper_columns. now rewrite !has_col_set_col, String.eqb_refl, orb_true_r.
  - unfold with_helper_columns. now rewrite has_col_set_col, String.eqb_refl.
  - intros c [H1 H2]. unfold with_helper_columns.
    now rewrite !get_col_set_col_ne by congruence.
  - now apply list_lookup_insert_eq.
  - rewrite lookup_app_r by (rewrite length_insert; lia).
    rewrite length_insert, Nat.sub_diag. reflexivity.
  - rewrite has_col_drop_col_ne by discriminate. apply has_col_drop_col_eq.
  - apply has_col_drop_col_eq.
  - intros c [H1 H2]. rewrite !get_col_drop_col_ne by congruence.
    rewrite get_col_select_rows. unfold with_helper_columns.
    now rewrite !get_col_set_col_ne by congruence.
  - intros l' Hne Hlt. rewrite lookup_app_l by (rewrite length_insert; lia).
    now apply list_lookup_insert_ne.
Qed.

Lemma clear_repeated_scenarios_leaves_helper_columns_witness :
  exists (old new : DataFrame),
    frames (snd (clear_repeated_scenarios 0 None holding_two_sources)) !! 0 = Some old
    /\ has_col "scenario__source" old = true
    /\ frames (snd (clear_repeated_scenarios 0 None holding_two_sources)) !! 1 = Some new
    /\ has_col "scenario__source" new = false.
Proof.
  destruct (clear_repeated_scenarios_leaves_helper_columns 0 None holding_two_sources
              (snd (clear_repeated_scenarios 0 None holding_two_sources))
              {| is_empty := false; df := Some 0 |} 0 two_sources
              eq_refl eq_refl eq_refl ltac:(vm_compute; reflexivity))
    as (old & new & mask & H1 & H2 & _ & _ & _ & H3 & H4 & _).
  exists old, new. auto.
Defined.

(** ** Ingestion of a wide table *)

(** ** Ingestion of a wide table *)

Lemma assign_df_run (a : assets) (parse : string -> option Q) (self df0 : nat)
    (data_source : option string) (normalized_names : bool) (w : world)
    (f base : DataFrame) (df1 : nat) (fs : list DataFrame) (vs ms' ss' : list value)
    (b : Benchmark) :
  frames w !! df0 = Some f ->
  head (columns f) = Some "model" ->
  (has_col "scenario" f = true /\ df1 = df0 /\ base = f /\ fs = frames w
   \/ has_col "scenario" f = false /\ melt f = Ok base
      /\ df1 = length (frames w) /\ fs = frames w ++ [base]) ->
  get_col "score" (replace_cells (VStr "-") VNaN base) = Some vs ->
  (normalized_names = false ->
   exists ms ss,
     get_col "model" (set_col "score" (astype_float parse vs)
                        (replace_cells (VStr "-") VNaN base)) = Some ms
     /\ apply_str standardize_model_name ms = Ok ms'
     /\ get_col "scenario"
          (set_col "model" ms' (set_col "score" (astype_float parse vs)
                                  (replace_cells (VStr "-") VNaN base))) = Some ss
     /\ apply_str (standardize_scenario_name a) ss = Ok ss') ->
  objects w !! self = Some b ->
  assign_df a parse self df0 data_source normalized_names w
  = after_formatting a self data_source
      {| frames := <[df1 := formatted data_source normalized_names
                               (astype_float parse vs) ms' ss' base]> fs;
         objects := <[self := {| is_empty := is_empty b; df := Some df1 |}]> (objects w);
         stdout := stdout w |}.
Proof.
  intros Hf Hhead Hcase Hvs Hnames Hb.
  unfold assign_df.
  rewrite (bind_Ok _ _ _ _ _ (read_frame_run _ _ _ Hf)).
  destruct (columns f) as [|c0 cs] eqn:Ecols; [discriminate|].
  injection Hhead as ->. cbn [String.eqb Ascii.eqb Bool.eqb assert].
  rewrite (bind_Ok _ _ _ _ _ (ret_run tt w)).
  assert (Hstep : exists w1,
             (if negb (has_col "scenario" f)
              then g <- lift (melt f) ;; new_frame g
              else ret df0) w = (Ok df1, w1)
             /\ frames w1 = fs /\ objects w1 = objects w /\ stdout w1 = stdout w
             /\ fs !! df1 = Some base).
  { destruct Hcase as [(E & -> & -> & ->)|(E & Hm & -> & ->)]; rewrite E; cbn [negb].
    - exists w. split_and!; auto.
    - rewrite Hm. rewrite (bind_Ok _ _ _ _ _ (lift_run (Ok base) w)).
      eexists. split; [apply new_frame_run|]. cbn [frames objects stdout].
      split_and!; auto. rewrite lookup_app_r by reflexivity. now rewrite Nat.sub_diag. }
  destruct Hstep as (w1 & Hstep & Hfs & Hobj & Hout & Hl).
  rewrite (bind_Ok _ _ _ _ _ Hstep).
  assert (Hlt : df1 < length fs) by (eapply lookup_lt_Some; eauto).
  erewrite bind_Ok by (apply update_frame_run; rewrite Hfs; exact Hl).
  erewrite bind_Ok
    by (apply read_frame_run; cbn [frames]; rewrite Hfs; now apply list_lookup_insert_eq).
  rewrite Hvs.
  erewrite bind_Ok by reflexivity.
  cbn [frames objects stdout]. rewrite Hfs, insert_insert_same.
  set (converted := set_col "score" (astype_float parse vs)
                      (replace_cells (VStr "-") VNaN base)) in *.
  assert (Hn : when (negb normalized_names)
                 (f0 <- read_frame df1 ;;
                  match get_col "model" f0 with
                  | Some vs0 =>
                      vs' <- lift (apply_str standardize_model_name vs0) ;;
                      write_frame df1 (set_col "model" vs' f0)
                  | None => raise (KeyError "model")
                  end ;;
                  f1 <- read_frame df1 ;;
                  match get_col "scenario" f1 with
                  | Some vs0 =>
                      vs' <- lift (apply_str (standardize_scenario_name a) vs0) ;;
                      write_frame df1 (set_col "scenario" vs' f1)
                  | None => raise (KeyError "scenario")
                  end)
                 {| frames := <[df1 := converted]> fs; objects := objects w1;
                    stdout := stdout w1 |}
               = (Ok tt,
                  {| frames := <[df1 := if normalized_names then converted
                                        else set_col "scenario" ss'
                                               (set_col "model" ms' converted)]> fs;
                     objects := objects w1; stdout := stdout w1 |})).
  { destruct normalized_names; [reflexivity|]. cbn [negb when].
    destruct (Hnames eq_refl) as (ms & ss & Hms & Hms' & Hss & Hss').
    erewrite bind_Ok
      by (apply read_frame_run; cbn [frames]; now apply list_lookup_insert_eq).
    rewrite Hms.
    erewrite bind_Ok.
    2:{ erewrite bind_Ok by (rewrite lift_run, Hms'; reflexivity). reflexivity. }
    cbn [frames objects stdout]. rewrite insert_insert_same.
    erewrite bind_Ok
      by (apply read_frame_run; cbn [frames]; now apply list_lookup_insert_eq).
    rewrite Hss.
    erewrite bind_Ok by (rewrite lift_run, Hss'; reflexivity).
    unfold write_frame. cbn [frames objects stdout]. now rewrite insert_insert_same. }
  rewrite (bind_Ok _ _ _ _ _ Hn).
  erewrite bind_Ok
    by (apply update_frame_run; cbn [frames]; now apply list_lookup_insert_eq).
  cbn [frames objects stdout]. rewrite insert_insert_same.
  assert (Hs : when (truthy data_source)
                 (update_frame df1
                    (fun f0 => set_col_scalar "source" (VStr (default "" data_source)) f0))
                 {| frames := <[df1 := set_col_scalar "aggragated_from" (VList [])
                                         (if normalized_names then converted
                                          else set_col "scenario" ss'
                                                 (set_col "model" ms' converted))]> fs;
                    objects := objects w1; stdout := stdout w1 |}
               = (Ok tt,
                  {| frames := <[df1 := formatted data_source normalized_names
                                          (astype_float parse vs) ms' ss' base]> fs;
                     objects := objects w1; stdout := stdout w1 |})).
  { unfold formatted. fold converted. destruct (truthy data_source); [|reflexivity].
    cbn [when]. erewrite update_frame_run
      by (cbn [frames]; now apply list_lookup_insert_eq).
    cbn [frames objects stdout]. now rewrite insert_insert_same. }
  rewrite (bind_Ok _ _ _ _ _ Hs).
  erewrite bind_Ok by (apply set_df_run; cbn [objects]; rewrite Hobj; exact Hb).
  cbn [frames objects stdout]. rewrite Hobj, Hout. reflexivity.
Qed.

Lemma validate_clean_run (self : nat) (w : world) (b : Benchmark) (l : nat) (f : DataFrame)
    (vs : list value) :
  objects w !! self = Some b -> df b = Some l -> frames w !! l = Some f ->
  has_col "Unnamed: 0" f = false ->
  columns_ok f = true ->
  has_duplicates f = false ->
  get_col "score" f = Some vs ->
  forallb is_number vs = true ->
  validate_dataframe_post_formatting self w = (Ok tt, w).
Proof.
  intros Hb Hl Hf Hu Hc Hd Hs Hn.
  rewrite (validate_run self w b l f Hb Hl Hf).
  unfold without_index_column, drop_index_column, without_index_column.
  rewrite Hu. cbv zeta. rewrite Hc, Hd. cbn [negb].
  unfold check_score_numeric. rewrite Hs, Hn. cbn [negb]. unfold ret.
  rewrite (list_insert_id _ _ _ Hf). now rewrite world_eta.
Qed.

(** What [assign_df] does after the formatting on a table that passes the
    checks, for a source that is not lower-is-better *)
Lemma after_formatting_clean_run (a : assets) (self : nat) (data_source : option string)
    (w : world) (b : Benchmark) (l : nat) (F : DataFrame) (vs : list value) :
  objects w !! self = Some b -> df b = Some l -> frames w !! l = Some F ->
  has_col "Unnamed: 0" F = false ->
  columns_ok F = true ->
  has_duplicates F = false ->
  get_col "score" F = Some vs ->
  forallb is_number vs = true ->
  lower_os_better_for_source a data_source = false ->
  after_formatting a self data_source w
  = (Ok tt, {| frames := <[l := dropna F]> (frames w);
               objects := <[self := {| is_empty := false; df := Some l |}]> (objects w);
               stdout := stdout w |}).
Proof.
  intros Hb Hl Hf Hu Hc Hd Hs Hn Hlow. unfold after_formatting.
  rewrite (bind_Ok _ _ _ _ _ (validate_clean_run self w b l F vs Hb Hl Hf Hu Hc Hd Hs Hn)).
  rewrite (bind_Ok _ _ _ _ _ (self_df_run _ _ _ _ Hb Hl)).
  rewrite (bind_Ok _ _ _ _ _ (update_frame_run _ dropna _ _ Hf)).
  rewrite Hlow. cbn [when]. rewrite (bind_Ok _ _ _ _ _ (ret_run tt _)).
  erewrite set_is_empty_run by (cbn [objects]; exact Hb).
  cbn [frames objects stdout]. now rewrite Hl.
Qed.

Lemma to_float_is_number (parse : string -> option Q) (v v' : value) :
  to_float parse v = Some v' -> is_number v' = true.
Proof.
  destruct v as [s|q| |l]; cbn; try discriminate.
  - destruct (parse s); cbn; [now intros [= <-]|discriminate].
  - now intros [= <-].
  - now intros [= <-].
Qed.

Lemma mapM_to_float_numbers (parse : string -> option Q) (vs out : list value) :
  mapM (to_float parse) vs = Some out -> forallb is_number out = true.
Proof.
  revert out. induction vs as [|v vs IH]; intros out; cbn.
  - now intros [= <-].
  - destruct (to_float parse v) as [v'|] eqn:E; cbn; [|discriminate].
    destruct (mapM (to_float parse) vs) as [out'|]; cbn; [|discriminate].
    intros [= <-]. cbn. rewrite (to_float_is_number _ _ _ E). now apply IH.
Qed.

Lemma apply_str_strings (g : string -> string) (vs : list value) :
  (forall v, In v vs -> exists s, v = VStr s) ->
  apply_str g vs = Ok (map (rename g) vs).
Proof.
  intros H. unfold apply_str. apply rmapM_map.
  intros v Hv. destruct (H v Hv) as (s & ->). reflexivity.
Qed.

Lemma has_col_wide (c : string) (names : list string) (vars : list (string * list value)) :
  c <> "model" ->
  forallb (fun col => negb (String.eqb (fst col) c)) vars = true ->
  has_col c (wide_table names vars) = false.
Proof.
  intros Hc H. unfold has_col, wide_table, columns. cbn [map existsb fst].
  destruct (String.eqb c "model") eqn:E; [apply String.eqb_eq in E; congruence|].
  cbn [orb]. induction vars as [|col vars IH]; [reflexivity|].
  cbn [forallb] in H. apply andb_true_iff in H as [H1 H2].
  cbn [map existsb]. rewrite String.eqb_sym. apply negb_true_iff in H1. rewrite H1.
  now apply IH.
Qed.

Lemma scenario_columns (vars : list (string * list value)) :
  forallb scenario_column vars = true ->
  forallb (fun col => negb (String.eqb (fst col) "model")) vars = true
  /\ forallb (fun col => negb (String.eqb (fst col) "scenario")) vars = true
  /\ forallb (fun col => negb (String.eqb (fst col) "score")) vars = true.
Proof.
  intros H. rewrite !forallb_forall in *. unfold scenario_column in H.
  split_and!; intros col Hc; specialize (H col Hc);
    apply andb_true_iff in H as [H H3]; apply andb_true_iff in H as [H1 H2]; assumption.
Qed.

Lemma melt_wide (names : list string) (vars : list (string * list value)) :
  forallb scenario_column vars = true ->
  melt (wide_table names vars) = Ok (melted names vars).
Proof.
  intros H. destruct (scenario_columns vars H) as (Hm & _ & Hs).
  unfold melt. rewrite (has_col_wide "score" names vars) by (discriminate || exact Hs).
  unfold wide_table, melted. cbn [get_col String.eqb Ascii.eqb Bool.eqb default from_option id
                                    List.filter fst negb].
  assert (Hf : List.filter (fun col : string * list value =>
                              negb (String.eqb (fst col) "model")) vars = vars).
  { clear -Hm. induction vars as [|col vars IH]; [reflexivity|].
    cbn [forallb] in Hm. apply andb_true_iff in Hm as [H1 H2].
    cbn [List.filter]. rewrite H1. f_equal. now apply IH. }
  rewrite Hf. unfold id. now rewrite length_map.
Qed.

Lemma clean_name (s : string) : s <> "-" -> clean (VStr s) = VStr s.
Proof.
  intros H. unfold clean. cbn [value_eqb].
  destruct (String.eqb s "-") eqn:E; [apply String.eqb_eq in E; congruence|reflexivity].
Qed.

(** X19. Ingestion of a wide table, from the first column to the records.  On a
    table with the models first and one column per scenario, with a source
    name that is not lower-is-better, [assign_df] leaves the caller's table
    as it is and binds [self.df] to a new table: the melted table (one record
    per scenario column and model, column by column), the sentinel ["-"]
    replaced by the missing value, the scores converted to floats, the names
    standardised unless they are declared normalized, [aggragated_from] empty
    and [source] set in every record, and the records with a missing cell
    dropped.  [is_empty] is cleared and nothing is printed.  This holds when
    the scores convert and no (model, scenario) pair of the formatted table
    comes twice. *)
Theorem wide_table_ingestion :
  forall (a : assets) (parse : string -> option Q) (self df0 : nat) (source : string)
         (normalized_names : bool) (w : world) (b : Benchmark)
         (names : list string) (vars : list (string * list value)) (scores : list value),
    frames w !! df0 = Some (wide_table names vars) ->
    objects w !! self = Some b ->
    forallb scenario_column vars = true ->
    (normalized_names = false ->
     ~ In "-" names /\ forall col, In col vars -> fst col <> "-") ->
    mapM (to_float parse) (map clean (concat (map snd vars))) = Some scores ->
    truthy (Some source) = true ->
    lower_os_better_for_source a (Some source) = false ->
    has_duplicates (ingested_wide a source normalized_names names vars scores) = false ->
    assign_df a parse self df0 (Some source) normalized_names w
    = (Ok tt,
       {| frames := frames w
                    ++ [dropna (ingested_wide a source normalized_names names vars scores)];
          objects := <[self := {| is_empty := false; df := Some (length (frames w)) |}]>
                       (objects w);
          stdout := stdout w |}).
Proof.
  intros a parse self df0 source nn w b names vars scores Hf Hb Hvars Hnames Hconv
    Hsrc Hlow Hdup.
  destruct (scenario_columns vars Hvars) as (Hm & Hsc & Hs).
  set (M := map clean (concat (map (fun _ => map VStr names) vars))).
  set (S := map clean (concat (map (fun col : string * list value =>
                                      replicate (length names) (VStr (fst col))) vars))).
  set (ms' := map (rename standardize_model_name) M).
  set (ss' := map (rename (standardize_scenario_name a)) S).
  assert (Hbase : replace_cells (VStr "-") VNaN (melted names vars)
                  = [("model", M); ("scenario", S);
                     ("score", map clean (concat (map snd vars)))]) by reflexivity.
  assert (Hast : astype_float parse (map clean (concat (map snd vars))) = scores).
  { unfold astype_float. now rewrite Hconv. }
  rewrite (assign_df_run a parse self df0 (Some source) nn w (wide_table names vars)
             (melted names vars) (length (frames w)) (frames w ++ [melted names vars])
             (map clean (concat (map snd vars))) ms' ss' b Hf eq_refl).
  2:{ right. split_and!; auto.
      - apply has_col_wide; [discriminate|exact Hsc].
      - now apply melt_wide. }
  2:{ now rewrite Hbase. }
  2:{ intros ->. destruct (Hnames eq_refl) as [Hn1 Hn2].
      rewrite Hbase, Hast. exists M, S. split_and!; try reflexivity.
      - apply apply_str_strings. intros v Hv. unfold M in Hv.
        apply in_map_iff in Hv as (v0 & <- & Hv0).
        apply in_concat in Hv0 as (l0 & Hl0 & Hv0).
        apply in_map_iff in Hl0 as (col & <- & _).
        apply in_map_iff in Hv0 as (n & <- & Hn).
        exists n. apply clean_name. intros ->. contradiction.
      - apply apply_str_strings. intros v Hv. unfold S in Hv.
        apply in_map_iff in Hv as (v0 & <- & Hv0).
        apply in_concat in Hv0 as (l0 & Hl0 & Hv0).
        apply in_map_iff in Hl0 as (col & <- & Hcol).
        apply list_elem_of_In, elem_of_replicate in Hv0 as [-> _].
        exists (fst col). apply clean_name. now apply Hn2. }
  2:{ exact Hb. }
  assert (HF : formatted (Some source) nn
                 (astype_float parse (map clean (concat (map snd vars)))) ms' ss'
                 (melted names vars)
               = ingested_wide a source nn names vars scores).
  { unfold formatted. rewrite Hsrc, Hbase, Hast. unfold ingested_wide. fold M S ms' ss'.
    destruct nn; reflexivity. }
  rewrite HF.
  set (F := ingested_wide a source nn names vars scores) in *.
  assert (Hlt : self < length (objects w)) by (eapply lookup_lt_Some; eauto).
  erewrite (after_formatting_clean_run a self (Some source) _
              {| is_empty := is_empty b; df := Some (length (frames w)) |}
              (length (frames w)) F scores).
  - cbn [frames objects stdout]. rewrite !insert_insert_same.
    rewrite insert_app_r_alt by lia. now rewrite Nat.sub_diag.
  - cbn [objects]. now apply list_lookup_insert_eq.
  - reflexivity.
  - cbn [frames]. apply list_lookup_insert_eq. rewrite length_app. cbn [length]. lia.
  - reflexivity.
  - reflexivity.
  - exact Hdup.
  - reflexivity.
  - now apply (mapM_to_float_numbers parse _ _ Hconv).
  - exact Hlow.
Qed.

Lemma wide_table_ingestion_witness :
  assign_df no_assets float_of_digits 0 0 (Some "s") false
    {| frames := [three_models]; objects := [{| is_empty := true; df := None |}];
       stdout := [] |}
  = (Ok tt,
     {| frames := [three_models;
                   [("model", [VStr "m1"; VStr "m2"; VStr "m3"; VStr "m1"; VStr "m2"; VStr "m3"]);
                    ("scenario", [VStr "taska"; VStr "taska"; VStr "taska";
                                  VStr "taskb"; VStr "taskb"; VStr "taskb"]);
                    ("score", [VNum 1; VNum 2; VNum 3; VNum 5; VNum 5; VNum 7]);
                    ("aggragated_from", [VList []; VList []; VList []; VList []; VList [];
                                         VList []]);
                    ("source", [VStr "s"; VStr "s"; VStr "s"; VStr "s"; VStr "s"; VStr "s"])]];
        objects := [{| is_empty := false; df := Some 1 |}];
        stdout := [] |}).
Proof.
  apply (wide_table_ingestion no_assets float_of_digits 0 0 "s" false
           {| frames := [three_models]; objects := [{| is_empty := true; df := None |}];
              stdout := [] |}
           {| is_empty := true; df := None |} ["m1"; "m2"; "m3"]
           [("taskA", [VNum 1; VNum 2; VNum 3]); ("taskB", [VNum 5; VNum 5; VNum 7])]
           [VNum 1; VNum 2; VNum 3; VNum 5; VNum 5; VNum 7]);
    try reflexivity.
  intros _. split.
  - simpl. intuition discriminate.
  - intros col [<-|[<-|[]]]; discriminate.
Defined.

(** ** No missing cell after ingestion *)

Lemma filter_mask_In {A} (mask : list bool) (l : list A) (v : A) :
  In v (filter_mask mask l) -> exists i, mask !! i = Some true /\ l !! i = Some v.
Proof.
  revert l. induction mask as [|m mask IH]; intros [|x l] H; try contradiction.
  cbn [filter_mask] in H. destruct m.
  - destruct H as [->|H]; [exists 0; auto|].
    destruct (IH l H) as (i & H1 & H2). exists (S i). auto.
  - destruct (IH l H) as (i & H1 & H2). exists (S i). auto.
Qed.

(** [dropna] leaves no missing cell. *)
Lemma dropna_no_nan (f : DataFrame) (c : string) (vs : list value) (v : value) :
  In (c, vs) (dropna f) -> In v vs -> is_nan v = false.
Proof.
  unfold dropna, select_rows, rows. intros Hc Hv.
  apply in_map_iff in Hc as (col & [= <- <-] & Hcol).
  apply filter_mask_In in Hv as (i & Hm & Hi).
  rewrite list_lookup_fmap in Hm.
  destruct (map (fun i => cells_at i f) (seq 0 (nrows f)) !! i) as [r|] eqn:Er;
    [|discriminate].
  cbn in Hm. injection Hm as Hm.
  rewrite list_lookup_fmap in Er.
  destruct (seq 0 (nrows f) !! i) as [j|] eqn:Ej; [|discriminate].
  apply lookup_seq in Ej as [-> _]. cbn in Er. injection Er as <-.
  unfold cells_at in Hm. rewrite forallb_forall in Hm.
  specialize (Hm (nth i (snd col) VNaN)).
  rewrite (nth_lookup_Some _ _ VNaN _ Hi) in Hm.
  apply negb_true_iff, Hm. apply in_map_iff. exists col. split; [|exact Hcol].
  now rewrite (nth_lookup_Some _ _ VNaN _ Hi).
Qed.

(** X20. No missing value survives ingestion: after a successful [assign_df]
    that reports no duplicates, for a source that is not lower-is-better, no
    cell of the table bound to [self.df] is missing; the records with a
    sentinel ["-"] or a missing cell are gone. *)
Theorem ingestion_leaves_no_missing_cell :
  forall (a : assets) (parse : string -> option Q) (self df0 : nat)
         (data_source : option string) (normalized_names : bool) (w w' : world),
    assign_df a parse self df0 data_source normalized_names w = (Ok tt, w') ->
    stdout w' = stdout w ->
    lower_os_better_for_source a data_source = false ->
    exists T,
      table_of w' self = Some T
      /\ forall c vs v, In (c, vs) T -> In v vs -> is_nan v = false.
Proof.
  intros a parse self df0 ds nn w w' H Hout Hlow.
  apply assign_df_Ok in H
    as (f & base & df1 & fs & scores & models & scenarios & b & Hf & Hcase & Hb & H).
  assert (Hlt : self < length (objects w)) by (eapply lookup_lt_Some; eauto).
  assert (Hdf1 : df1 < length fs).
  { destruct Hcase as [(_ & -> & _ & ->)|(_ & _ & -> & ->)].
    - eapply lookup_lt_Some; eauto.
    - rewrite length_app. cbn [length]. lia. }
  eapply after_formatting_Ok in H;
    [|cbn [objects]; now apply list_lookup_insert_eq|reflexivity
     |cbn [frames]; now apply list_lookup_insert_eq].
  destruct H as (_ & [(_ & _ & H)|(_ & Hout' & _)]).
  - rewrite Hlow in H. destruct H as (Hfr & Hob). cbn [frames objects] in Hfr, Hob.
    eexists. split.
    + apply table_of_Some. eexists _, df1. rewrite Hfr, Hob.
      split; [apply list_lookup_insert_eq; now rewrite length_insert|].
      split; [reflexivity|].
      apply list_lookup_insert_eq. now rewrite length_insert.
    + apply dropna_no_nan.
  - cbn [stdout] in Hout'. rewrite Hout in Hout'.
    apply (f_equal (@length string)) in Hout'. rewrite length_app in Hout'.
    cbn [length] in Hout'. lia.
Qed.

Lemma ingestion_leaves_no_missing_cell_witness :
  exists T,
    table_of (snd (assign_df no_assets float_of_digits 0 0 (Some "src") true
                     holding_long_form)) 0 = Some T
    /\ forall c vs v, In (c, vs) T -> In v vs -> is_nan v = false.
Proof.
  apply (ingestion_leaves_no_missing_cell no_assets float_of_digits 0 0 (Some "src") true
           holding_long_form); reflexivity.
Defined.

(** ** Tables without repeated scenarios *)

Lemma rmapM_length {A B} (f : A -> result B) (l : list A) (ys : list B) :
  rmapM f l = Ok ys -> length ys = length l.
Proof. intros H. apply rmapM_Ok in H. symmetry. eapply Forall2_length; eauto. Qed.

Lemma clear_repeated_scenarios_steps (self : nat) (source_to_keep : option string)
    (w w' : world) (b : Benchmark) (l : nat) (f : DataFrame) :
  objects w !! self = Some b -> df b = Some l -> frames w !! l = Some f ->
  clear_repeated_scenarios self source_to_keep w = (Ok tt, w') ->
  exists (scenarios sources scen_sources counts dropped : list value)
         (g : DataFrame) (w1 : world),
    get_col "scenario" f = Some scenarios
    /\ get_col "source" f = Some sources
    /\ length scen_sources = Nat.min (length scenarios) (length sources)
    /\ length counts = length scen_sources
    /\ clear_scenarios source_to_keep
         (groups_by_scenario
            (drop_duplicates ["scenario"; "source"]
               (with_helper_columns scen_sources counts f))) [] []
         {| frames := <[l := with_helper_columns scen_sources counts f]> (frames w);
            objects := objects w; stdout := stdout w |}
       = (Ok dropped, w1)
    /\ query_in "scenario__source" false dropped (with_helper_columns scen_sources counts f)
       = Ok g
    /\ w' = {| frames := <[l := with_helper_columns scen_sources counts f]> (frames w)
                         ++ [without_helper_columns g];
               objects := <[self := {| is_empty := is_empty b;
                                       df := Some (length (frames w)) |}]> (objects w);
               stdout := stdout w1 |}.
Proof.
  intros Hb Hl Hf H.
  assert (Hll : l < length (frames w)) by (eapply lookup_lt_Some; eauto).
  assert (Hss : self < length (objects w)) by (eapply lookup_lt_Some; eauto).
  unfold clear_repeated_scenarios in H.
  rewrite (bind_Ok _ _ _ _ _ (self_df_run _ _ _ _ Hb Hl)) in H.
  rewrite (bind_Ok _ _ _ _ _ (read_frame_run _ _ _ Hf)) in H.
  ok_step H as scenarios w0 Hscen.
  destruct (get_col "scenario" f) as [scenarios0|] eqn:Escen; [|discriminate].
  apply ret_Ok in Hscen as [-> ->].
  ok_step H as prefixes w0 Hp. apply lift_Ok in Hp as [Hp ->].
  ok_step H as sources w0 Hsrc.
  destruct (get_col "source" f) as [sources0|] eqn:Esrc; [|discriminate].
  apply ret_Ok in Hsrc as [-> ->].
  ok_step H as scen_sources w0 Hss'. apply lift_Ok in Hss' as [Hadd ->].
  ok_step H as u0 w0 Hw. apply write_frame_Ok in Hw as ->.
  set (T1 := set_col "scenario__source" scen_sources f) in *.
  erewrite bind_Ok in H
    by (apply read_frame_run; cbn [frames]; now apply list_lookup_insert_eq).
  ok_step H as models w0 Hm.
  match type of Hm with _ ?w1 = _ => assert (w0 = w1) as -> end.
  { destruct (get_col "model" T1); [now apply ret_Ok in Hm as [_ ->]|discriminate]. }
  clear Hm. cbv zeta in H.
  ok_step H as counts w0 Hc. apply lift_Ok in Hc as [Hc ->].
  ok_step H as u1 w0 Hw. apply write_frame_Ok in Hw as ->.
  cbn [frames objects stdout] in H. rewrite insert_insert_same in H.
  set (T2 := set_col "scenario__source_counts" counts T1) in *.
  erewrite bind_Ok in H
    by (apply read_frame_run; cbn [frames]; now apply list_lookup_insert_eq).
  ok_step H as dropped w0 Hloop.
  pose proof Hloop as Hkeep.
  apply keeps_store_clear_scenarios in Hkeep as [Hfr Hob]. cbn [frames objects] in Hfr, Hob.
  ok_step H as g w1 Hq. apply lift_Ok in Hq as [Hq ->].
  rewrite (bind_Ok _ _ _ _ _ (new_frame_run _ _)) in H.
  erewrite bind_Ok in H by (apply set_df_run; rewrite Hob; exact Hb).
  erewrite bind_Ok in H.
  2:{ apply update_frame_run. cbn [frames]. rewrite lookup_app_r by lia.
      now rewrite Nat.sub_diag. }
  erewrite update_frame_run in H.
  2:{ cbn [frames]. apply list_lookup_insert_eq. rewrite length_app. simpl. lia. }
  injection H as <-. cbn [frames objects stdout].
  rewrite insert_insert_same.
  exists scenarios0, sources0, scen_sources, counts, dropped, g, w0.
  split_and!; try reflexivity.
  - unfold series_add in Hadd. apply rmapM_length in Hadd. rewrite Hadd, length_zip_with.
    unfold series_add_scalar in Hp. apply rmapM_length in Hp. now rewrite Hp.
  - now apply rmapM_length in Hc.
  - exact Hloop.
  - exact Hq.
  - rewrite Hfr, Hob, length_insert. f_equal.
    rewrite insert_app_r_alt by (rewrite length_insert; lia).
    rewrite length_insert, Nat.sub_diag. reflexivity.
Qed.

Lemma clear_scenarios_small_groups (source_to_keep : option string)
    (groups : list (value * DataFrame)) (dealt dropped : list value) (w : world) :
  (forall g, In g groups -> nrows (snd g) <= 1) ->
  clear_scenarios source_to_keep groups dealt dropped w = (Ok dropped, w).
Proof.
  revert dealt dropped. induction groups as [|[s sdf] groups IH]; intros dealt dropped Hs;
    cbn [clear_scenarios]; [reflexivity|].
  assert (Hrest : forall g, In g groups -> nrows (snd g) <= 1)
    by (intros g Hg; apply Hs; now right).
  destruct (value_in s dealt); [now apply IH|].
  assert ((1 <? nrows sdf)%nat = false) as ->.
  { apply Nat.ltb_ge. apply (Hs (s, sdf)). now left. }
  now apply IH.
Qed.

Lemma keys_of_pairs (d : value) (xs ys : list value) (n : nat) :
  length xs = n -> length ys = n ->
  map (fun i => [nth i xs d; nth i ys d]) (seq 0 n)
  = map (fun p => [fst p; snd p]) (zip xs ys).
Proof.
  revert ys n. induction xs as [|x xs IH]; intros [|y ys] [|n]; try discriminate;
    [reflexivity|].
  intros [= Hx] [= Hy]. cbn [seq map zip zip_with fst snd nth]. f_equal.
  rewrite <- seq_shift, map_map. cbn [nth]. now apply IH.
Qed.

Lemma keys_of_singletons (d : value) (xs : list value) (n : nat) :
  length xs = n ->
  map (fun i => [nth i xs d]) (seq 0 n) = map (fun v => [v]) xs.
Proof.
  revert n. induction xs as [|x xs IH]; intros [|n]; try discriminate; [reflexivity|].
  intros [= Hx]. cbn [seq map nth]. f_equal.
  rewrite <- seq_shift, map_map. cbn [nth]. now apply IH.
Qed.

Lemma nrows_select_rows (mask : list bool) (f : DataFrame) :
  length mask = nrows f -> nrows (select_rows mask f) = length (List.filter id mask).
Proof.
  destruct f as [|[c vs] f]; cbn [nrows select_rows map snd fst].
  - now destruct mask.
  - apply filter_mask_length.
Qed.

Lemma filter_mask_incl {A} (mask : list bool) (l : list A) (v : A) :
  In v (filter_mask mask l) -> In v l.
Proof.
  revert l. induction mask as [|m mask IH]; intros [|x l] H; try contradiction.
  cbn [filter_mask] in H. destruct m.
  - destruct H as [->|H]; [now left|right; auto].
  - right; auto.
Qed.

Lemma filter_none {A} (p : A -> bool) (l : list A) :
  (forall x, In x l -> p x = false) -> List.filter p l = [].
Proof.
  induction l as [|x l IH]; intros H; [reflexivity|]. cbn [List.filter].
  rewrite (H x) by now left. apply IH. intros y Hy. apply H. now right.
Qed.

Lemma pairwise_distinct_at_most_one (ks : list (list value)) (k : list value) :
  pairwise_distinct ks = true -> length (List.filter (key_eqb k) ks) <= 1.
Proof.
  induction ks as [|x ks IH]; cbn [pairwise_distinct List.filter length]; [lia|].
  intros H. apply andb_true_iff in H as [Hx H].
  destruct (key_eqb k x) eqn:E; [|now apply IH].
  cbn [length]. apply le_n_S.
  assert (List.filter (key_eqb k) ks = []) as ->; [|reflexivity].
  apply filter_none. intros y Hy.
  rewrite forallb_forall in Hx. specialize (Hx y Hy).
  destruct (key_eqb k y) eqn:E'; [|reflexivity].
  rewrite key_eqb_sym in E'. now rewrite (key_eqb_trans _ _ _ E' E) in Hx.
Qed.

Lemma first_occurrences_distinct (acc ks : list (list value)) :
  let firsts :=
    filter_mask (imap (fun i k => negb (existsb (key_eqb k) (acc ++ take i ks))) ks) ks in
  pairwise_distinct firsts = true
  /\ forall r, In r firsts -> existsb (key_eqb r) acc = false.
Proof.
  revert acc. induction ks as [|k ks IH]; intros acc; cbn zeta.
  - split; [reflexivity|contradiction].
  - rewrite imap_cons. cbn [take filter_mask]. rewrite app_nil_r.
    rewrite (imap_ext _ (fun i k' => negb (existsb (key_eqb k') ((acc ++ [k]) ++ take i ks))))
      by (intros i x _; cbn; now rewrite <- app_assoc).
    destruct (IH (acc ++ [k])) as [Hd Hacc]. cbn zeta in Hd, Hacc.
    assert (Hrest : forall r,
               In r (filter_mask
                       (imap (fun i k' => negb (existsb (key_eqb k')
                                                        ((acc ++ [k]) ++ take i ks))) ks) ks) ->
               existsb (key_eqb r) acc = false /\ key_eqb r k = false).
    { intros r Hr. specialize (Hacc r Hr). rewrite existsb_app in Hacc.
      apply orb_false_iff in Hacc as [H1 H2]. cbn in H2. rewrite orb_false_r in H2. auto. }
    destruct (existsb (key_eqb k) acc) eqn:E; cbn [negb].
    + split; [exact Hd|]. intros r Hr. now apply Hrest.
    + split.
      * cbn [pairwise_distinct]. rewrite Hd, andb_true_r.
        apply forallb_forall. intros r Hr. apply Hrest in Hr as [_ ->]. reflexivity.
      * intros r [<-|Hr]; [exact E|]. now apply Hrest.
Qed.

Lemma pairwise_distinct_coarser {A} (g h : A -> list value) (l : list A) :
  pairwise_distinct (map g l) = true ->
  (forall p q, In p l -> In q l -> key_eqb (h p) (h q) = true -> key_eqb (g p) (g q) = true) ->
  pairwise_distinct (map h l) = true.
Proof.
  induction l as [|x l IH]; cbn [map pairwise_distinct]; [reflexivity|].
  intros H Hgh. apply andb_true_iff in H as [Hx H].
  rewrite IH; [|exact H|intros p q Hp Hq; apply Hgh; now right].
  rewrite andb_true_r. apply forallb_forall. intros k Hk.
  apply in_map_iff in Hk as (y & <- & Hy).
  rewrite forallb_forall in Hx. specialize (Hx (g y) (in_map g _ _ Hy)).
  destruct (key_eqb (h y) (h x)) eqn:E; [|reflexivity].
  rewrite (Hgh y x) in Hx; [discriminate|now right|now left|exact E].
Qed.

Lemma single_source_spec (scenarios sources : list value) (p q : value * value) :
  single_source scenarios sources = true ->
  In p (zip scenarios sources) -> In q (zip scenarios sources) ->
  value_eqb (fst p) (fst q) = true -> value_eqb (snd p) (snd q) = true.
Proof.
  unfold single_source. intros H Hp Hq E.
  rewrite forallb_forall in H. specialize (H p Hp).
  rewrite forallb_forall in H. specialize (H q Hq). now rewrite E in H.
Qed.

Lemma groups_of_single_source (T : DataFrame) (scenarios sources : list value) :
  get_col "scenario" T = Some scenarios -> get_col "source" T = Some sources ->
  length scenarios = nrows T -> length sources = nrows T ->
  single_source scenarios sources = true ->
  forall g, In g (groups_by_scenario (drop_duplicates ["scenario"; "source"] T)) ->
            nrows (snd g) <= 1.
Proof.
  intros Hscen Hsrc Ln Lm Hone g Hg.
  unfold groups_by_scenario, drop_duplicates in Hg.
  set (records := zip scenarios sources) in *.
  assert (Hks : keys_of ["scenario"; "source"] T
                = map (fun p => [fst p; snd p]) records).
  { unfold keys_of. cbn [map]. rewrite Hscen, Hsrc. cbn [default from_option id].
    now apply keys_of_pairs. }
  rewrite Hks in Hg.
  set (ks := map (fun p : value * value => [fst p; snd p]) records) in *.
  set (mask := imap (fun i k => negb (existsb (key_eqb k) (take i ks))) ks) in *.
  assert (Lmask : length mask = nrows T).
  { unfold mask, ks, records. now rewrite length_imap, length_map, length_zip_with, Ln, Lm,
      Nat.min_id. }
  set (dd := select_rows mask T) in *.
  assert (Hdd : get_col "scenario" dd = Some (filter_mask mask scenarios)).
  { unfold dd. now rewrite get_col_select_rows, Hscen. }
  assert (Ldd : length (filter_mask mask scenarios) = nrows dd).
  { unfold dd. rewrite nrows_select_rows by exact Lmask.
    apply filter_mask_length. now rewrite Lmask. }
  assert (Hks' : keys_of ["scenario"] dd = map (fun v => [v]) (filter_mask mask scenarios)).
  { unfold keys_of. cbn [map]. rewrite Hdd. cbn [default from_option id].
    now apply keys_of_singletons. }
  rewrite Hks' in Hg.
  apply in_map_iff in Hg as (k & <- & _). cbn [snd].
  rewrite nrows_select_rows by (now rewrite !length_map).
  rewrite (length_filter_map (key_eqb k) id).
  change (fun x => id (key_eqb k x)) with (key_eqb k).
  apply pairwise_distinct_at_most_one.
  assert (Hfst : scenarios = map fst records).
  { unfold records. symmetry. apply fst_zip. lia. }
  rewrite Hfst, filter_mask_map, map_map.
  apply (pairwise_distinct_coarser (fun p : value * value => [fst p; snd p])).
  - rewrite <- filter_mask_map. fold ks.
    destruct (first_occurrences_distinct [] ks) as [Hd _]. exact Hd.
  - intros p q Hp Hq E. apply filter_mask_incl in Hp, Hq.
    cbn [key_eqb] in *. rewrite andb_true_r in *. rewrite E. cbn [andb].
    now apply (single_source_spec scenarios sources).
Qed.

Lemma get_col_In (c : string) (f : DataFrame) (vs : list value) :
  get_col c f = Some vs -> In (c, vs) f.
Proof.
  induction f as [|[n ws] f IH]; cbn [get_col]; [discriminate|].
  destruct (String.eqb n c) eqn:E.
  - apply String.eqb_eq in E. subst n. intros [= ->]. now left.
  - right; auto.
Qed.

Lemma rectangular_length (c : string) (f : DataFrame) (vs : list value) :
  rectangular f = true -> get_col c f = Some vs -> length vs = nrows f.
Proof.
  unfold rectangular. intros H Hc. apply get_col_In in Hc.
  rewrite forallb_forall in H. specialize (H _ Hc). now apply Nat.eqb_eq in H.
Qed.

Lemma nrows_set_col (c : string) (vs : list value) (f : DataFrame) :
  f <> [] -> length vs = nrows f -> nrows (set_col c vs f) = nrows f.
Proof.
  destruct f as [|[n ws] f]; [contradiction|]. intros _ H. cbn [set_col].
  now destruct (String.eqb n c).
Qed.

Lemma set_col_not_nil (c : string) (vs : list value) (f : DataFrame) : set_col c vs f <> [].
Proof. destruct f as [|[n ws] f]; cbn [set_col]; [|destruct (String.eqb n c)]; discriminate. Qed.

Lemma drop_col_select_rows (c : string) (mask : list bool) (f : DataFrame) :
  drop_col c (select_rows mask f) = select_rows mask (drop_col c f).
Proof.
  unfold drop_col, select_rows. induction f as [|[n ws] f IH]; [reflexivity|].
  cbn [map List.filter fst snd]. destruct (negb (String.eqb n c)); cbn [map fst snd];
    now rewrite IH.
Qed.

Lemma drop_col_set_col_eq (c : string) (vs : list value) (f : DataFrame) :
  drop_col c (set_col c vs f) = drop_col c f.
Proof.
  unfold drop_col. induction f as [|[n ws] f IH]; cbn [set_col List.filter fst].
  - now rewrite String.eqb_refl.
  - destruct (String.eqb n c) eqn:E; cbn [List.filter fst]; rewrite E; cbn [negb];
      [reflexivity|now rewrite IH].
Qed.

Lemma drop_col_set_col_ne (c c' : string) (vs : list value) (f : DataFrame) :
  c <> c' -> drop_col c (set_col c' vs f) = set_col c' vs (drop_col c f).
Proof.
  intros Hne. unfold drop_col. induction f as [|[n ws] f IH]; cbn [set_col List.filter fst].
  - destruct (String.eqb c' c) eqn:E; [apply String.eqb_eq in E; congruence|reflexivity].
  - destruct (String.eqb n c') eqn:E'.
    + apply String.eqb_eq in E'. subst n. cbn [List.filter fst].
      destruct (String.eqb c' c) eqn:E; [apply String.eqb_eq in E; congruence|].
      cbn [negb set_col]. now rewrite String.eqb_refl.
    + cbn [List.filter fst]. destruct (String.eqb n c) eqn:E; cbn [negb]; [exact IH|].
      cbn [set_col]. now rewrite E', IH.
Qed.

Lemma select_rows_all (mask : list bool) (f : DataFrame) :
  forallb id mask = true ->
  (forall col, In col f -> length (snd col) = length mask) ->
  select_rows mask f = f.
Proof.
  intros Hall Hlen. unfold select_rows. rewrite <- (map_id f) at 2.
  apply map_ext_in. intros [n ws] Hin. cbn [fst snd]. f_equal.
  apply filter_mask_all_true; [exact Hall|]. symmetry. exact (Hlen _ Hin).
Qed.

Lemma without_helper_columns_with (scen_sources counts : list value) (f : DataFrame) :
  without_helper_columns (with_helper_columns scen_sources counts f)
  = without_helper_columns f.
Proof.
  unfold without_helper_columns, with_helper_columns.
  rewrite drop_col_set_col_ne by discriminate.
  now rewrite drop_col_set_col_eq, drop_col_set_col_eq.
Qed.

(** X21. On a table in which no scenario comes from two sources,
    [clear_repeated_scenarios] removes nothing: a successful call prints no
    line and binds [self.df] to a new table with the records of the old one,
    all of them, in their order (the old table without the helper columns,
    which is the old table when it had none). *)
Theorem clear_repeated_scenarios_without_repeats :
  forall (self : nat) (source_to_keep : option string) (w w' : world)
         (b : Benchmark) (l : nat) (f : DataFrame) (scenarios sources : list value),
    objects w !! self = Some b -> df b = Some l -> frames w !! l = Some f ->
    rectangular f = true ->
    get_col "scenario" f = Some scenarios ->
    get_col "source" f = Some sources ->
    single_source scenarios sources = true ->
    clear_repeated_scenarios self source_to_keep w = (Ok tt, w') ->
    stdout w' = stdout w
    /\ df <$> objects w' !! self = Some (Some (length (frames w)))
    /\ table_of w' self = Some (without_helper_columns f)
    /\ (has_col "scenario__source" f = false ->
        has_col "scenario__source_counts" f = false ->
        without_helper_columns f = f).
Proof.
  intros self stk w w' b l f scenarios sources Hb Hl Hf Hrect Hscen Hsrc Hone H.
  assert (Hll : l < length (frames w)) by (eapply lookup_lt_Some; eauto).
  assert (Hss : self < length (objects w)) by (eapply lookup_lt_Some; eauto).
  destruct (clear_repeated_scenarios_steps self stk w w' b l f Hb Hl Hf H)
    as (scenarios' & sources' & ss & cs & dropped & g & w1
        & Hscen' & Hsrc' & Lss & Lcs & Hloop & Hq & ->).
  rewrite Hscen in Hscen'. injection Hscen' as <-.
  rewrite Hsrc in Hsrc'. injection Hsrc' as <-.
  pose proof (rectangular_length _ _ _ Hrect Hscen) as Ln.
  pose proof (rectangular_length _ _ _ Hrect Hsrc) as Lm.
  rewrite Ln, Lm, Nat.min_id in Lss. rewrite Lss in Lcs.
  set (T2 := with_helper_columns ss cs f) in *.
  assert (Hne : f <> []) by (intros ->; discriminate).
  assert (Hn2 : nrows T2 = nrows f).
  { unfold T2, with_helper_columns.
    rewrite nrows_set_col; [|apply set_col_not_nil|]; now rewrite nrows_set_col. }
  rewrite clear_scenarios_small_groups in Hloop.
  2:{ apply (groups_of_single_source T2 scenarios sources); try exact Hone; try lia.
      - unfold T2, with_helper_columns. now rewrite !get_col_set_col_ne by discriminate.
      - unfold T2, with_helper_columns. now rewrite !get_col_set_col_ne by discriminate. }
  injection Hloop as <- <-.
  unfold query_in in Hq.
  assert (Hss2 : get_col "scenario__source" T2 = Some ss).
  { unfold T2, with_helper_columns. rewrite get_col_set_col_ne by discriminate.
    apply get_col_set_col_eq. }
  rewrite Hss2 in Hq. injection Hq as <-.
  assert (Hnew : forall mask,
             forallb id mask = true -> length mask = nrows f ->
             without_helper_columns (select_rows mask T2) = without_helper_columns f).
  { intros mask Hall Lmask.
    unfold without_helper_columns at 1. rewrite !drop_col_select_rows.
    fold (without_helper_columns T2). unfold T2.
    rewrite without_helper_columns_with. apply select_rows_all; [exact Hall|].
    intros col Hin. unfold without_helper_columns, drop_col in Hin.
    apply filter_In in Hin as [Hin _]. apply filter_In in Hin as [Hin _].
    unfold rectangular in Hrect. rewrite forallb_forall in Hrect.
    specialize (Hrect _ Hin). apply Nat.eqb_eq in Hrect. lia. }
  rewrite Hnew.
  2:{ apply forallb_forall. intros x Hx. now apply in_map_iff in Hx as (v & <- & _). }
  2:{ rewrite length_map. lia. }
  cbn [stdout objects frames].
  assert (Hobj : <[self := {| is_empty := is_empty b; df := Some (length (frames w)) |}]>
                   (objects w) !! self
                 = Some {| is_empty := is_empty b; df := Some (length (frames w)) |})
    by now apply list_lookup_insert_eq.
  split_and!.
  - reflexivity.
  - now rewrite Hobj.
  - unfold table_of. cbn [objects frames]. rewrite Hobj. cbn.
    rewrite lookup_app_r by (rewrite length_insert; lia).
    now rewrite length_insert, Nat.sub_diag.
  - intros H1 H2. unfold without_helper_columns, drop_col.
    assert (Hkeep : forall c g, has_col c g = false ->
              List.filter (fun col : string * list value => negb (String.eqb (fst col) c)) g
              = g).
    { intros c g0. unfold has_col, columns. induction g0 as [|[n ws] g0 IH]; [reflexivity|].
      cbn [map existsb fst List.filter]. intros Hc. apply orb_false_iff in Hc as [Hc Hc'].
      rewrite String.eqb_sym, Hc. cbn [negb]. now rewrite IH. }
    now rewrite (Hkeep _ _ H1), (Hkeep _ _ H2).
Qed.

Lemma clear_repeated_scenarios_without_repeats_witness :
  stdout (snd (clear_repeated_scenarios 0 None holding_one_source_each)) = []
  /\ table_of (snd (clear_repeated_scenarios 0 None holding_one_source_each)) 0
     = Some one_source_each.
Proof.
  destruct (clear_repeated_scenarios_without_repeats 0 None holding_one_source_each
              (snd (clear_repeated_scenarios 0 None holding_one_source_each))
              {| is_empty := false; df := Some 0 |} 0 one_source_each
              [VStr "a"; VStr "a"; VStr "b"] [VStr "s1"; VStr "s1"; VStr "s2"]
              eq_refl eq_refl eq_refl eq_refl eq_refl eq_refl eq_refl eq_refl)
    as (H1 & _ & H2 & _).
  split; [exact H1|exact H2].
Defined.
